(** * cinq-collector-dns: the DNS collector and its browsing views

    A shallow embedding of [cinq_collector_dns/__init__.py] (the two source
    adapters, [DNSCollector.process_zones], [DNSCollector.__init__] and
    [DNSCollector.run]) and of [cinq_collector_dns/views.py], followed by
    the properties proved about them.

    Layout: Python built-ins the collector relies on, the upstream
    collaborators, the two adapters, the CloudFlare adapter over a
    connection that can fail, the storage collaborator, the
    reconciliation engine, the collector's accounts and its [run], the
    views; then the proofs. *)

From stdpp Require Import gmap strings list fin_maps sorting pretty.
From Stdlib Require Import ZArith Ascii.

Local Open Scope Z_scope.

(* ===================================================================== *)
(** ** Python built-ins *)
(* ===================================================================== *)

(** A [string] stands for the Python [str] that has the same code points,
    one character for each: the model covers the [str] values whose code
    points are all below 256. *)

Module Py.

(** [sorted(l)] on a list of [str]. Python compares [str] code point by
    code point, a proper prefix first: this is [String.le]. The order is
    total and antisymmetric, so the result is the one sorted permutation
    of [l], whichever merge sort computes it. *)
Definition sorted (l : list string) : list string := merge_sort String.le l.

Definition dquote : ascii := "034"%char.
Definition squote : ascii := "039"%char.
Definition backslash : ascii := "092"%char.

Fixpoint contains (c : ascii) (s : string) : bool :=
  match s with
  | EmptyString => false
  | String c' s' => Ascii.eqb c c' || contains c s'
  end.

Definition hex_digit (n : N) : ascii :=
  match String.get (N.to_nat n) "0123456789abcdef" with
  | Some c => c
  | None => "0"%char
  end.

(** [c.isprintable()] for a code point below 256: all but the controls 0
    to 31 and 127 to 159, the no-break space 160 and the soft hyphen 173. *)
Definition isprintable (c : ascii) : bool :=
  let n := N_of_ascii c in
  negb ((n <? 32)%N || ((127 <=? n)%N && (n <=? 160)%N) || (n =? 173)%N).

(** [repr] of one character inside the quote [q]: the quote and the
    backslash are escaped, tab, newline and carriage return have their
    letter, and every other character that is not printable is written
    [\xhh]. *)
Definition repr_char (q c : ascii) : string :=
  let n := N_of_ascii c in
  if Ascii.eqb c q || Ascii.eqb c backslash then String backslash (String c EmptyString)
  else if (n =? 9)%N then String backslash "t"
  else if (n =? 10)%N then String backslash "n"
  else if (n =? 13)%N then String backslash "r"
  else if negb (isprintable c) then
    String backslash (String "x" (String (hex_digit (n / 16)) (String (hex_digit (n mod 16)) EmptyString)))
  else String c EmptyString.

Fixpoint repr_body (q : ascii) (s : string) : string :=
  match s with
  | EmptyString => EmptyString
  | String c s' => repr_char q c +:+ repr_body q s'
  end.

(** [repr(s)]: single quotes, unless [s] holds a single quote and no
    double quote. *)
Definition repr (s : string) : string :=
  let q := if contains squote s && negb (contains dquote s) then dquote else squote in
  String q (repr_body q s +:+ String q EmptyString).

(** [str(l)] for a list of [str]. *)
Definition str_of_list (l : list string) : string :=
  "[" +:+ String.concat ", " (map repr l) +:+ "]".

(** ['{}={}'.format(k, v)] for a [str] value. *)
Definition format_kv (k v : string) : string := k +:+ "=" +:+ v.

(** [l[start:end]] with Python's treatment of negative and out-of-range
    bounds. *)
Definition clamp_index (len i : Z) : Z :=
  if i <? 0 then Z.max 0 (i + len) else Z.min i len.

Definition slice {A : Type} (l : list A) (start stop : Z) : list A :=
  let len := Z.of_nat (length l) in
  let lo := clamp_index len start in
  let hi := clamp_index len stop in
  take (Z.to_nat (hi - lo)) (drop (Z.to_nat lo) l).

End Py.

(* ===================================================================== *)
(** ** Exceptions and outcomes *)
(* ===================================================================== *)

Inductive exn : Type :=
| CloudFlareError (message : string)
| TransferError (zone_name : string)
| AttributeError (attribute : string)
| ResourceException (resource_id : string)
| StorageError
| TransportError (reason : string)
| BodyError (reason : string).

(** What running a piece of the collector gives: a value, an exception, or
    a loop that has not finished within the steps it was given. *)
Inductive outcome (A : Type) : Type :=
| Ok (a : A)
| Raise (e : exn)
| Diverge.
Arguments Ok {A} a.
Arguments Raise {A} e.
Arguments Diverge {A}.

(** State-and-exception monad: the state is always handed back, so that
    what happened before an exception (requests sent, rows written) stays
    visible. *)
Definition M (S A : Type) : Type := S -> outcome A * S.

Definition ret {S A} (a : A) : M S A := fun s => (Ok a, s).
Definition raise {S A} (e : exn) : M S A := fun s => (Raise e, s).
Definition diverge {S A} : M S A := fun s => (Diverge, s).

Definition bind {S A B} (m : M S A) (f : A -> M S B) : M S B :=
  fun s =>
    match m s with
    | (Ok a, s') => f a s'
    | (Raise e, s') => (Raise e, s')
    | (Diverge, s') => (Diverge, s')
    end.

#[global] Instance M_ret {S} : MRet (M S) := fun A => @ret S A.
#[global] Instance M_bind {S} : MBind (M S) := fun A B f m => @bind S A B m f.

(** Reading and changing the state. *)
Definition gets {S A} (f : S -> A) : M S A := fun s => (Ok (f s), s).
Definition modify {S} (f : S -> S) : M S unit := fun s => (Ok tt, f s).

(** [try: m except: handler] with a bare [except]. *)
Definition try_except {S A} (m : M S A) (handler : exn -> M S A) : M S A :=
  fun s =>
    match m s with
    | (Raise e, s') => handler e s'
    | r => r
    end.

(** [for x in l: body x]. *)
Fixpoint for_each {S A} (l : list A) (body : A -> M S unit) : M S unit :=
  match l with
  | [] => ret tt
  | x :: l' => body x;; for_each l' body
  end.

(* ===================================================================== *)
(** ** Snapshot shape: what the adapters hand to [process_zones] *)
(* ===================================================================== *)

(** One entry of [zone['records']]: keys [id], [zone_id], [name], [value],
    [type]. *)
Record record_data : Type := {
  r_id : string;
  r_zone_id : string;
  r_name : string;
  r_value : list string;
  r_type : string
}.

(** One zone of the snapshot: keys [zone_id], [name], [source], [comment],
    [tags], [records]. *)
Record zone_data : Type := {
  z_zone_id : string;
  z_name : string;
  z_source : string;
  z_comment : option string;
  z_tags : list (string * string);
  z_records : list record_data
}.

#[global] Instance record_data_eq_dec : EqDecision record_data.
Proof. solve_decision. Defined.
#[global] Instance zone_data_eq_dec : EqDecision zone_data.
Proof. solve_decision. Defined.

(* ===================================================================== *)
(** ** Upstream collaborators *)
(* ===================================================================== *)

(** A zone object of the CloudFlare zone listing: the two keys the
    collector reads. *)
Record cf_zone : Type := {
  cf_zone_id : string;       (* zobj['id'] *)
  cf_zone_name : string      (* zobj['name'] *)
}.

(** A raw row of a zone's [dns_records] listing: the three keys the
    collector reads, and the row's remaining fields as text. *)
Record cf_row : Type := {
  cf_name : string;          (* record['name'] *)
  cf_content : string;       (* record['content'] *)
  cf_type : string;          (* record['type'] *)
  cf_other : list (string * string)
}.

(** The JSON body of a listing: [result] and [result_info]; [total_pages]
    is [None] when [result_info] has no such key. *)
Record cf_body (row : Type) : Type := {
  result : list row;
  total_pages : option Z
}.
Arguments result {row} _.
Arguments total_pages {row} _.

Record http_response (row : Type) : Type := {
  status_code : Z;
  text : string;
  json : cf_body row
}.
Arguments status_code {row} _.
Arguments text {row} _.
Arguments json {row} _.

(** The query string of a request: [page] and [per_page]. *)
Record cf_args : Type := {
  arg_page : Z;
  arg_per_page : Z
}.

Inductive cf_request : Type :=
| GetZones (args : cf_args)                       (* GET /zones *)
| GetZoneRecords (zoneID : string) (args : cf_args). (* GET /zones/{zoneID}/dns_records *)

(** A resource record of a transferred zone, as [z.iterate_rdatas()] yields
    it: each field with the texts the DNS library renders for it. *)
Record rdata_row : Type := {
  rr_name : string;          (* str(rr['name']), relative to the origin *)
  rr_fqdn : string;          (* rr['name'].derelativize(z.origin).to_text() *)
  rr_ttl : Z;
  rr_rdata : string;         (* rr['rdata'].to_text(), also str(rr['rdata']) *)
  rr_rdtype : string         (* type_to_text(rr['rdata'].rdtype) *)
}.

(** What lies outside the repository: the identity function of
    [cloud_inquisitor.utils], the CloudFlare endpoint, the name server
    answering zone transfers (its answer may differ from one query to the
    next), and the number of attempts the [retry] wrapper makes. *)
Class Upstream : Type := {
  get_resource_id : string -> list string -> string;
  cloudflare_zones : cf_args -> http_response cf_zone;
  cloudflare_dns_records : string -> cf_args -> http_response cf_row;
  xfr : nat -> string -> string -> option (list rdata_row);
  retry_attempts : nat
}.

(** The collector's settings ([self.axfr_server], [self.axfr_domains]). *)
Record DNSCollector : Type := {
  axfr_server : string;
  axfr_domains : list string
}.

(** What a run of an adapter leaves behind: the lazily created session,
    the requests sent to CloudFlare, and the transfers asked for. *)
Record net : Type := {
  cloudflare_initialized : bool;
  requests : list cf_request;
  transfers : list (string * string)
}.

Definition net0 : net :=
  {| cloudflare_initialized := false; requests := []; transfers := [] |}.

(** A value of the [records] dict of [__cloudflare_list_zone_records]. *)
Record merged_record : Type := {
  m_name : string;
  m_value : list string;
  m_type : string
}.

Section Adapters.
Context `{Upstream}.

(* ------------------------------------------------------------------- *)
(** *** Helper functions for CloudFlare *)

(** [__cloudflare_request(path, args)]: creates the session on first
    use, adds [per_page = 100], sends the request and raises
    [CloudFlareError] on any status but 200. [endpoint] is what the
    server answers on the path, [path] the request as it is logged.
    Here every request arrives and every answer reads as the API documents
    it; what [session.get] and the reading of the body can raise besides
    is in [Wire.cloudflare_request] further on, which is this function
    when neither happens. *)
Definition session_get (req : cf_request) (s : net) : net :=
  {| cloudflare_initialized := true;
     requests := requests s ++ [req];
     transfers := transfers s |}.

Definition cloudflare_request {row} (endpoint : cf_args -> http_response row)
    (path : cf_args -> cf_request) (page : Z) : M net (cf_body row) :=
  let args := {| arg_page := page; arg_per_page := 100 |} in
  let response := endpoint args in
  modify (session_get (path args));;
  if status_code response =? 200 then mret (json response)
  else raise (CloudFlareError ("Request failed: " +:+ text response)).

(** The test both loops make on a page:
    ['total_pages' not in info or page == info['total_pages']]. *)
Definition last_page {row} (page : Z) (response : cf_body row) : bool :=
  match total_pages response with
  | None => true
  | Some n => page =? n
  end.

(** [__cloudflare_list_zones]: the [while not done] loop, one iteration
    per unit of [fuel]. *)
Fixpoint cloudflare_list_zones_loop (fuel : nat) (page : Z) (zones : list cf_zone)
  : M net (list cf_zone) :=
  match fuel with
  | O => diverge
  | S fuel' =>
      response ← cloudflare_request cloudflare_zones GetZones page;
      let zones' := zones ++ result response in
      if last_page page response then mret zones'
      else cloudflare_list_zones_loop fuel' (page + 1) zones'
  end.

Definition cloudflare_list_zones (fuel : nat) : M net (list cf_zone) :=
  cloudflare_list_zones_loop fuel 1 [].

(** The [records] dict: keyed by name, in insertion order. *)
Fixpoint merge_row (records : list (string * merged_record)) (record : cf_row)
  : list (string * merged_record) :=
  match records with
  | [] =>
      [(cf_name record,
        {| m_name := cf_name record;
           m_value := Py.sorted [cf_content record];
           m_type := cf_type record |})]
  | (k, m) :: records' =>
      if String.eqb k (cf_name record) then
        (k, {| m_name := m_name m;
               m_value := Py.sorted (m_value m ++ [cf_content record]);
               m_type := m_type m |}) :: records'
      else (k, m) :: merge_row records' record
  end.

(** [for record in response['result']: ...] *)
Definition merge_rows (records : list (string * merged_record)) (rows : list cf_row)
  : list (string * merged_record) :=
  foldl merge_row records rows.

(** [__cloudflare_list_zone_records] *)
Fixpoint cloudflare_list_zone_records_loop (fuel : nat) (zoneID : string) (page : Z)
    (records : list (string * merged_record)) : M net (list merged_record) :=
  match fuel with
  | O => diverge
  | S fuel' =>
      response ← cloudflare_request (cloudflare_dns_records zoneID) (GetZoneRecords zoneID) page;
      let records' := merge_rows records (result response) in
      if last_page page response then mret (map snd records')
      else cloudflare_list_zone_records_loop fuel' zoneID (page + 1) records'
  end.

Definition cloudflare_list_zone_records (fuel : nat) (zoneID : string)
  : M net (list merged_record) :=
  cloudflare_list_zone_records_loop fuel zoneID 1 [].

(* ------------------------------------------------------------------- *)
(** *** [get_cloudflare_records] *)

(** [['{}={}'.format(k, v) for k, v in record.items()]] for a value of
    the [records] dict, whose keys are [name], [value], [type] in that
    order. *)
Definition merged_items (record : merged_record) : list string :=
  [ Py.format_kv "name" (m_name record);
    Py.format_kv "value" (Py.str_of_list (m_value record));
    Py.format_kv "type" (m_type record) ].

Definition cloudflare_record (zobj : cf_zone) (zone_id : string) (record : merged_record)
  : record_data :=
  {| r_id := get_resource_id "cfr" (cf_zone_id zobj :: merged_items record);
     r_zone_id := zone_id;
     r_name := m_name record;
     r_value := m_value record;
     r_type := m_type record |}.

(** The [zone] dict of [get_cloudflare_records] once its records are
    appended. *)
Definition cloudflare_zone_dict (zobj : cf_zone) (records : list merged_record) : zone_data :=
  let zone_id := get_resource_id "cfz" [cf_zone_name zobj] in
  {| z_zone_id := zone_id;
     z_name := cf_zone_name zobj;
     z_source := "CloudFlare";
     z_comment := None;
     z_tags := [];
     z_records := map (cloudflare_record zobj zone_id) records |}.

(** The body of [for zobj in ...: try: ... except CloudFlareError: ...]. *)
Definition cloudflare_zone (fuel : nat) (zones : list zone_data) (zobj : cf_zone)
  : M net (list zone_data) :=
  fun s =>
    match cloudflare_list_zone_records fuel (cf_zone_id zobj) s with
    | (Ok records, s') =>
        let zone := cloudflare_zone_dict zobj records in
        (Ok (if 0 <? Z.of_nat (length (z_records zone)) then zones ++ [zone] else zones), s')
    | (Raise (CloudFlareError _), s') => (Ok zones, s')
    | (Raise e, s') => (Raise e, s')
    | (Diverge, s') => (Diverge, s')
    end.

Fixpoint cloudflare_zones_loop (fuel : nat) (zones : list zone_data) (zobjs : list cf_zone)
  : M net (list zone_data) :=
  match zobjs with
  | [] => mret zones
  | zobj :: zobjs' =>
      zones' ← cloudflare_zone fuel zones zobj;
      cloudflare_zones_loop fuel zones' zobjs'
  end.

Definition get_cloudflare_records (fuel : nat) : M net (list zone_data) :=
  zobjs ← cloudflare_list_zones fuel;
  cloudflare_zones_loop fuel [] zobjs.

(* ------------------------------------------------------------------- *)
(** *** [get_axfr_records] *)

(** [dns_zone.from_xfr(query.xfr(self.axfr_server, zoneName))]. *)
Definition from_xfr (server zoneName : string) : M net (list rdata_row) :=
  fun s =>
    let s' := {| cloudflare_initialized := cloudflare_initialized s;
                 requests := requests s;
                 transfers := transfers s ++ [(server, zoneName)] |} in
    match xfr (length (transfers s)) server zoneName with
    | Some rows => (Ok rows, s')
    | None => (Raise (TransferError zoneName), s')
    end.

(** [['{}={}'.format(k, str(v)) for k, v in rr.items()]], the keys being
    [name], [ttl], [rdata]. *)
Definition rdata_items (rr : rdata_row) : list string :=
  [ Py.format_kv "name" (rr_name rr);
    Py.format_kv "ttl" (pretty (rr_ttl rr));
    Py.format_kv "rdata" (rr_rdata rr) ].

Definition axfr_record (zone_id : string) (rr : rdata_row) : record_data :=
  {| r_id := get_resource_id "axfrr" (rr_fqdn rr :: rdata_items rr);
     r_zone_id := zone_id;
     r_name := rr_fqdn rr;
     r_value := Py.sorted [rr_rdata rr];
     r_type := rr_rdtype rr |}.

(** The [zone] dict of [get_axfr_records] once its records are appended. *)
Definition axfr_zone_dict (zoneName : string) (rows : list rdata_row) : zone_data :=
  let zone_id := get_resource_id "axfrz" [zoneName] in
  {| z_zone_id := zone_id;
     z_name := zoneName;
     z_source := "AXFR";
     z_comment := None;
     z_tags := [];
     z_records := map (axfr_record zone_id) rows |}.

(** The body of [for zoneName in self.axfr_domains]; the [except] clause
    logs and raises again. *)
Definition axfr_zone (self : DNSCollector) (zones : list zone_data) (zoneName : string)
  : M net (list zone_data) :=
  rows ← from_xfr (axfr_server self) zoneName;
  let zone := axfr_zone_dict zoneName rows in
  mret (if 0 <? Z.of_nat (length (z_records zone)) then zones ++ [zone] else zones).

Fixpoint axfr_zones_loop (self : DNSCollector) (zones : list zone_data) (names : list string)
  : M net (list zone_data) :=
  match names with
  | [] => mret zones
  | zoneName :: names' =>
      zones' ← axfr_zone self zones zoneName;
      axfr_zones_loop self zones' names'
  end.

(** Modelled from the spec: the [retry] wrapper of
    [cloud_inquisitor.wrappers] (a bounded retry policy with a finite
    attempt count): the call is made again after an exception, until
    [attempts] further attempts have been used up, then the exception is
    raised to the caller. *)
Fixpoint retry {A} (attempts : nat) (call : M net A) : M net A :=
  match attempts with
  | O => call
  | S attempts' => try_except call (fun _ => retry attempts' call)
  end.

Definition get_axfr_records (self : DNSCollector) : M net (list zone_data) :=
  retry retry_attempts (axfr_zones_loop self [] (axfr_domains self)).

End Adapters.

(* ===================================================================== *)
(** ** The CloudFlare adapter over a connection that can fail *)
(* ===================================================================== *)

(** Above, every request is answered and the answer reads as the API
    documents it. What else can happen to a request: [session.get] raises
    and no answer arrives, or the answer, though 200, cannot be read
    ([response.json()] raises, or a key the collector reads, [result_info],
    [result], a row's [name], [content] or [type], is missing). Both are
    given for each request, with the text of the exception. *)
Class Transport : Type := {
  transport_fault : cf_request -> option string;
  body_fault : cf_request -> option string
}.

(** The connection the definitions above assume. *)
Definition reliable : Transport :=
  {| transport_fault := fun _ => None; body_fault := fun _ => None |}.

Module Wire.
Section Wire.
Context `{Upstream} `{Transport}.

(** [__cloudflare_request(path, args)]: the request is sent, and
    [session.get] may raise; a status other than 200 raises
    [CloudFlareError]; the body of a 200 answer is read, which may raise. *)
Definition cloudflare_request {row} (endpoint : cf_args -> http_response row)
    (path : cf_args -> cf_request) (page : Z) : M net (cf_body row) :=
  let args := {| arg_page := page; arg_per_page := 100 |} in
  let response := endpoint args in
  modify (session_get (path args));;
  match transport_fault (path args) with
  | Some reason => raise (TransportError reason)
  | None =>
      if status_code response =? 200 then
        match body_fault (path args) with
        | Some reason => raise (BodyError reason)
        | None => mret (json response)
        end
      else raise (CloudFlareError ("Request failed: " +:+ text response))
  end.

(** [__cloudflare_list_zones] *)
Fixpoint cloudflare_list_zones_loop (fuel : nat) (page : Z) (zones : list cf_zone)
  : M net (list cf_zone) :=
  match fuel with
  | O => diverge
  | S fuel' =>
      response ← cloudflare_request cloudflare_zones GetZones page;
      let zones' := zones ++ result response in
      if last_page page response then mret zones'
      else cloudflare_list_zones_loop fuel' (page + 1) zones'
  end.

Definition cloudflare_list_zones (fuel : nat) : M net (list cf_zone) :=
  cloudflare_list_zones_loop fuel 1 [].

(** [__cloudflare_list_zone_records] *)
Fixpoint cloudflare_list_zone_records_loop (fuel : nat) (zoneID : string) (page : Z)
    (records : list (string * merged_record)) : M net (list merged_record) :=
  match fuel with
  | O => diverge
  | S fuel' =>
      response ← cloudflare_request (cloudflare_dns_records zoneID) (GetZoneRecords zoneID) page;
      let records' := merge_rows records (result response) in
      if last_page page response then mret (map snd records')
      else cloudflare_list_zone_records_loop fuel' zoneID (page + 1) records'
  end.

Definition cloudflare_list_zone_records (fuel : nat) (zoneID : string)
  : M net (list merged_record) :=
  cloudflare_list_zone_records_loop fuel zoneID 1 [].

(** The body of [for zobj in ...: try: ... except CloudFlareError: ...]:
    a [CloudFlareError] is logged and the zone left out, any other
    exception goes on to the caller. *)
Definition cloudflare_zone (fuel : nat) (zones : list zone_data) (zobj : cf_zone)
  : M net (list zone_data) :=
  fun s =>
    match cloudflare_list_zone_records fuel (cf_zone_id zobj) s with
    | (Ok records, s') =>
        let zone := cloudflare_zone_dict zobj records in
        (Ok (if 0 <? Z.of_nat (length (z_records zone)) then zones ++ [zone] else zones), s')
    | (Raise (CloudFlareError _), s') => (Ok zones, s')
    | (Raise e, s') => (Raise e, s')
    | (Diverge, s') => (Diverge, s')
    end.

Fixpoint cloudflare_zones_loop (fuel : nat) (zones : list zone_data) (zobjs : list cf_zone)
  : M net (list zone_data) :=
  match zobjs with
  | [] => mret zones
  | zobj :: zobjs' =>
      zones' ← cloudflare_zone fuel zones zobj;
      cloudflare_zones_loop fuel zones' zobjs'
  end.

(** [get_cloudflare_records]: the listing of the zones is outside the
    [try]. *)
Definition get_cloudflare_records (fuel : nat) : M net (list zone_data) :=
  zobjs ← cloudflare_list_zones fuel;
  cloudflare_zones_loop fuel [] zobjs.

End Wire.
End Wire.

(* ===================================================================== *)
(** ** The storage collaborator *)
(* ===================================================================== *)

(** [cloud_inquisitor.schema.Account], as far as the collector reads it. *)
Record Account : Type := {
  account_id : Z;
  account_name : string
}.

(** A stored zone: its account and the properties and tags [create] and
    [update] set. *)
Record zone_row : Type := {
  zr_account_id : Z;
  zr_name : string;
  zr_source : string;
  zr_comment : option string;
  zr_tags : list (string * string)
}.

(** A stored record: its account, the zone it was added to (none between
    [DNSRecord.create] and [add_record]) and its properties. The [id]
    property written by [create] is the key the row is stored under. *)
Record record_row : Type := {
  rec_account_id : Z;
  rec_zone : option string;
  rec_name : string;
  rec_value : list string;
  rec_type : string
}.

#[global] Instance zone_row_eq_dec : EqDecision zone_row.
Proof. solve_decision. Defined.
#[global] Instance record_row_eq_dec : EqDecision record_row.
Proof. solve_decision. Defined.

Record store : Type := {
  st_zones : gmap string zone_row;
  st_records : gmap string record_row
}.

(** The writes the collector asks of the store, in the order it asks. *)
Inductive write : Type :=
| CreateZone (resource_id : string)
| UpdateZone (resource_id : string)
| DeleteZone (resource_id : string)
| CreateRecord (resource_id : string)
| UpdateRecord (resource_id : string)
| DeleteRecord (resource_id : string).

(** The database as a run sees it: what is committed, what the session
    holds (committed rows with the pending changes applied), the writes
    asked for so far, the number of calls that reached the database, and
    the exceptions handed to [self.log.exception] with the zone they are
    about. *)
Record db : Type := {
  committed : store;
  session : store;
  writes : list write;
  calls : nat;
  logged : list (string * exn)
}.

(** Persistence failures: the n-th call that reaches the database raises
    when [storage_fault n] holds. *)
Class Faults : Type := { storage_fault : nat -> bool }.

Section Storage.
Context `{Faults}.

Definition with_session (st : store) (s : db) : db :=
  {| committed := committed s; session := st; writes := writes s;
     calls := calls s; logged := logged s |}.

Definition with_write (w : write) (s : db) : db :=
  {| committed := committed s; session := session s; writes := writes s ++ [w];
     calls := calls s; logged := logged s |}.

Definition with_zones (zs : gmap string zone_row) (s : db) : db :=
  with_session {| st_zones := zs; st_records := st_records (session s) |} s.

Definition with_records (rs : gmap string record_row) (s : db) : db :=
  with_session {| st_zones := st_zones (session s); st_records := rs |} s.

(** Modelled from the spec: a call of the storage collaborator that
    reaches the database (a query, a [create], a [commit]); it is where a
    persistence failure shows. *)
Definition storage_call : M db unit :=
  fun s =>
    let s' := {| committed := committed s; session := session s; writes := writes s;
                 calls := S (calls s); logged := logged s |} in
    if storage_fault (calls s) then (Raise StorageError, s') else (Ok tt, s').

(** Modelled from the spec: [db.session.commit()] makes the session's
    pending changes durable. *)
Definition db_commit : M db unit :=
  storage_call;;
  modify (fun s => {| committed := session s; session := session s; writes := writes s;
                      calls := calls s; logged := logged s |}).

(** Modelled from the spec: [db.session.rollback()] drops the changes
    made since the last commit. *)
Definition db_rollback : M db unit :=
  modify (fun s => with_session (committed s) s).

(** [self.log.exception(...)] *)
Definition log_exception (about : string) (e : exn) : M db unit :=
  modify (fun s => {| committed := committed s; session := session s; writes := writes s;
                      calls := calls s; logged := logged s ++ [(about, e)] |}).

(** Modelled from the spec: [DNSZone.get_all(account)], the stored zones
    of the account keyed by id; the model keeps the keys, a zone object
    being a reference to its row. *)
Definition zone_ids_of (account : Account) (st : store) : list string :=
  (map_to_list (filter (fun kv => zr_account_id kv.2 = account_id account) (st_zones st))).*1.

Definition DNSZone_get_all (account : Account) : M db (list string) :=
  storage_call;;
  gets (fun s => zone_ids_of account (session s)).

(** Modelled from the spec: [DNSZone.get(id)], the zone or [None]. *)
Definition DNSZone_get (resource_id : string) : M db (option string) :=
  storage_call;;
  gets (fun s => match st_zones (session s) !! resource_id with
                 | Some _ => Some resource_id
                 | None => None
                 end).

(** Modelled from the spec: [zone.update(data)], a field-level update of
    name, source, comment and tags in place, which returns whether
    anything changed. *)
Definition zone_updated (data : zone_data) (row : zone_row) : zone_row :=
  {| zr_account_id := zr_account_id row;
     zr_name := z_name data;
     zr_source := z_source data;
     zr_comment := z_comment data;
     zr_tags := z_tags data |}.

Definition DNSZone_update (resource_id : string) (data : zone_data) : M db bool :=
  row ← gets (fun s => st_zones (session s) !! resource_id);
  match row with
  | Some row =>
      modify (fun s => with_zones (<[resource_id := zone_updated data row]> (st_zones (session s))) s);;
      mret (bool_decide (zone_updated data row ≠ row))
  | None => mret false
  end.

(** [db.session.add(zone.resource)] after a change. *)
Definition session_add (w : write) : M db unit :=
  modify (with_write w).

(** Modelled from the spec: [DNSZone.create(id, account_id, properties,
    tags)] with the properties [name], [source] and [comment]. The id is
    the primary lookup key, so an id that is already stored is refused. *)
Definition new_zone (account : Account) (data : zone_data) : zone_row :=
  {| zr_account_id := account_id account;
     zr_name := z_name data;
     zr_source := z_source data;
     zr_comment := z_comment data;
     zr_tags := z_tags data |}.

Definition DNSZone_create (account : Account) (data : zone_data) : M db unit :=
  storage_call;;
  row ← gets (fun s => st_zones (session s) !! z_zone_id data);
  match row with
  | Some _ => raise (ResourceException (z_zone_id data))
  | None =>
      modify (fun s => with_zones (<[z_zone_id data := new_zone account data]> (st_zones (session s))) s);;
      modify (with_write (CreateZone (z_zone_id data)))
  end.

(** Modelled from the spec: [zone.records], the records added to the
    zone, as the session sees them. *)
Definition zone_records (zone_id : string) (st : store) : list string :=
  (map_to_list (filter (fun kv => rec_zone kv.2 = Some zone_id) (st_records st))).*1.

(** Modelled from the spec: [record.update(data)], a field-level update
    of name, value and type in place, which returns whether anything
    changed. *)
Definition record_updated (data : record_data) (row : record_row) : record_row :=
  {| rec_account_id := rec_account_id row;
     rec_zone := rec_zone row;
     rec_name := r_name data;
     rec_value := r_value data;
     rec_type := r_type data |}.

Definition DNSRecord_update (resource_id : string) (data : record_data) : M db bool :=
  row ← gets (fun s => st_records (session s) !! resource_id);
  match row with
  | Some row =>
      modify (fun s => with_records (<[resource_id := record_updated data row]> (st_records (session s))) s);;
      mret (bool_decide (record_updated data row ≠ row))
  | None => mret false
  end.

(** Modelled from the spec: [DNSRecord.create(id, account_id,
    properties, tags)] with the properties [id], [name], [value] and
    [type], refused for an id that is already stored. *)
Definition new_record (account : Account) (data : record_data) : record_row :=
  {| rec_account_id := account_id account;
     rec_zone := None;
     rec_name := r_name data;
     rec_value := r_value data;
     rec_type := r_type data |}.

Definition DNSRecord_create (account : Account) (data : record_data) : M db unit :=
  storage_call;;
  row ← gets (fun s => st_records (session s) !! r_id data);
  match row with
  | Some _ => raise (ResourceException (r_id data))
  | None =>
      modify (fun s => with_records (<[r_id data := new_record account data]> (st_records (session s))) s);;
      modify (with_write (CreateRecord (r_id data)))
  end.

(** Modelled from the spec: [existing_zone.add_record(record)]. *)
Definition attached (zone_id : string) (row : record_row) : record_row :=
  {| rec_account_id := rec_account_id row;
     rec_zone := Some zone_id;
     rec_name := rec_name row;
     rec_value := rec_value row;
     rec_type := rec_type row |}.

Definition add_record (zone_id resource_id : string) : M db unit :=
  modify (fun s => with_records (alter (attached zone_id) resource_id (st_records (session s))) s).

(** [db.session.delete(record.resource)] and [db.session.delete(zone.resource)]. *)
Definition delete_record (resource_id : string) : M db unit :=
  modify (fun s => with_records (delete resource_id (st_records (session s))) s);;
  modify (with_write (DeleteRecord resource_id)).

Definition delete_zone (resource_id : string) : M db unit :=
  modify (fun s => with_zones (delete resource_id (st_zones (session s))) s);;
  modify (with_write (DeleteZone resource_id)).

End Storage.

(* ===================================================================== *)
(** ** The reconciliation engine: [DNSCollector.process_zones] *)
(* ===================================================================== *)

Section Reconcile.
Context `{Faults}.

(** Region "Update zones", first loop: one snapshot zone. *)
Definition update_zone (account : Account) (existing_zones : list string) (data : zone_data)
  : M db unit :=
  if bool_decide (z_zone_id data ∈ existing_zones) then
    zone ← DNSZone_get (z_zone_id data);
    match zone with
    | Some zone =>
        changed ← DNSZone_update zone data;
        if changed : bool then session_add (UpdateZone zone) else mret tt
    | None => raise (AttributeError "update")
    end
  else DNSZone_create account data.

(** Second loop: one stored zone the snapshot does not list. Its records
    go first, then the zone. *)
Definition remove_zone (resource_id : string) : M db unit :=
  records ← gets (fun s => zone_records resource_id (session s));
  for_each records delete_record;;
  delete_zone resource_id.

(** [ezk - zk], and likewise [erk - rk]. *)
Definition difference (existing snapshot : list string) : list string :=
  filter (fun k => k ∉ snapshot) existing.

Definition zone_phase (zones : list zone_data) (account : Account) : M db unit :=
  existing_zones ← DNSZone_get_all account;
  for_each zones (update_zone account existing_zones);;
  db_commit;;
  for_each (difference existing_zones (map z_zone_id zones)) remove_zone;;
  db_commit.

(** Region "Update resource records", one entry of [zone['records']].
    When [record.update(data)] reports a change, the arguments of the
    debug message are evaluated next: [zone] is the snapshot's dict
    there, and [zone.name] raises [AttributeError]. *)
Definition upsert_record (account : Account) (existing_zone : string)
    (existing_records : list string) (data : record_data) : M db unit :=
  if bool_decide (r_id data ∈ existing_records) then
    changed ← DNSRecord_update (r_id data) data;
    if changed : bool then raise (AttributeError "name") else mret tt
  else
    DNSRecord_create account data;;
    add_record existing_zone (r_id data).

(** The [try] block up to its first commit. *)
Definition upsert_records (account : Account) (zone : zone_data) : M db (list string) :=
  existing_zone ← DNSZone_get (z_zone_id zone);
  match existing_zone with
  | None => raise (AttributeError "records")
  | Some existing_zone =>
      existing_records ← gets (fun s => zone_records existing_zone (session s));
      for_each (z_records zone) (upsert_record account existing_zone existing_records);;
      db_commit;;
      mret existing_records
  end.

(** The rest of the [try] block: the stored records the snapshot does
    not list are deleted, then the second commit. *)
Definition prune_records (zone : zone_data) (existing_records : list string) : M db unit :=
  for_each (difference existing_records (map r_id (z_records zone))) delete_record;;
  db_commit.

Definition record_pass (account : Account) (zone : zone_data) : M db unit :=
  existing_records ← upsert_records account zone;
  prune_records zone existing_records.

(** The [except] clause: log, then roll back. *)
Definition record_pass_failed (zone : zone_data) (e : exn) : M db unit :=
  log_exception (z_zone_id zone) e;;
  db_rollback.

Definition record_phase (zones : list zone_data) (account : Account) : M db unit :=
  for_each zones (fun zone => try_except (record_pass account zone) (record_pass_failed zone)).

Definition process_zones (zones : list zone_data) (account : Account) : M db unit :=
  zone_phase zones account;;
  record_phase zones account.

End Reconcile.

(* ===================================================================== *)
(** ** The collector's accounts: [DNSCollector.__init__] *)
(* ===================================================================== *)

Definition AXFR_ACCOUNT_NAME : string := "DNS: AXFR".
Definition CF_ACCOUNT_NAME : string := "DNS: CloudFlare".

(** [ord(c)], and [sum(...)], which adds from 0, left to right. *)
Definition ord (c : ascii) : Z := Z.of_N (N_of_ascii c).

Definition py_sum (l : list Z) : Z := foldl Z.add 0 l.

(** [sum(map(ord, name)) * -1] *)
Definition account_number (name : string) : Z :=
  py_sum (ord <$> String.list_ascii_of_string name) * -1.

(** [AccountTypes.DNS_AXFR] and [AccountTypes.DNS_CLOUDFLARE]. *)
Inductive account_type : Type := DNS_AXFR | DNS_CLOUDFLARE.

(** The fields [__init__] sets on an account it creates. *)
Record account_row : Type := {
  acct_name : string;
  acct_number : Z;
  acct_type : account_type;
  acct_contacts : list string;
  acct_enabled : bool
}.

(** Modelled from the spec: the stored accounts, which [Account.get(name)]
    looks up by name ([None] when there is none); [db.session.add] and
    [db.session.commit] store a new one. *)
Abbreviation accounts := (gmap string account_row).

Definition Account_get (name : string) (table : accounts) : option account_row :=
  table !! name.

(** [acct = Account.get(NAME)], and the [if not acct:] block. *)
Definition ensure_account (name : string) (type : account_type) (table : accounts)
  : account_row * accounts :=
  match Account_get name table with
  | Some acct => (acct, table)
  | None =>
      let acct := {| acct_name := name;
                     acct_number := account_number name;
                     acct_type := type;
                     acct_contacts := [];
                     acct_enabled := true |} in
      (acct, <[name := acct]> table)
  end.

(** The two switches [__init__] reads from the configuration. *)
Record sources : Type := {
  axfr_enabled : bool;
  cloudflare_enabled : bool
}.

(** What [__init__] leaves on [self]: an account for each enabled source
    (the attribute is not set for a disabled one). *)
Record collector_accounts : Type := {
  self_axfr_account : option account_row;
  self_cloudflare_account : option account_row
}.

Definition DNSCollector_init (enabled : sources) (table : accounts)
  : collector_accounts * accounts :=
  let '(axfr, table1) :=
    if axfr_enabled enabled then
      let '(acct, table1) := ensure_account AXFR_ACCOUNT_NAME DNS_AXFR table in
      (Some acct, table1)
    else (None, table) in
  let '(cloudflare, table2) :=
    if cloudflare_enabled enabled then
      let '(acct, table2) := ensure_account CF_ACCOUNT_NAME DNS_CLOUDFLARE table1 in
      (Some acct, table2)
    else (None, table1) in
  ({| self_axfr_account := axfr; self_cloudflare_account := cloudflare |}, table2).

(* ===================================================================== *)
(** ** [DNSCollector.run] *)
(* ===================================================================== *)

(** The collector as [run] reads it: the switches, the transfer settings
    and the two accounts. *)
Record collector : Type := {
  enabled : sources;
  settings : DNSCollector;
  axfr_account : Account;
  cloudflare_account : Account
}.

(** What a run works on: the upstream sources, the database, and the
    failures handed to [self.log.exception] by [run] itself. *)
Record world : Type := {
  w_net : net;
  w_db : db;
  w_failures : list (string * exn)
}.

Definition on_net {A} (m : M net A) : M world A :=
  fun w =>
    let r := m (w_net w) in
    (r.1, {| w_net := r.2; w_db := w_db w; w_failures := w_failures w |}).

Definition on_db {A} (m : M db A) : M world A :=
  fun w =>
    let r := m (w_db w) in
    (r.1, {| w_net := w_net w; w_db := r.2; w_failures := w_failures w |}).

(** [self.log.exception(message)] in an [except] clause of [run]. *)
Definition log_failure (message : string) (e : exn) : M world unit :=
  modify (fun w => {| w_net := w_net w; w_db := w_db w;
                      w_failures := w_failures w ++ [(message, e)] |}).

Section Run.
Context `{Upstream} `{Faults}.

(** [if self.axfr_enabled: try: ... except: ...] *)
Definition run_axfr (self : collector) : M world unit :=
  if axfr_enabled (enabled self) then
    try_except
      (zones ← on_net (get_axfr_records (settings self));
       on_db (process_zones zones (axfr_account self)))
      (log_failure "Failed processing domains via AXFR")
  else mret tt.

(** [if self.cloudflare_enabled: try: ... except: ...] *)
Definition run_cloudflare (self : collector) (fuel : nat) : M world unit :=
  if cloudflare_enabled (enabled self) then
    try_except
      (zones ← on_net (get_cloudflare_records fuel);
       on_db (process_zones zones (cloudflare_account self)))
      (log_failure "Failed processing domains via CloudFlare")
  else mret tt.

Definition run (self : collector) (fuel : nat) : M world unit :=
  run_axfr self;;
  run_cloudflare self fuel.

End Run.

(* ===================================================================== *)
(** ** The browsing view [DNSZoneRecords.get] *)
(* ===================================================================== *)

(** The parsed request arguments: [page], [type], [count]. *)
Record records_args : Type := {
  page : Z;
  type_ : option string;
  count : Z
}.

(** A record as the view returns it. *)
Record record_view : Type := {
  v_id : string;
  v_name : string;
  v_value : list string;
  v_type : string
}.

(** The response body: [recordCount] and [records]. *)
Record records_response : Type := {
  recordCount : Z;
  records : list record_view
}.

Definition view_of (kv : string * record_row) : record_view :=
  {| v_id := kv.1; v_name := rec_name kv.2; v_value := rec_value kv.2; v_type := rec_type kv.2 |}.

(** [zone.records] as the view reads it from the committed store. *)
Definition zone_record_views (zone_id : string) (st : store) : list record_view :=
  view_of <$> map_to_list (filter (fun kv => rec_zone kv.2 = Some zone_id) (st_records st)).

(** [DNSZoneRecords.get(zone_id)]: [DNSZone.get] gives [None] for an
    unknown zone, and [zone.records] then raises. *)
Definition DNSZoneRecords_get (st : store) (zone_id : string) (args : records_args)
  : outcome records_response :=
  match st_zones st !! zone_id with
  | None => Raise (AttributeError "records")
  | Some _ =>
      let zone_records := zone_record_views zone_id st in
      let start_offset := (page args - 1) * count args in
      let end_offset := start_offset + count args in
      Ok {| recordCount := Z.of_nat (length zone_records);
            records := Py.slice zone_records start_offset end_offset |}
  end.


(* ===================================================================== *)
(** ** Vocabulary of the statements *)
(* ===================================================================== *)

(** The arguments [__cloudflare_request] sends for a page. *)
Definition page_args (p : Z) : cf_args := {| arg_page := p; arg_per_page := 100 |}.

(** Page [p] is answered with status 200 and passes the loops' test
    ([result_info] has no [total_pages], or it equals [p]). *)
Definition page_ends {row} (endpoint : cf_args -> http_response row) (p : Z) : Prop :=
  status_code (endpoint (page_args p)) = 200 /\
  last_page p (json (endpoint (page_args p))) = true.

(** Page [p] is answered with status 200 and fails the loops' test. *)
Definition page_continues {row} (endpoint : cf_args -> http_response row) (p : Z) : Prop :=
  status_code (endpoint (page_args p)) = 200 /\
  last_page p (json (endpoint (page_args p))) = false.

(** A loop that starts at page 1 gets as far as requesting page [n]. *)
Definition page_requested {row} (endpoint : cf_args -> http_response row) (n : Z) : Prop :=
  forall p, 1 <= p < n -> page_continues endpoint p.

(** The [result] lists of [n] successive pages, and the requests for them. *)
Definition pages_results {row} (endpoint : cf_args -> http_response row) (first : Z) (n : nat)
  : list (list row) :=
  (fun p => result (json (endpoint (page_args p)))) <$> seqZ first (Z.of_nat n).

Definition pages_requests (path : cf_args -> cf_request) (first : Z) (n : nat)
  : list cf_request :=
  (fun p => path (page_args p)) <$> seqZ first (Z.of_nat n).

(** The state after the requests [reqs] have been sent. *)
Definition sent (reqs : list cf_request) (s : net) : net :=
  foldl (fun s req => session_get req s) s reqs.

(** The scheme the two listing loops share: request a page, fold its
    [result] into the accumulator, stop on the loops' test. *)
Fixpoint paginate {row acc} (endpoint : cf_args -> http_response row)
    (path : cf_args -> cf_request) (step : acc -> list row -> acc)
    (fuel : nat) (page : Z) (a : acc) : M net acc :=
  match fuel with
  | O => diverge
  | S fuel' =>
      response ← cloudflare_request endpoint path page;
      let a' := step a (result response) in
      if last_page page response then mret a'
      else paginate endpoint path step fuel' (page + 1) a'
  end.

(** The contents of the raw rows named [name], in the order of the rows. *)
Definition contents_of (name : string) (rows : list cf_row) : list string :=
  cf_content <$> filter (fun row => cf_name row = name) rows.

(** [records] is the merge by name of the raw rows [rows]: one entry per
    name, holding the sorted contents of all the rows of that name and the
    type of the first of them. *)
Definition merged_from (rows : list cf_row) (records : list (string * merged_record)) : Prop :=
  NoDup records.*1 /\
  (forall row, row ∈ rows -> cf_name row ∈ records.*1) /\
  forall k m, (k, m) ∈ records ->
    m_name m = k /\
    m_value m = Py.sorted (contents_of k rows) /\
    cf_type <$> head (filter (fun row => cf_name row = k) rows) = Some (m_type m).

(** The raw rows of the first [n] pages of a zone's [dns_records]. *)
Definition fetched_rows `{Upstream} (zoneID : string) (n : nat) : list cf_row :=
  concat (pages_results (cloudflare_dns_records zoneID) 1 n).

(** The zone has at least one record. *)
Definition has_records (zone : zone_data) : Prop := z_records zone ≠ [].

(** The [key=value] rendering of a raw row, as the claim about record ids
    reads it: the row's own keys, [name], [content], [type] and the rest. *)
Definition raw_row_items (row : cf_row) : list string :=
  [ Py.format_kv "name" (cf_name row);
    Py.format_kv "content" (cf_content row);
    Py.format_kv "type" (cf_type row) ]
  ++ map (fun kv => Py.format_kv kv.1 kv.2) (cf_other row).

(* ===================================================================== *)
(** ** Sample collaborators, for the concrete instances *)
(* ===================================================================== *)

(** An identity function that keeps its arguments readable: the tag and
    the sorted parts, joined, with no digest taken. *)
Definition plain_resource_id (prefix : string) (parts : list string) : string :=
  prefix +:+ "-" +:+ String.concat "-" (Py.sorted parts).

Definition a_row (name content : string) : cf_row :=
  {| cf_name := name; cf_content := content; cf_type := "A"; cf_other := [] |}.

Definition ok_response {row} (rows : list row) (pages : option Z) : http_response row :=
  {| status_code := 200; text := ""; json := {| result := rows; total_pages := pages |} |}.

(** A CloudFlare account with two zones, listed on three pages; the first
    zone has two rows named [www.example.com] on different pages (the
    second one's content is [later]) and the second zone has no rows. A
    name server that transfers one zone with two records and one empty
    zone. *)
Definition sample_upstream (later : string) : Upstream :=
  {| get_resource_id := plain_resource_id;
     cloudflare_zones := fun args =>
       ok_response
         (if arg_page args =? 1 then [{| cf_zone_id := "023e105f"; cf_zone_name := "example.com" |}]
          else if arg_page args =? 2 then [{| cf_zone_id := "9a7806061c88"; cf_zone_name := "example.org" |}]
          else [])
         (Some 3);
     cloudflare_dns_records := fun zoneID args =>
       ok_response
         (if String.eqb zoneID "023e105f" then
            if arg_page args =? 1 then [a_row "www.example.com" "2.2.2.2"]
            else if arg_page args =? 2 then
              [a_row "www.example.com" later; a_row "mail.example.com" "3.3.3.3"]
            else []
          else [])
         (Some 3);
     xfr := fun _ _ zoneName =>
       if String.eqb zoneName "example.net" then
         Some [ {| rr_name := "@"; rr_fqdn := "example.net."; rr_ttl := 300;
                   rr_rdata := "192.0.2.1"; rr_rdtype := "A" |};
                {| rr_name := "www"; rr_fqdn := "www.example.net."; rr_ttl := 300;
                   rr_rdata := "example.net."; rr_rdtype := "CNAME" |} ]
       else if String.eqb zoneName "empty.example" then Some []
       else None;
     retry_attempts := 2 |}.

Definition sample_collector : DNSCollector :=
  {| axfr_server := "ns1.example.net"; axfr_domains := ["example.net"; "empty.example"] |}.

(** What the adapters return for the sample collaborators. *)
Definition sample_www_record : record_data :=
  {| r_id := "cfr-023e105f-name=www.example.com-type=A-value=['1.1.1.1', '2.2.2.2']";
     r_zone_id := "cfz-example.com";
     r_name := "www.example.com";
     r_value := ["1.1.1.1"; "2.2.2.2"];
     r_type := "A" |}.

Definition sample_mail_record : record_data :=
  {| r_id := "cfr-023e105f-name=mail.example.com-type=A-value=['3.3.3.3']";
     r_zone_id := "cfz-example.com";
     r_name := "mail.example.com";
     r_value := ["3.3.3.3"];
     r_type := "A" |}.

Definition sample_cloudflare_zone : zone_data :=
  {| z_zone_id := "cfz-example.com";
     z_name := "example.com";
     z_source := "CloudFlare";
     z_comment := None;
     z_tags := [];
     z_records := [sample_www_record; sample_mail_record] |}.

Definition sample_cloudflare_snapshot : list zone_data := [sample_cloudflare_zone].

Definition sample_axfr_snapshot : list zone_data :=
  [ {| z_zone_id := "axfrz-example.net";
       z_name := "example.net";
       z_source := "AXFR";
       z_comment := None;
       z_tags := [];
       z_records :=
         [ {| r_id := "axfrr-example.net.-name=@-rdata=192.0.2.1-ttl=300";
              r_zone_id := "axfrz-example.net";
              r_name := "example.net.";
              r_value := ["192.0.2.1"];
              r_type := "A" |};
           {| r_id := "axfrr-name=www-rdata=example.net.-ttl=300-www.example.net.";
              r_zone_id := "axfrz-example.net";
              r_name := "www.example.net.";
              r_value := ["example.net."];
              r_type := "CNAME" |} ] |} ].

(** The ids of the records of a snapshot an adapter returned. *)
Definition snapshot_record_ids (r : outcome (list zone_data) * net) : list string :=
  match r.1 with
  | Ok zones => r_id <$> (zones ≫= z_records)
  | _ => []
  end.

(** [m] leaves the observation [f] of the state as it was, whatever its
    outcome. *)
Definition keeps {S A X} (f : S -> X) (m : M S A) : Prop :=
  forall s, f (m s).2 = f s.

(** [m] is made of finitely many steps: it returns or raises. *)
Definition total {S A} (m : M S A) : Prop :=
  forall s, (m s).1 ≠ Diverge.

(** No call to the database fails. *)
Definition no_faults : Faults := {| storage_fault := fun _ => false |}.

(** Only the [n]-th call to the database fails. *)
Definition fault_at (n : nat) : Faults := {| storage_fault := fun k => Nat.eqb k n |}.

(** A database with nothing pending. *)
Definition db_of (st : store) : db :=
  {| committed := st; session := st; writes := []; calls := 0; logged := [] |}.

(** The state the [except] clause of the record phase leaves: the
    exception logged, the session back at what is committed. *)
Definition rolled_back (zone : zone_data) (e : exn) (s : db) : db :=
  {| committed := committed s; session := committed s; writes := writes s;
     calls := calls s; logged := logged s ++ [(z_zone_id zone, e)] |}.

(** A store with one zone of the sample account and its records. *)
Definition sample_account : Account := {| account_id := 7; account_name := "DNS: CloudFlare" |}.

Definition stored_zone (name : string) : zone_row :=
  {| zr_account_id := 7; zr_name := name; zr_source := "CloudFlare";
     zr_comment := None; zr_tags := [] |}.

Definition stored_record (zone_id name value type : string) : record_row :=
  {| rec_account_id := 7; rec_zone := Some zone_id; rec_name := name;
     rec_value := [value]; rec_type := type |}.

Definition snapshot_record (id zone_id name value type : string) : record_data :=
  {| r_id := id; r_zone_id := zone_id; r_name := name; r_value := [value]; r_type := type |}.

Definition snapshot_zone (zone_id name : string) (records : list record_data) : zone_data :=
  {| z_zone_id := zone_id; z_name := name; z_source := "CloudFlare"; z_comment := None;
     z_tags := []; z_records := records |}.

(** The zone [zone-1] stored with the records [A], [B] and [C]. *)
Definition abc_store : store :=
  {| st_zones := {[ "zone-1" := stored_zone "example.com" ]};
     st_records :=
       {[ "A" := stored_record "zone-1" "a.example.com" "192.0.2.1" "A";
          "B" := stored_record "zone-1" "b.example.com" "192.0.2.2" "A";
          "C" := stored_record "zone-1" "c.example.com" "192.0.2.3" "A" ]} |}.

(** The same zone in a snapshot, with the records [B] (whose value is
    [b_value]), [C] and [D]. *)
Definition bcd_zone (b_value : string) : zone_data :=
  snapshot_zone "zone-1" "example.com"
    [ snapshot_record "B" "zone-1" "b.example.com" b_value "A";
      snapshot_record "C" "zone-1" "c.example.com" "192.0.2.3" "A";
      snapshot_record "D" "zone-1" "d.example.com" "192.0.2.4" "A" ].

(** A zone stored with an [A] record and a [TXT] record. *)
Definition mixed_store : store :=
  {| st_zones := {[ "zone-1" := stored_zone "example.com" ]};
     st_records :=
       {[ "rec-a" := stored_record "zone-1" "www.example.com" "192.0.2.1" "A";
          "rec-txt" := stored_record "zone-1" "example.com" "v=spf1 -all" "TXT" ]} |}.

(** The record pass of the zone whose record [B] has a new value. *)
Definition changed_b_pass : outcome unit * db :=
  @record_pass no_faults sample_account (bcd_zone "198.51.100.2") (db_of abc_store).

(** Hoare triples of the monad: from a state in [P], the outcome and the
    final state of [m] are in [Q]. *)
Definition triple {S A} (P : S -> Prop) (m : M S A) (Q : outcome A -> S -> Prop) : Prop :=
  forall s, P s -> Q (m s).1 (m s).2.

(** [m] only adds to the list of writes. *)
Definition appends {A} (m : M db A) : Prop :=
  forall s, exists w, writes (m s).2 = writes s ++ w.

(** No stored record is attached to the zone. *)
Definition no_children (zone_id : string) (st : store) : Prop :=
  forall k row, st_records st !! k = Some row -> rec_zone row ≠ Some zone_id.

(** Neither the zone nor a record attached to it is stored. *)
Definition gone (zone_id : string) (st : store) : Prop :=
  st_zones st !! zone_id = None /\ no_children zone_id st.

(** The records map once the rows of the keys [ids] are deleted. *)
Definition delete_all (ids : list string) (m : gmap string record_row) : gmap string record_row :=
  foldl (fun m k => delete k m) m ids.

(** The state after [for rid in ids: db.session.delete(record)]. *)
Definition deleted_records (ids : list string) (s : db) : db :=
  {| committed := committed s;
     session := {| st_zones := st_zones (session s);
                   st_records := delete_all ids (st_records (session s)) |};
     writes := writes s ++ (DeleteRecord <$> ids);
     calls := calls s;
     logged := logged s |}.

(** The state after a stored zone and its records are deleted. *)
Definition removed_zone (resource_id : string) (s : db) : db :=
  {| committed := committed s;
     session := {| st_zones := delete resource_id (st_zones (session s));
                   st_records := delete_all (zone_records resource_id (session s))
                                   (st_records (session s)) |};
     writes := writes s ++ (DeleteRecord <$> zone_records resource_id (session s))
                        ++ [DeleteZone resource_id];
     calls := calls s;
     logged := logged s |}.

(** The two stores hold the same records attached to the zone. *)
Definition same_children (zone_id : string) (st st' : store) : Prop :=
  forall k row, rec_zone row = Some zone_id ->
    (st_records st !! k = Some row <-> st_records st' !! k = Some row).

(** The state after the stored zones [ids] are deleted one after the
    other, each with its records. *)
Definition removed_zones (ids : list string) (s : db) : db :=
  foldl (fun s resource_id => removed_zone resource_id s) s ids.

(** [st'] holds no zone and no record that [st] does not hold. *)
Definition shrinks (st st' : store) : Prop :=
  st_zones st' ⊆ st_zones st /\ st_records st' ⊆ st_records st.

(** The zone and its records are gone from the session and from what is
    committed. *)
Definition gone_for_good (zone_id : string) (s : db) : Prop :=
  gone zone_id (session s) /\ gone zone_id (committed s).

(** A snapshot that lists another zone only, and the run that reconciles
    the store of [zone-1] with it. *)
Definition other_zone : zone_data :=
  snapshot_zone "zone-2" "example.org"
    [ snapshot_record "E" "zone-2" "e.example.org" "192.0.2.5" "A" ].

Definition orphan_run : outcome unit * db :=
  @process_zones no_faults [other_zone] sample_account (db_of abc_store).

(** The store agrees with a zone of the snapshot: the zone is stored for
    the account with the snapshot's fields (an update changes nothing),
    every record of the snapshot zone is stored, attached to the zone, with
    the snapshot's fields, and no other record is attached to the zone. *)
Definition records_synced (zone : zone_data) (st : store) : Prop :=
  (forall data, data ∈ z_records zone ->
     exists row, st_records st !! r_id data = Some row /\
                 rec_zone row = Some (z_zone_id zone) /\
                 record_updated data row = row) /\
  (forall k row, st_records st !! k = Some row -> rec_zone row = Some (z_zone_id zone) ->
     k ∈ map r_id (z_records zone)).

Definition zone_synced (account : Account) (zone : zone_data) (st : store) : Prop :=
  exists row, st_zones st !! z_zone_id zone = Some row /\
              zr_account_id row = account_id account /\
              zone_updated zone row = row.

(** The store agrees with the snapshot: with each of its zones, and the
    account has no other zone stored. *)
Definition synced (zones : list zone_data) (account : Account) (st : store) : Prop :=
  (forall zone, zone ∈ zones -> zone_synced account zone st /\ records_synced zone st) /\
  (forall k row, st_zones st !! k = Some row -> zr_account_id row = account_id account ->
     k ∈ map z_zone_id zones).

(** Nothing is pending, the store is [st] and the writes asked for so far
    are [w]. *)
Definition settled (st : store) (w : list write) (s : db) : Prop :=
  session s = st /\ committed s = st /\ writes s = w.

(** A snapshot that lists the zone [zone-1] twice, with different records. *)
Definition twice_listed : list zone_data :=
  [ snapshot_zone "zone-1" "example.com"
      [ snapshot_record "B" "zone-1" "b.example.com" "192.0.2.2" "A" ];
    snapshot_zone "zone-1" "example.com"
      [ snapshot_record "C" "zone-1" "c.example.com" "192.0.2.3" "A" ] ].

Definition twice_listed_first_run : outcome unit * db :=
  @process_zones no_faults twice_listed sample_account (db_of abc_store).

Definition twice_listed_second_run : outcome unit * db :=
  @process_zones no_faults twice_listed sample_account twice_listed_first_run.2.

(** A first run with the snapshot of [zone-1] holding B, C and D, on the
    store holding A, B and C, without storage failure. *)
Definition bcd_first_run : outcome unit * db :=
  @process_zones no_faults [bcd_zone "192.0.2.2"] sample_account (db_of abc_store).

(** The invariant of the first loop, after the zones [done]: each of them
    agrees with the store; the zones that [get_all] returned are still
    stored for the account; and the account has no zone stored but those
    and the ones done. *)
Definition zones_done (account : Account) (existing : list string) (done : list zone_data)
    (st : store) : Prop :=
  (forall zone, zone ∈ done -> zone_synced account zone st) /\
  (forall k, k ∈ existing ->
     exists row, st_zones st !! k = Some row /\ zr_account_id row = account_id account) /\
  (forall k row, st_zones st !! k = Some row -> zr_account_id row = account_id account ->
     k ∈ existing \/ k ∈ map z_zone_id done).

(** The invariant of the create/update loop of a record pass over the
    zone [zone_id], after the entries [done], from the store [st0]: the
    zones are untouched; each entry done is stored, attached to the zone,
    with the snapshot's fields; the records the pass found attached to the
    zone still are; no record is attached to the zone but those and the
    ones done; and the records attached to other zones are untouched. *)
Definition records_done (zone_id : string) (existing : list string) (done : list record_data)
    (st0 st : store) : Prop :=
  st_zones st = st_zones st0 /\
  (forall data, data ∈ done ->
     exists row, st_records st !! r_id data = Some row /\
                 rec_zone row = Some zone_id /\
                 record_updated data row = row) /\
  (forall k row, st_records st !! k = Some row -> rec_zone row = Some zone_id ->
     k ∈ existing \/ k ∈ map r_id done) /\
  (forall k, k ∈ existing ->
     exists row, st_records st !! k = Some row /\ rec_zone row = Some zone_id) /\
  (forall p, p ≠ zone_id -> same_children p st0 st).

(** The invariant of the record phase, after the zones [done], from the
    state [s0]: if no exception has been logged since, the zones are
    untouched, nothing is pending and the records of each zone done agree
    with the store. *)
Definition passes_done (s0 : db) (done : list zone_data) (s : db) : Prop :=
  (length (logged s0) <= length (logged s))%nat /\
  (length (logged s) = length (logged s0) ->
     st_zones (session s) = st_zones (session s0) /\
     committed s = session s /\
     forall zone, zone ∈ done -> records_synced zone (session s)).

(* ===================================================================== *)
(** ** Vocabulary of the further properties *)
(* ===================================================================== *)

(** Page [p] is answered with a status other than 200. *)
Definition page_fails {row} (endpoint : cf_args -> http_response row) (p : Z) : Prop :=
  status_code (endpoint (page_args p)) ≠ 200.

(** The exception [__cloudflare_request] raises for the answer to page [p]. *)
Definition request_failed {row} (endpoint : cf_args -> http_response row) (p : Z) : exn :=
  CloudFlareError ("Request failed: " +:+ text (endpoint (page_args p))).

(** The records the view returns for a page, none when it raises. *)
Definition page_of (st : store) (zone_id : string) (count page : Z) : list record_view :=
  match DNSZoneRecords_get st zone_id {| page := page; type_ := None; count := count |} with
  | Ok response => records response
  | _ => []
  end.

(** What every zone of a snapshot looks like, whichever adapter built it:
    the id is the identity function at the adapter's tag and the zone's
    name, the source is the adapter's, there is no comment and no tag, and
    each record refers to the zone. *)
Definition zone_of_adapter `{Upstream} (tag source : string) (zone : zone_data) : Prop :=
  z_zone_id zone = get_resource_id tag [z_name zone] /\
  z_source zone = source /\
  z_comment zone = None /\
  z_tags zone = [] /\
  Forall (fun record => r_zone_id record = z_zone_id zone) (z_records zone).

(** The record has one value. *)
Definition single_valued (record : record_data) : Prop :=
  exists value, r_value record = [value].

(** The snapshot [get_axfr_records] builds when the transfer of [name]
    gives [rows name]: the zones that have rows, in the order of the
    configured names. *)
Definition axfr_snapshot `{Upstream} (rows : string -> list rdata_row) (names : list string)
  : list zone_data :=
  (fun name => axfr_zone_dict name (rows name)) <$> filter (fun name => rows name ≠ []) names.

(** The state after the zones [names] have been asked of [server]. *)
Definition transferred (server : string) (names : list string) (s : net) : net :=
  {| cloudflare_initialized := cloudflare_initialized s;
     requests := requests s;
     transfers := transfers s ++ ((fun name => (server, name)) <$> names) |}.

(** The store holds the zone [k] as [row], and the same records attached
    to it as [st0] does. *)
Definition zone_kept (k : string) (row : zone_row) (st0 st : store) : Prop :=
  st_zones st !! k = Some row /\ same_children k st0 st.

(** The zone [k] and its records are as in [st0], in the session and in
    what is committed. *)
Definition zone_intact (k : string) (row : zone_row) (st0 : store) (s : db) : Prop :=
  zone_kept k row st0 (session s) /\ zone_kept k row st0 (committed s).

(** None of the records [ids] is attached to the zone [k] in the session. *)
Definition apart_from (k : string) (ids : list string) (s : db) : Prop :=
  forall rid r, rid ∈ ids -> st_records (session s) !! rid = Some r -> rec_zone r ≠ Some k.

(** A CloudFlare account whose listings come on one page, without
    [total_pages] in [result_info]. *)
Definition unpaged_upstream : Upstream :=
  {| get_resource_id := plain_resource_id;
     cloudflare_zones := fun _ =>
       ok_response [{| cf_zone_id := "023e105f"; cf_zone_name := "example.com" |}] None;
     cloudflare_dns_records := fun _ _ =>
       ok_response [a_row "www.example.com" "192.0.2.1"] None;
     xfr := fun _ _ _ => None;
     retry_attempts := 2 |}.

(** Sources that are down: every listing is answered 503 and no transfer
    is answered. *)
Definition down_upstream : Upstream :=
  {| get_resource_id := plain_resource_id;
     cloudflare_zones := fun _ =>
       {| status_code := 503; text := "Service Unavailable";
          json := {| result := []; total_pages := None |} |};
     cloudflare_dns_records := fun _ _ =>
       {| status_code := 503; text := "Service Unavailable";
          json := {| result := []; total_pages := None |} |};
     xfr := fun _ _ _ => None;
     retry_attempts := 2 |}.

(** The rows the sample name server transfers for a zone. *)
Definition sample_rows (name : string) : list rdata_row :=
  default [] (@xfr (sample_upstream "1.1.1.1") 0 "ns1.example.net" name).

(** A collector with both sources enabled, and what it runs on when the
    store holds [zone-1] for the CloudFlare account. *)
Definition sample_axfr_account : Account := {| account_id := 8; account_name := "DNS: AXFR" |}.

Definition sample_self : collector :=
  {| enabled := {| axfr_enabled := true; cloudflare_enabled := true |};
     settings := sample_collector;
     axfr_account := sample_axfr_account;
     cloudflare_account := sample_account |}.

Definition sample_world : world :=
  {| w_net := net0; w_db := db_of abc_store; w_failures := [] |}.

(* ===================================================================== *)
(** ** Vocabulary: pages, in the words of the listings *)
(* ===================================================================== *)

(** The stop test of the two loops, as [result_info] shows it: the key
    [total_pages] is missing, or its value is the page's number. *)
Definition stop_test {row} (p : Z) (body : cf_body row) : Prop :=
  total_pages body = None \/ total_pages body = Some p.

(** Page [p] is answered 200 with a [result_info] that passes the stop
    test, and with one that does not. *)
Definition answered_last {row} (endpoint : cf_args -> http_response row) (p : Z) : Prop :=
  status_code (endpoint (page_args p)) = 200 /\ stop_test p (json (endpoint (page_args p))).

Definition answered_more {row} (endpoint : cf_args -> http_response row) (p : Z) : Prop :=
  status_code (endpoint (page_args p)) = 200 /\ ~ stop_test p (json (endpoint (page_args p))).

(** Over a connection that can fail: the request for page [p] arrives, is
    answered 200 and its body is read. *)
Definition page_read `{Transport} {row} (endpoint : cf_args -> http_response row)
    (path : cf_args -> cf_request) (p : Z) : Prop :=
  transport_fault (path (page_args p)) = None /\
  status_code (endpoint (page_args p)) = 200 /\
  body_fault (path (page_args p)) = None.

(** The page is read and passes the stop test: the loop returns. *)
Definition page_stops `{Transport} {row} (endpoint : cf_args -> http_response row)
    (path : cf_args -> cf_request) (p : Z) : Prop :=
  page_read endpoint path p /\ stop_test p (json (endpoint (page_args p))).

(** The page is read and does not pass the stop test: the loop asks for
    the next page. *)
Definition page_goes_on `{Transport} {row} (endpoint : cf_args -> http_response row)
    (path : cf_args -> cf_request) (p : Z) : Prop :=
  page_read endpoint path p /\ ~ stop_test p (json (endpoint (page_args p))).

(** The request for page [p] leaves the loop with the exception [e]: the
    request does not arrive, or it is answered with another status than
    200, or the body of the answer cannot be read. *)
Definition page_raises `{Transport} {row} (endpoint : cf_args -> http_response row)
    (path : cf_args -> cf_request) (p : Z) (e : exn) : Prop :=
  (exists reason,
     transport_fault (path (page_args p)) = Some reason /\ e = TransportError reason) \/
  (transport_fault (path (page_args p)) = None /\
   status_code (endpoint (page_args p)) ≠ 200 /\
   e = CloudFlareError ("Request failed: " +:+ text (endpoint (page_args p)))) \/
  (transport_fault (path (page_args p)) = None /\
   status_code (endpoint (page_args p)) = 200 /\
   exists reason, body_fault (path (page_args p)) = Some reason /\ e = BodyError reason).

(** The loop starting at page 1 gets as far as requesting page [n]. *)
Definition pages_go_on `{Transport} {row} (endpoint : cf_args -> http_response row)
    (path : cf_args -> cf_request) (n : Z) : Prop :=
  forall p, 1 <= p < n -> page_goes_on endpoint path p.

(** The scheme of the two listing loops over a connection that can fail. *)
Fixpoint wire_paginate `{Transport} {row acc} (endpoint : cf_args -> http_response row)
    (path : cf_args -> cf_request) (step : acc -> list row -> acc)
    (fuel : nat) (page : Z) (a : acc) : M net acc :=
  match fuel with
  | O => diverge
  | S fuel' =>
      response ← Wire.cloudflare_request endpoint path page;
      let a' := step a (result response) in
      if last_page page response then mret a'
      else wire_paginate endpoint path step fuel' (page + 1) a'
  end.

(** A CloudFlare account whose zone listing answers page 1 with
    [total_pages = 3] and refuses page 2 (the body of the refusal reports
    [total_pages = 3] as well), and whose record listings do the same. *)
Definition refusing_upstream : Upstream :=
  {| get_resource_id := plain_resource_id;
     cloudflare_zones := fun args =>
       {| status_code := if arg_page args =? 1 then 200 else 503;
          text := "Service Unavailable";
          json := {| result := [{| cf_zone_id := "023e105f"; cf_zone_name := "example.com" |}];
                     total_pages := Some 3 |} |};
     cloudflare_dns_records := fun _ args =>
       {| status_code := if arg_page args =? 1 then 200 else 503;
          text := "Service Unavailable";
          json := {| result := [a_row "www.example.com" "192.0.2.1"];
                     total_pages := Some 3 |} |};
     xfr := fun _ _ _ => None;
     retry_attempts := 2 |}.


(** The zone of the snapshot built for the zone object [zobj] of the
    listing from the raw rows [rows] fetched for it: it bears the zone
    object's name and the id derived from it, no two of its records share a
    name, every record bears the name of a raw row, and for every raw row
    it has exactly one record with the row's name, whose value is the
    sorted list of the contents of all the raw rows of that name. *)
Definition merged_zone `{Upstream} (zobj : cf_zone) (rows : list cf_row) (zone : zone_data)
  : Prop :=
  z_name zone = cf_zone_name zobj /\
  z_zone_id zone = get_resource_id "cfz" [cf_zone_name zobj] /\
  NoDup (r_name <$> z_records zone) /\
  (forall record, record ∈ z_records zone ->
     exists row, row ∈ rows /\ cf_name row = r_name record) /\
  forall row, row ∈ rows ->
    exists record,
      filter (fun record => r_name record = cf_name row) (z_records zone) = [record] /\
      r_value record = Py.sorted (contents_of (cf_name row) rows) /\
      r_value record ≡ₚ contents_of (cf_name row) rows /\
      StronglySorted String.le (r_value record).

(** The record listing of the zone object [zobj] is over after [n + 1]
    pages, within [fuel] iterations: the pages 1 to [n] are answered 200
    without passing the stop test, and page [n + 1] is answered 200 and
    passes it. *)
Definition listed_in `{Upstream} (fuel : nat) (zobj : cf_zone) (n : nat) : Prop :=
  (n < fuel)%nat /\
  (forall p, 1 <= p < 1 + Z.of_nat n ->
     answered_more (cloudflare_dns_records (cf_zone_id zobj)) p) /\
  answered_last (cloudflare_dns_records (cf_zone_id zobj)) (1 + Z.of_nat n).

(** A CloudFlare account every page of whose listings is answered 200 and
    reports [total_pages = 0]. *)
Definition stalling_upstream : Upstream :=
  {| get_resource_id := plain_resource_id;
     cloudflare_zones := fun _ =>
       ok_response [{| cf_zone_id := "023e105f"; cf_zone_name := "example.com" |}] (Some 0);
     cloudflare_dns_records := fun _ _ =>
       ok_response [a_row "www.example.com" "192.0.2.1"] (Some 0);
     xfr := fun _ _ _ => None;
     retry_attempts := 2 |}.

(* ===================================================================== *)
(** * Proofs *)
(* ===================================================================== *)

#[local] Set Warnings "-clear-no-such-hyp".

Ltac munfold :=
  unfold mbind, M_bind, bind, mret, M_ret, ret, modify, gets, raise, diverge,
    try_except in *.

(** ** The monad *)

Lemma bind_Ok_inv {S A B} (m : M S A) (f : A -> M S B) s b s' :
  (m ≫= f) s = (Ok b, s') ->
  exists a s1, m s = (Ok a, s1) /\ f a s1 = (Ok b, s').
Proof.
  munfold. destruct (m s) as [[a| |] s1]; intros Hr; try discriminate.
  by exists a, s1.
Qed.

Lemma bind_Ok {S A B} (m : M S A) (f : A -> M S B) s a s1 :
  m s = (Ok a, s1) -> (m ≫= f) s = f a s1.
Proof. munfold. by intros ->. Qed.

Lemma bind_Raise {S A B} (m : M S A) (f : A -> M S B) s e s1 :
  m s = (Raise e, s1) -> (m ≫= f) s = (Raise e, s1).
Proof. munfold. by intros ->. Qed.

Lemma for_each_app {S A} (l1 l2 : list A) (body : A -> M S unit) s :
  for_each (l1 ++ l2) body s = (for_each l1 body;; for_each l2 body) s.
Proof.
  revert s. induction l1 as [|x l1 IH]; intros s; simpl; [done|].
  munfold. destruct (body x s) as [[[]| |] s1]; [|done..].
  apply IH.
Qed.

(** ** Pagination *)

Section Pagination.
Context {row acc : Type}.
Variable endpoint : cf_args -> http_response row.
Variable path : cf_args -> cf_request.
Variable step : acc -> list row -> acc.

Lemma request_200 p s :
  status_code (endpoint (page_args p)) = 200 ->
  cloudflare_request endpoint path p s
  = (Ok (json (endpoint (page_args p))), session_get (path (page_args p)) s).
Proof. unfold cloudflare_request, page_args. munfold. by intros ->. Qed.

Lemma request_not_200 p s :
  status_code (endpoint (page_args p)) ≠ 200 ->
  cloudflare_request endpoint path p s
  = (Raise (CloudFlareError ("Request failed: " +:+ text (endpoint (page_args p)))),
     session_get (path (page_args p)) s).
Proof.
  unfold cloudflare_request, page_args. munfold. intros Hne.
  by destruct (Z.eqb_spec (status_code (endpoint {| arg_page := p; arg_per_page := 100 |})) 200).
Qed.

Lemma paginate_ends fuel p a s :
  page_ends endpoint p ->
  paginate endpoint path step (S fuel) p a s
  = (Ok (step a (result (json (endpoint (page_args p))))),
     session_get (path (page_args p)) s).
Proof.
  intros [H200 Hlast]. simpl.
  rewrite (bind_Ok _ _ _ _ _ (request_200 p s H200)). by rewrite Hlast.
Qed.

Lemma paginate_continues fuel p a s :
  page_continues endpoint p ->
  paginate endpoint path step (S fuel) p a s
  = paginate endpoint path step fuel (p + 1)
      (step a (result (json (endpoint (page_args p)))))
      (session_get (path (page_args p)) s).
Proof.
  intros [H200 Hlast]. simpl.
  rewrite (bind_Ok _ _ _ _ _ (request_200 p s H200)). by rewrite Hlast.
Qed.

Lemma pages_results_S first n :
  pages_results endpoint first (S n)
  = result (json (endpoint (page_args first))) :: pages_results endpoint (first + 1) n.
Proof.
  unfold pages_results. rewrite seqZ_cons by lia. simpl.
  do 3 f_equal; lia.
Qed.

Lemma pages_requests_S first n :
  pages_requests path first (S n)
  = path (page_args first) :: pages_requests path (first + 1) n.
Proof.
  unfold pages_requests. rewrite seqZ_cons by lia. simpl.
  do 3 f_equal; lia.
Qed.

(** [n] pages that continue are requested one after the other. *)
Lemma paginate_run n : forall fuel first a s,
  (forall p, first <= p < first + Z.of_nat n -> page_continues endpoint p) ->
  paginate endpoint path step (n + fuel) first a s
  = paginate endpoint path step fuel (first + Z.of_nat n)
      (foldl step a (pages_results endpoint first n))
      (sent (pages_requests path first n) s).
Proof.
  induction n as [|n IH]; intros fuel first a s Hc.
  - simpl. by rewrite Z.add_0_r.
  - rewrite pages_results_S, pages_requests_S.
    change (S n + fuel)%nat with (S (n + fuel)).
    rewrite paginate_continues by (apply Hc; lia).
    rewrite IH by (intros p Hp; apply Hc; lia).
    unfold sent. cbn [foldl]. f_equal. lia.
Qed.

(** A run that returns has met a page that ends it, after pages that all
    continue; it returns the fold of all their results. *)
Lemma paginate_Ok_inv fuel : forall first a s r s',
  paginate endpoint path step fuel first a s = (Ok r, s') ->
  exists n : nat,
    (n < fuel)%nat /\
    (forall p, first <= p < first + Z.of_nat n -> page_continues endpoint p) /\
    page_ends endpoint (first + Z.of_nat n) /\
    r = foldl step a (pages_results endpoint first (S n)) /\
    s' = sent (pages_requests path first (S n)) s.
Proof.
  induction fuel as [|fuel IH]; intros first a s r s' Hrun; [by munfold|].
  destruct (decide (status_code (endpoint (page_args first)) = 200)) as [H200|H200].
  - destruct (last_page first (json (endpoint (page_args first)))) eqn:Hlast.
    + rewrite paginate_ends in Hrun by done. injection Hrun as <- <-.
      exists 0%nat. rewrite Z.add_0_r. split_and!; [lia|intros; lia|done|done|done].
    + rewrite paginate_continues in Hrun by done.
      apply IH in Hrun as (n & Hn & Hc & He & -> & ->).
      exists (S n). rewrite !pages_results_S, !pages_requests_S.
      replace (first + Z.of_nat (S n)) with (first + 1 + Z.of_nat n) by lia.
      split_and!; [lia| |done|done|done].
      intros p Hp. destruct (decide (p = first)) as [->|]; [done|apply Hc; lia].
  - simpl in Hrun. by rewrite (bind_Raise _ _ _ _ _ (request_not_200 first s H200)) in Hrun.
Qed.

(** With pages that continue for ever, no amount of fuel is enough. *)
Lemma paginate_diverges fuel : forall first a s,
  (forall p, first <= p -> page_continues endpoint p) ->
  (paginate endpoint path step fuel first a s).1 = Diverge.
Proof.
  induction fuel as [|fuel IH]; intros first a s Hc; [done|].
  rewrite paginate_continues by (apply Hc; lia).
  apply IH. intros p Hp. apply Hc. lia.
Qed.

(** Returning is the same as reaching a page that ends the loop. *)
Lemma paginate_returns_iff first a s :
  (exists fuel r s', paginate endpoint path step fuel first a s = (Ok r, s'))
  <-> exists n : nat,
        (forall p, first <= p < first + Z.of_nat n -> page_continues endpoint p) /\
        page_ends endpoint (first + Z.of_nat n).
Proof.
  split.
  - intros (fuel & r & s' & Hrun).
    apply paginate_Ok_inv in Hrun as (n & _ & Hc & He & _). by exists n.
  - intros (n & Hc & He). exists (n + 1)%nat. do 2 eexists.
    rewrite paginate_run by done. replace (1%nat) with (S O) by done.
    by rewrite paginate_ends.
Qed.

End Pagination.

(** ** [sorted] *)

Lemma sorted_Permutation l : Py.sorted l ≡ₚ l.
Proof. apply merge_sort_Permutation. Qed.

Lemma sorted_StronglySorted l : StronglySorted String.le (Py.sorted l).
Proof. apply (StronglySorted_merge_sort _). Qed.

(** [sorted] depends on the elements only, not on their order. *)
Lemma sorted_unique l1 l2 : l1 ≡ₚ l2 -> Py.sorted l1 = Py.sorted l2.
Proof.
  intros Hp. apply (StronglySorted_unique String.le); try apply sorted_StronglySorted.
  by rewrite !sorted_Permutation.
Qed.

Lemma sorted_sorted_app l x : Py.sorted (Py.sorted l ++ [x]) = Py.sorted (l ++ [x]).
Proof. apply sorted_unique. by rewrite sorted_Permutation. Qed.

(** ** Merging the raw rows by name *)

Lemma merge_row_keys records row :
  (merge_row records row).*1
  = if decide (cf_name row ∈ records.*1) then records.*1 else records.*1 ++ [cf_name row].
Proof.
  induction records as [|[k m] records IH]; csimpl.
  - done.
  - destruct (String.eqb_spec k (cf_name row)) as [->|Hne]; csimpl.
    + rewrite decide_True; [done|]. left.
    + rewrite IH. destruct (decide (cf_name row ∈ records.*1)) as [Hin|Hin].
      * rewrite decide_True; [done|]. by right.
      * rewrite decide_False; [done|]. intros [?|?]%elem_of_cons; congruence.
Qed.

Lemma merge_row_elem records row k m :
  NoDup records.*1 ->
  (k, m) ∈ merge_row records row ->
  (k ≠ cf_name row /\ (k, m) ∈ records) \/
  (k = cf_name row /\
   ((exists m0, (k, m0) ∈ records /\
       m = {| m_name := m_name m0;
              m_value := Py.sorted (m_value m0 ++ [cf_content row]);
              m_type := m_type m0 |}) \/
    ((k ∉ records.*1) /\
       m = {| m_name := cf_name row;
              m_value := Py.sorted [cf_content row];
              m_type := cf_type row |}))).
Proof.
  induction records as [|[k0 m0] records IH]; simpl; intros Hnd Hin.
  - apply list_elem_of_singleton in Hin. injection Hin as -> ->.
    right. split; [done|]. right. split; [set_solver|done].
  - apply NoDup_cons in Hnd as [Hk0 Hnd].
    destruct (String.eqb_spec k0 (cf_name row)) as [->|Hne].
    + apply elem_of_cons in Hin as [Hin|Hin].
      * injection Hin as -> ->. right. split; [done|]. left. exists m0. split; [set_solver|done].
      * left. split; [|set_solver]. intros ->. apply Hk0.
        apply list_elem_of_fmap. by exists (cf_name row, m).
    + apply elem_of_cons in Hin as [Hin|Hin].
      * injection Hin as -> ->. left. split; [done|set_solver].
      * destruct (IH Hnd Hin) as [[? ?]|[-> [(m1 & ? & ->)|[? ->]]]].
        -- left. split; [done|by right].
        -- right. split; [done|]. left. exists m1. split; [by right|done].
        -- right. split; [done|]. right. split; [|done].
           csimpl. intros [?|?]%elem_of_cons; [congruence|done].
Qed.

Lemma filter_none {A} (P : A -> Prop) `{forall x, Decision (P x)} (l : list A) :
  (forall x, x ∈ l -> ~ P x) -> filter P l = [].
Proof.
  induction l as [|x l IH]; intros Hno; [done|].
  rewrite filter_cons_False by (apply Hno; left).
  apply IH. intros y Hy. apply Hno. by right.
Qed.

Lemma contents_of_app name rows1 rows2 :
  contents_of name (rows1 ++ rows2) = contents_of name rows1 ++ contents_of name rows2.
Proof. unfold contents_of. by rewrite filter_app, fmap_app. Qed.

Lemma merged_from_nil : merged_from [] [].
Proof.
  split_and!; [constructor|intros row Hrow; by apply elem_of_nil in Hrow|].
  intros k m Hin. by apply elem_of_nil in Hin.
Qed.

Lemma merge_row_merged rows records row :
  merged_from rows records -> merged_from (rows ++ [row]) (merge_row records row).
Proof.
  intros (Hnd & Hcov & Hel). split_and!.
  - rewrite merge_row_keys. case_decide; [done|].
    apply NoDup_app. split_and!; [done|set_solver|apply NoDup_singleton].
  - intros row' Hrow'. rewrite merge_row_keys.
    apply elem_of_app in Hrow' as [Hrow'|Hrow'].
    + specialize (Hcov _ Hrow'). case_decide; set_solver.
    + apply list_elem_of_singleton in Hrow' as ->. case_decide; set_solver.
  - intros k m Hin.
    destruct (merge_row_elem _ _ _ _ Hnd Hin) as [[Hne Hold]|[-> [(m0 & Hold & ->)|[Hnew ->]]]].
    + destruct (Hel _ _ Hold) as (Hn & Hv & Ht).
      rewrite contents_of_app, filter_app. unfold contents_of at 2.
      rewrite !(filter_cons_False _ row) by (simpl; congruence).
      rewrite filter_nil, !app_nil_r. done.
    + destruct (Hel _ _ Hold) as (Hn & Hv & Ht). simpl.
      rewrite contents_of_app, filter_app. unfold contents_of at 2.
      rewrite !(filter_cons_True _ row) by done.
      rewrite filter_nil. simpl. rewrite Hv, sorted_sorted_app. split_and!; [done..|].
      destruct (filter (λ row0, cf_name row0 = cf_name row) rows); [done|done].
    + simpl. assert (filter (λ row0, cf_name row0 = cf_name row) rows = []) as Hnone.
      { apply filter_none. intros row' Hrow' Heq.
        apply Hnew. rewrite <- Heq. by apply Hcov. }
      rewrite contents_of_app, filter_app. unfold contents_of. rewrite Hnone. simpl.
      rewrite !(filter_cons_True _ row) by done. done.
Qed.

Lemma merge_rows_merged rows : forall rows0 records,
  merged_from rows0 records -> merged_from (rows0 ++ rows) (merge_rows records rows).
Proof.
  induction rows as [|row rows IH]; intros rows0 records Hm; simpl.
  - by rewrite app_nil_r.
  - rewrite (assoc_L _ rows0 [row] rows : rows0 ++ row :: rows = (rows0 ++ [row]) ++ rows).
    apply IH. by apply merge_row_merged.
Qed.

Lemma merge_rows_app records rows1 rows2 :
  merge_rows records (rows1 ++ rows2) = merge_rows (merge_rows records rows1) rows2.
Proof. apply foldl_app. Qed.

Lemma foldl_merge_rows pages : forall records,
  foldl merge_rows records pages = merge_rows records (concat pages).
Proof.
  induction pages as [|page pages IH]; intros records; simpl; [done|].
  by rewrite IH, merge_rows_app.
Qed.

Lemma foldl_append {A} (pages : list (list A)) : forall l,
  foldl (fun a rows => a ++ rows) l pages = l ++ concat pages.
Proof.
  induction pages as [|page pages IH]; intros l; simpl; [by rewrite app_nil_r|].
  by rewrite IH, (assoc_L _).
Qed.

(** What the merge means for the values of the dict. *)
Lemma merged_from_values rows records :
  merged_from rows records ->
  NoDup (m_name <$> records.*2) /\
  (forall row, row ∈ rows -> exists m, m ∈ records.*2 /\ m_name m = cf_name row) /\
  (forall m, m ∈ records.*2 ->
     m_value m = Py.sorted (contents_of (m_name m) rows) /\
     cf_type <$> head (filter (fun row => cf_name row = m_name m) rows) = Some (m_type m)).
Proof.
  intros (Hnd & Hcov & Hel).
  assert (m_name <$> records.*2 = records.*1) as Hnames.
  { rewrite <- list_fmap_compose. apply Forall_fmap_ext, Forall_forall.
    intros [k m] Hin. simpl. by apply Hel. }
  split_and!.
  - by rewrite Hnames.
  - intros row Hrow. specialize (Hcov _ Hrow).
    apply list_elem_of_fmap in Hcov as ([k m] & Hk & Hin). simpl in Hk.
    exists m. split; [apply list_elem_of_fmap; by exists (k, m)|].
    rewrite Hk. by apply Hel.
  - intros m Hm. apply list_elem_of_fmap in Hm as ([k m'] & -> & Hin). simpl.
    destruct (Hel _ _ Hin) as (-> & ? & ?). done.
Qed.

(** ** The two listing helpers *)

Section AdapterProofs.
Context `{Upstream}.

Lemma requests_sent reqs : forall s, requests (sent reqs s) = requests s ++ reqs.
Proof.
  induction reqs as [|req reqs IH]; intros s; unfold sent; simpl.
  - by rewrite app_nil_r.
  - fold (sent reqs (session_get req s)). rewrite IH. simpl. by rewrite <- (assoc_L _).
Qed.

Lemma transfers_sent reqs : forall s, transfers (sent reqs s) = transfers s.
Proof.
  induction reqs as [|req reqs IH]; intros s; unfold sent; simpl; [done|].
  fold (sent reqs (session_get req s)). by rewrite IH.
Qed.

Lemma list_zones_loop_paginate fuel : forall page zones s,
  cloudflare_list_zones_loop fuel page zones s
  = paginate cloudflare_zones GetZones (fun a rows => a ++ rows) fuel page zones s.
Proof.
  induction fuel as [|fuel IH]; intros page zones s; [done|].
  simpl. munfold.
  destruct (cloudflare_request cloudflare_zones GetZones page s) as [[response| |] s1]; [|done..].
  destruct (last_page page response); [done|apply IH].
Qed.

Lemma list_zone_records_loop_paginate fuel zoneID : forall page records s,
  cloudflare_list_zone_records_loop fuel zoneID page records s
  = (merged ← paginate (cloudflare_dns_records zoneID) (GetZoneRecords zoneID) merge_rows
               fuel page records;
     mret merged.*2) s.
Proof.
  induction fuel as [|fuel IH]; intros page records s; [done|].
  simpl. munfold.
  destruct (cloudflare_request (cloudflare_dns_records zoneID) (GetZoneRecords zoneID) page s)
    as [[response| |] s1]; [|done..].
  destruct (last_page page response); [done|].
  rewrite IH. by munfold.
Qed.

Lemma page_requested_from_1 {row} (endpoint : cf_args -> http_response row) (n : nat) :
  (forall p, 1 <= p < 1 + Z.of_nat n -> page_continues endpoint p)
  <-> page_requested endpoint (1 + Z.of_nat n).
Proof. done. Qed.

(** [__cloudflare_list_zones] returns after the first page that passes the
    test, with the results of all the pages it asked for, in order. *)
Lemma list_zones_Ok_inv fuel s zones s' :
  cloudflare_list_zones fuel s = (Ok zones, s') ->
  exists n : nat,
    (n < fuel)%nat /\
    page_requested cloudflare_zones (1 + Z.of_nat n) /\
    page_ends cloudflare_zones (1 + Z.of_nat n) /\
    zones = concat (pages_results cloudflare_zones 1 (S n)) /\
    s' = sent (pages_requests GetZones 1 (S n)) s.
Proof.
  unfold cloudflare_list_zones. rewrite list_zones_loop_paginate. intros Hrun.
  apply paginate_Ok_inv in Hrun as (n & Hn & Hc & He & -> & ->).
  exists n. by rewrite foldl_append.
Qed.

Lemma list_zone_records_Ok_inv fuel zoneID s records s' :
  cloudflare_list_zone_records fuel zoneID s = (Ok records, s') ->
  exists n : nat,
    (n < fuel)%nat /\
    page_requested (cloudflare_dns_records zoneID) (1 + Z.of_nat n) /\
    page_ends (cloudflare_dns_records zoneID) (1 + Z.of_nat n) /\
    records = (merge_rows [] (fetched_rows zoneID (S n))).*2 /\
    s' = sent (pages_requests (GetZoneRecords zoneID) 1 (S n)) s.
Proof.
  unfold cloudflare_list_zone_records. rewrite list_zone_records_loop_paginate. intros Hrun.
  apply bind_Ok_inv in Hrun as (merged & s1 & Hrun & Hret).
  injection Hret as <- <-.
  apply paginate_Ok_inv in Hrun as (n & Hn & Hc & He & -> & ->).
  exists n. by rewrite foldl_merge_rows.
Qed.

Lemma total_pages_continues {row} (endpoint : cf_args -> http_response row) (p t : Z) :
  status_code (endpoint (page_args p)) = 200 ->
  total_pages (json (endpoint (page_args p))) = Some t ->
  t ≠ p ->
  page_continues endpoint p.
Proof.
  intros H200 Ht Hne. split; [done|]. unfold last_page. rewrite Ht.
  apply Z.eqb_neq. congruence.
Qed.

Lemma total_pages_ends {row} (endpoint : cf_args -> http_response row) (p : Z) :
  status_code (endpoint (page_args p)) = 200 ->
  total_pages (json (endpoint (page_args p))) = Some p ->
  page_ends endpoint p.
Proof.
  intros H200 Ht. split; [done|]. unfold last_page. rewrite Ht. apply Z.eqb_refl.
Qed.

(** Three pages that report [total_pages = 3]: the scheme asks for pages 1,
    2 and 3 and folds their results in that order. *)
Lemma paginate_three_pages {row acc} (endpoint : cf_args -> http_response row)
    (path : cf_args -> cf_request) (step : acc -> list row -> acc) fuel a s :
  (forall p, status_code (endpoint (page_args p)) = 200 /\
             total_pages (json (endpoint (page_args p))) = Some 3) ->
  paginate endpoint path step (3 + fuel) 1 a s
  = (Ok (foldl step a (pages_results endpoint 1 3)), sent (pages_requests path 1 3) s).
Proof.
  intros Hpages.
  replace (3 + fuel)%nat with (2 + S fuel)%nat by lia.
  rewrite (paginate_run endpoint path step 2 (S fuel) 1 a s).
  - rewrite paginate_ends by (apply total_pages_ends; apply Hpages).
    done.
  - intros p Hp. apply (total_pages_continues _ _ 3); [apply Hpages..|lia].
Qed.

(** C7. Pagination exhaustion: when every page of a listing is answered
    with status 200 and [total_pages = 3], each of the two CloudFlare
    listing helpers sends exactly three requests, for pages 1, 2 and 3 in
    that order, and returns the results of the three pages: concatenated
    for the zone listing, merged by name for the record listing. *)
Theorem pagination_exhaustion (zoneID : string) (s : net) (fuel : nat) :
  (3 <= fuel)%nat ->
  (forall p, status_code (cloudflare_zones (page_args p)) = 200 /\
             total_pages (json (cloudflare_zones (page_args p))) = Some 3) ->
  (forall p, status_code (cloudflare_dns_records zoneID (page_args p)) = 200 /\
             total_pages (json (cloudflare_dns_records zoneID (page_args p))) = Some 3) ->
  (exists s',
     cloudflare_list_zones fuel s
     = (Ok (result (json (cloudflare_zones (page_args 1)))
            ++ result (json (cloudflare_zones (page_args 2)))
            ++ result (json (cloudflare_zones (page_args 3)))), s') /\
     requests s'
     = requests s ++ [GetZones (page_args 1); GetZones (page_args 2); GetZones (page_args 3)]) /\
  (exists s',
     cloudflare_list_zone_records fuel zoneID s
     = (Ok (merge_rows []
              (result (json (cloudflare_dns_records zoneID (page_args 1)))
               ++ result (json (cloudflare_dns_records zoneID (page_args 2)))
               ++ result (json (cloudflare_dns_records zoneID (page_args 3))))).*2, s') /\
     requests s'
     = requests s ++ [GetZoneRecords zoneID (page_args 1); GetZoneRecords zoneID (page_args 2);
                      GetZoneRecords zoneID (page_args 3)]).
Proof.
  intros Hfuel Hzones Hrecords.
  destruct (Nat.le_exists_sub 3 fuel Hfuel) as (extra & -> & _).
  rewrite (Nat.add_comm extra 3). split.
  - eexists. split.
    + unfold cloudflare_list_zones. rewrite list_zones_loop_paginate.
      rewrite paginate_three_pages by done. rewrite foldl_append.
      f_equal. f_equal. simpl. by rewrite app_nil_r.
    + by rewrite requests_sent.
  - eexists. split.
    + unfold cloudflare_list_zone_records. rewrite list_zone_records_loop_paginate.
      erewrite bind_Ok by (by apply paginate_three_pages).
      rewrite foldl_merge_rows. munfold. f_equal. f_equal. simpl. by rewrite app_nil_r.
    + by rewrite requests_sent.
Qed.

Lemma returns_iff_from_1 {row acc} (endpoint : cf_args -> http_response row)
    (path : cf_args -> cf_request) (step : acc -> list row -> acc) a s :
  (exists fuel r s', paginate endpoint path step fuel 1 a s = (Ok r, s'))
  <-> exists n, 1 <= n /\ page_requested endpoint n /\ page_ends endpoint n.
Proof.
  rewrite paginate_returns_iff. split.
  - intros (n & Hc & He). exists (1 + Z.of_nat n). split; [lia|done].
  - intros (n & Hn & Hc & He). exists (Z.to_nat (n - 1)).
    replace (1 + Z.of_nat (Z.to_nat (n - 1))) with n by lia. done.
Qed.

(** ** [get_cloudflare_records] *)

(** One iteration of the loop over the zone objects either appends the
    zone built from the records listed for it, or leaves the list alone. *)
Lemma cloudflare_zone_Ok_inv fuel zones zobj s out s' :
  cloudflare_zone fuel zones zobj s = (Ok out, s') ->
  out = zones \/
  exists records s1,
    cloudflare_list_zone_records fuel (cf_zone_id zobj) s = (Ok records, s1) /\
    records ≠ [] /\
    out = zones ++ [cloudflare_zone_dict zobj records].
Proof.
  unfold cloudflare_zone.
  destruct (cloudflare_list_zone_records fuel (cf_zone_id zobj) s) as [[records|e|] s1].
  - destruct records as [|record records]; simpl.
    + intros [= <- <-]. by left.
    + intros [= <- <-]. right. by exists (record :: records), s1.
  - destruct e; intros [= <- <-]. by left.
  - done.
Qed.

Lemma cloudflare_zones_loop_elem fuel zobjs : forall zones s out s' zone,
  cloudflare_zones_loop fuel zones zobjs s = (Ok out, s') ->
  zone ∈ out ->
  zone ∈ zones \/
  exists zobj records s1 s2,
    zobj ∈ zobjs /\
    cloudflare_list_zone_records fuel (cf_zone_id zobj) s1 = (Ok records, s2) /\
    records ≠ [] /\
    zone = cloudflare_zone_dict zobj records.
Proof.
  induction zobjs as [|zobj zobjs IH]; intros zones s out s' zone Hrun Hin.
  - injection Hrun as <- <-. by left.
  - simpl in Hrun. apply bind_Ok_inv in Hrun as (zones1 & s1 & Hzone & Hrun).
    destruct (IH _ _ _ _ _ Hrun Hin) as [Hin1|(zobj' & records & s2 & s3 & ? & ? & ? & ?)].
    + apply cloudflare_zone_Ok_inv in Hzone as [->|(records & s2 & Hrecs & Hne & ->)];
        [by left|].
      apply elem_of_app in Hin1 as [?|Hlast]; [by left|].
      apply list_elem_of_singleton in Hlast as ->.
      right. exists zobj, records, s, s2. split_and!; [left|done..].
    + right. exists zobj', records, s2, s3. split_and!; [by right|done..].
Qed.

(** Every zone of the snapshot is the zone built for a zone object of the
    listing from the merge of the raw rows fetched for it. *)
Lemma get_cloudflare_records_zone fuel s zones s' zone :
  get_cloudflare_records fuel s = (Ok zones, s') ->
  zone ∈ zones ->
  exists zobj (n : nat),
    page_requested (cloudflare_dns_records (cf_zone_id zobj)) (1 + Z.of_nat n) /\
    page_ends (cloudflare_dns_records (cf_zone_id zobj)) (1 + Z.of_nat n) /\
    merge_rows [] (fetched_rows (cf_zone_id zobj) (S n)) ≠ [] /\
    zone = cloudflare_zone_dict zobj (merge_rows [] (fetched_rows (cf_zone_id zobj) (S n))).*2.
Proof.
  unfold get_cloudflare_records. intros Hrun Hin.
  apply bind_Ok_inv in Hrun as (zobjs & s1 & _ & Hrun).
  destruct (cloudflare_zones_loop_elem _ _ _ _ _ _ _ Hrun Hin)
    as [Hnil|(zobj & records & s2 & s3 & _ & Hrecs & Hne & ->)];
    [by apply elem_of_nil in Hnil|].
  apply list_zone_records_Ok_inv in Hrecs as (n & _ & Hc & He & -> & _).
  exists zobj, n. split_and!; [done..| |done].
  intros Heq. by rewrite Heq in Hne.
Qed.

Lemma merged_fetched_rows zoneID n :
  merged_from (fetched_rows zoneID n) (merge_rows [] (fetched_rows zoneID n)).
Proof. apply (merge_rows_merged _ [] []), merged_from_nil. Qed.

Lemma filter_unique_name {A} (name : A -> string) (l : list A) (x : A) :
  NoDup (name <$> l) -> x ∈ l ->
  filter (fun y => name y = name x) l = [x].
Proof.
  induction l as [|y l IH]; intros Hnd Hin; [by apply elem_of_nil in Hin|].
  csimpl in Hnd. apply NoDup_cons in Hnd as [Hy Hnd].
  apply elem_of_cons in Hin as [->|Hin].
  - rewrite filter_cons_True by done. f_equal.
    apply filter_none. intros z Hz Heq. apply Hy. rewrite <- Heq.
    apply list_elem_of_fmap. by exists z.
  - rewrite filter_cons_False; [by apply IH|].
    intros Heq. apply Hy. rewrite Heq. apply list_elem_of_fmap. by exists x.
Qed.

(** ** Zones without records are left out *)

Lemma cloudflare_zones_loop_has_records fuel zobjs : forall zones s out s',
  Forall has_records zones ->
  cloudflare_zones_loop fuel zones zobjs s = (Ok out, s') ->
  Forall has_records out.
Proof.
  intros zones s out s' Hacc Hrun. apply Forall_forall. intros zone Hin.
  destruct (cloudflare_zones_loop_elem _ _ _ _ _ _ _ Hrun Hin)
    as [Hold|(zobj & records & s1 & s2 & _ & _ & Hne & ->)].
  - by apply (proj1 (Forall_forall _ _) Hacc).
  - unfold has_records. simpl. by destruct records.
Qed.

Lemma axfr_zones_loop_has_records self names : forall zones s out s',
  Forall has_records zones ->
  axfr_zones_loop self zones names s = (Ok out, s') ->
  Forall has_records out.
Proof.
  induction names as [|zoneName names IH]; intros zones s out s' Hacc Hrun.
  - by injection Hrun as <- <-.
  - simpl in Hrun. apply bind_Ok_inv in Hrun as (zones1 & s1 & Hzone & Hrun).
    apply (IH _ _ _ _) in Hrun; [done|].
    unfold axfr_zone in Hzone. apply bind_Ok_inv in Hzone as (rows & s2 & _ & Hret).
    injection Hret as <- <-.
    destruct rows as [|rr rows]; simpl; [done|].
    apply Forall_app. split; [done|]. by apply Forall_singleton.
Qed.

(** What [retry] returns is what one of the calls returned. *)
Lemma retry_Ok_inv {A} attempts (call : M net A) : forall s a s',
  retry attempts call s = (Ok a, s') ->
  exists s1, call s1 = (Ok a, s').
Proof.
  induction attempts as [|attempts IH]; intros s a s' Hrun; simpl in Hrun.
  - by exists s.
  - unfold try_except in Hrun. destruct (call s) as [[a1|e|] s1] eqn:Hcall.
    + injection Hrun as <- <-. by exists s.
    + by apply IH in Hrun.
    + done.
Qed.

(** C8. Empty-zone suppression: every zone of the list that
    [get_cloudflare_records] or [get_axfr_records] returns has at least
    one record. *)
Theorem empty_zone_suppression (zones : list zone_data) :
  (exists fuel s s', get_cloudflare_records fuel s = (Ok zones, s')) \/
  (exists self s s', get_axfr_records self s = (Ok zones, s')) ->
  Forall (fun zone => z_records zone ≠ []) zones.
Proof.
  intros [(fuel & s & s' & Hrun)|(self & s & s' & Hrun)].
  - unfold get_cloudflare_records in Hrun.
    apply bind_Ok_inv in Hrun as (zobjs & s1 & _ & Hrun).
    by apply cloudflare_zones_loop_has_records in Hrun.
  - unfold get_axfr_records in Hrun. apply retry_Ok_inv in Hrun as (s1 & Hrun).
    by apply axfr_zones_loop_has_records in Hrun.
Qed.

End AdapterProofs.

(** ** Concrete instances for the adapters *)

Lemma pagination_exhaustion_witness :
  (exists s',
     @cloudflare_list_zones (sample_upstream "1.1.1.1") 3 net0
     = (Ok [ {| cf_zone_id := "023e105f"; cf_zone_name := "example.com" |};
             {| cf_zone_id := "9a7806061c88"; cf_zone_name := "example.org" |} ], s') /\
     requests s' = [GetZones (page_args 1); GetZones (page_args 2); GetZones (page_args 3)]) /\
  (exists s',
     @cloudflare_list_zone_records (sample_upstream "1.1.1.1") 3 "023e105f" net0
     = (Ok [ {| m_name := "www.example.com"; m_value := ["1.1.1.1"; "2.2.2.2"]; m_type := "A" |};
             {| m_name := "mail.example.com"; m_value := ["3.3.3.3"]; m_type := "A" |} ], s') /\
     requests s' = [ GetZoneRecords "023e105f" (page_args 1);
                     GetZoneRecords "023e105f" (page_args 2);
                     GetZoneRecords "023e105f" (page_args 3) ]).
Proof.
  apply (@pagination_exhaustion (sample_upstream "1.1.1.1") "023e105f" net0 3);
    [lia | intros p; split; reflexivity | intros p; split; reflexivity].
Defined.

Lemma sample_cloudflare_run :
  @get_cloudflare_records (sample_upstream "1.1.1.1") 3 net0
  = (Ok sample_cloudflare_snapshot,
     (@get_cloudflare_records (sample_upstream "1.1.1.1") 3 net0).2).
Proof. vm_compute. reflexivity. Defined.

Lemma sample_axfr_run :
  @get_axfr_records (sample_upstream "1.1.1.1") sample_collector net0
  = (Ok sample_axfr_snapshot,
     (@get_axfr_records (sample_upstream "1.1.1.1") sample_collector net0).2).
Proof. vm_compute. reflexivity. Defined.

(** C2 as the claim words it does not hold. For the sample account the
    first raw row named [www.example.com] has content [2.2.2.2]; the id of
    the emitted record is not the identity function at that row's
    rendering, and it changes when only the row merged in later changes. *)
Lemma cloudflare_record_id_not_of_first_row :
  head (@fetched_rows (sample_upstream "1.1.1.1") "023e105f" 3)
    = Some (a_row "www.example.com" "2.2.2.2") /\
  head (@fetched_rows (sample_upstream "9.9.9.9") "023e105f" 3)
    = Some (a_row "www.example.com" "2.2.2.2") /\
  @get_resource_id (sample_upstream "1.1.1.1") "cfr"
      ("023e105f" :: raw_row_items (a_row "www.example.com" "2.2.2.2"))
    = "cfr-023e105f-content=2.2.2.2-name=www.example.com-type=A" /\
  snapshot_record_ids (@get_cloudflare_records (sample_upstream "1.1.1.1") 3 net0)
    = [ "cfr-023e105f-name=www.example.com-type=A-value=['1.1.1.1', '2.2.2.2']";
        "cfr-023e105f-name=mail.example.com-type=A-value=['3.3.3.3']" ] /\
  snapshot_record_ids (@get_cloudflare_records (sample_upstream "9.9.9.9") 3 net0)
    = [ "cfr-023e105f-name=www.example.com-type=A-value=['2.2.2.2', '9.9.9.9']";
        "cfr-023e105f-name=mail.example.com-type=A-value=['3.3.3.3']" ] /\
  @get_resource_id (sample_upstream "1.1.1.1") "cfr"
      ("023e105f" :: raw_row_items (a_row "www.example.com" "2.2.2.2"))
    ∉ snapshot_record_ids (@get_cloudflare_records (sample_upstream "1.1.1.1") 3 net0).
Proof.
  split_and!; try (vm_compute; reflexivity).
  vm_compute. intros Hin. repeat (apply elem_of_cons in Hin as [Hin|Hin]; [discriminate Hin|]).
  by apply elem_of_nil in Hin.
Qed.

Lemma empty_zone_suppression_witness :
  Forall (fun zone => z_records zone ≠ []) sample_cloudflare_snapshot /\
  Forall (fun zone => z_records zone ≠ []) sample_axfr_snapshot.
Proof.
  split.
  - apply (@empty_zone_suppression (sample_upstream "1.1.1.1")). left.
    exists 3%nat, net0. eexists. apply sample_cloudflare_run.
  - apply (@empty_zone_suppression (sample_upstream "1.1.1.1")). right.
    exists sample_collector, net0. eexists. apply sample_axfr_run.
Defined.

(** ** Frame rules of the monad *)

Section Frames.
Context {S X : Type}.
Variable f : S -> X.

Lemma keeps_ret {A} (a : A) : keeps f (mret a : M S A).
Proof. done. Qed.

Lemma keeps_raise {A} e : keeps f (raise e : M S A).
Proof. done. Qed.

Lemma keeps_gets {A} (g : S -> A) : keeps f (gets g).
Proof. done. Qed.

Lemma keeps_modify (g : S -> S) : (forall s, f (g s) = f s) -> keeps f (modify g).
Proof. intros Hg s. apply Hg. Qed.

Lemma keeps_bind {A B} (m : M S A) (k : A -> M S B) :
  keeps f m -> (forall a, keeps f (k a)) -> keeps f (m ≫= k).
Proof.
  intros Hm Hk s. specialize (Hm s). munfold.
  destruct (m s) as [[a| |] s1]; simpl in *; [|done..].
  by rewrite Hk.
Qed.

Lemma keeps_for_each {A} (l : list A) (body : A -> M S unit) :
  (forall x, x ∈ l -> keeps f (body x)) -> keeps f (for_each l body).
Proof.
  induction l as [|x l IH]; intros Hbody; [done|].
  simpl. apply keeps_bind; [apply Hbody; left|].
  intros _. apply IH. intros y Hy. apply Hbody. by right.
Qed.

Lemma keeps_try_except {A} (m : M S A) (handler : exn -> M S A) :
  keeps f m -> (forall e, keeps f (handler e)) -> keeps f (try_except m handler).
Proof.
  intros Hm Hh s. specialize (Hm s). unfold try_except.
  destruct (m s) as [[a|e|] s1]; simpl in *; [done| |done].
  by rewrite Hh.
Qed.

End Frames.

Lemma total_ret {S A} (a : A) : total (mret a : M S A).
Proof. done. Qed.

Lemma total_raise {S A} e : total (raise e : M S A).
Proof. done. Qed.

Lemma total_gets {S A} (g : S -> A) : total (gets g).
Proof. done. Qed.

Lemma total_modify {S} (g : S -> S) : total (modify g).
Proof. done. Qed.

Lemma total_bind {S A B} (m : M S A) (k : A -> M S B) :
  total m -> (forall a, total (k a)) -> total (m ≫= k).
Proof.
  intros Hm Hk s. specialize (Hm s). munfold.
  destruct (m s) as [[a| |] s1]; simpl in *; [apply Hk|done..].
Qed.

Lemma total_for_each {S A} (l : list A) (body : A -> M S unit) :
  (forall x, total (body x)) -> total (for_each l body).
Proof.
  intros Hbody. induction l as [|x l IH]; [done|].
  simpl. apply total_bind; [apply Hbody|done].
Qed.

Lemma total_try_except {S A} (m : M S A) (handler : exn -> M S A) :
  total m -> (forall e, total (handler e)) -> total (try_except m handler).
Proof.
  intros Hm Hh s. specialize (Hm s). unfold try_except.
  destruct (m s) as [[a|e|] s1]; simpl in *; [done|apply Hh|done].
Qed.

Lemma bind_Raise_inv {S A B} (m : M S A) (k : A -> M S B) s e s' :
  (m ≫= k) s = (Raise e, s') ->
  m s = (Raise e, s') \/ exists a s1, m s = (Ok a, s1) /\ k a s1 = (Raise e, s').
Proof.
  munfold. destruct (m s) as [[a|e1|] s1]; intros Hr.
  - right. by exists a, s1.
  - left. by injection Hr as -> ->.
  - done.
Qed.

(** ** The storage collaborator *)

Section StorageProofs.
Context `{Faults}.

Ltac prim :=
  intros s;
  unfold db_commit, db_rollback, log_exception, DNSZone_get_all, DNSZone_get,
    DNSZone_update, session_add, DNSZone_create, DNSRecord_update, DNSRecord_create,
    add_record, delete_record, delete_zone;
  unfold storage_call; munfold; simpl; repeat (case_match; simplify_eq/=; try done); try done.

Lemma storage_call_total : total storage_call.
Proof. prim. Qed.
Lemma db_commit_total : total db_commit.
Proof. prim. Qed.
Lemma db_rollback_total : total db_rollback.
Proof. prim. Qed.
Lemma log_exception_total about e : total (log_exception about e).
Proof. prim. Qed.
Lemma DNSZone_get_all_total account : total (DNSZone_get_all account).
Proof. prim. Qed.
Lemma DNSZone_get_total resource_id : total (DNSZone_get resource_id).
Proof. prim. Qed.
Lemma DNSZone_update_total resource_id data : total (DNSZone_update resource_id data).
Proof. prim. Qed.
Lemma DNSZone_create_total account data : total (DNSZone_create account data).
Proof. prim. Qed.
Lemma DNSRecord_update_total resource_id data : total (DNSRecord_update resource_id data).
Proof. prim. Qed.
Lemma DNSRecord_create_total account data : total (DNSRecord_create account data).
Proof. prim. Qed.
Lemma add_record_total zone_id resource_id : total (add_record zone_id resource_id).
Proof. prim. Qed.
Lemma delete_record_total resource_id : total (delete_record resource_id).
Proof. prim. Qed.
Lemma delete_zone_total resource_id : total (delete_zone resource_id).
Proof. prim. Qed.

(** Nothing but [db_commit] touches what is committed. *)
Lemma storage_call_keeps_committed : keeps committed storage_call.
Proof. prim. Qed.
Lemma db_rollback_keeps_committed : keeps committed db_rollback.
Proof. prim. Qed.
Lemma log_exception_keeps_committed about e : keeps committed (log_exception about e).
Proof. prim. Qed.
Lemma DNSZone_get_keeps_committed resource_id : keeps committed (DNSZone_get resource_id).
Proof. prim. Qed.
Lemma DNSRecord_update_keeps_committed resource_id data :
  keeps committed (DNSRecord_update resource_id data).
Proof. prim. Qed.
Lemma DNSRecord_create_keeps_committed account data :
  keeps committed (DNSRecord_create account data).
Proof. prim. Qed.
Lemma add_record_keeps_committed zone_id resource_id :
  keeps committed (add_record zone_id resource_id).
Proof. prim. Qed.
Lemma delete_record_keeps_committed resource_id : keeps committed (delete_record resource_id).
Proof. prim. Qed.

(** A commit that raises has committed nothing; one that returns has
    committed the session. *)
Lemma db_commit_run s :
  (storage_fault (calls s) = true /\
   (db_commit s).1 = Raise StorageError /\
   committed (db_commit s).2 = committed s /\
   session (db_commit s).2 = session s) \/
  (storage_fault (calls s) = false /\
   (db_commit s).1 = Ok tt /\
   committed (db_commit s).2 = session s /\
   session (db_commit s).2 = session s).
Proof.
  unfold db_commit, storage_call. munfold.
  destruct (storage_fault (calls s)); [by left|by right].
Qed.

End StorageProofs.

Create HintDb frames.

#[global] Hint Resolve storage_call_total db_commit_total db_rollback_total log_exception_total
  DNSZone_get_all_total DNSZone_get_total DNSZone_update_total DNSZone_create_total
  DNSRecord_update_total DNSRecord_create_total add_record_total delete_record_total
  delete_zone_total total_ret total_raise total_gets total_modify : frames.

#[global] Hint Resolve storage_call_keeps_committed db_rollback_keeps_committed
  log_exception_keeps_committed DNSZone_get_keeps_committed DNSRecord_update_keeps_committed
  DNSRecord_create_keeps_committed add_record_keeps_committed delete_record_keeps_committed
  keeps_ret keeps_raise keeps_gets : frames.

(** ** The record phase: failures stay within their zone *)

Section RecordPhase.
Context `{Faults}.

Lemma upsert_record_total account existing_zone existing_records data :
  total (upsert_record account existing_zone existing_records data).
Proof.
  unfold upsert_record. case_bool_decide.
  - apply total_bind; [auto with frames|]. intros []; auto with frames.
  - apply total_bind; auto with frames.
Qed.

Lemma upsert_record_keeps_committed account existing_zone existing_records data :
  keeps committed (upsert_record account existing_zone existing_records data).
Proof.
  unfold upsert_record. case_bool_decide.
  - apply keeps_bind; [auto with frames|]. intros []; auto with frames.
  - apply keeps_bind; auto with frames.
Qed.

Lemma upsert_records_total account zone : total (upsert_records account zone).
Proof.
  unfold upsert_records. apply total_bind; [auto with frames|].
  intros [existing_zone|]; [|auto with frames].
  apply total_bind; [auto with frames|]. intros existing_records.
  apply total_bind; [apply total_for_each; intros; apply upsert_record_total|].
  intros _. apply total_bind; auto with frames.
Qed.

Lemma prune_records_total zone existing_records : total (prune_records zone existing_records).
Proof.
  unfold prune_records. apply total_bind; [|auto with frames].
  apply total_for_each. auto with frames.
Qed.

Lemma record_pass_total account zone : total (record_pass account zone).
Proof.
  unfold record_pass. apply total_bind; [apply upsert_records_total|].
  intros. apply prune_records_total.
Qed.

Lemma record_pass_failed_run zone e s :
  record_pass_failed zone e s = (Ok tt, rolled_back zone e s).
Proof. done. Qed.

(** The record phase never raises. *)
Lemma record_phase_returns zones account : forall s,
  exists s', record_phase zones account s = (Ok tt, s').
Proof.
  unfold record_phase. induction zones as [|zone zones IH]; intros s; [by eexists|].
  simpl. munfold. pose proof (record_pass_total account zone s) as Htotal.
  destruct (record_pass account zone s) as [[[]|e|] s1]; simpl in *; [apply IH..|done].
Qed.

(** The first half of a pass commits last: when it raises, nothing of the
    pass is committed; when it returns, all of it is. *)
Lemma upsert_records_Raise account zone s e s1 :
  upsert_records account zone s = (Raise e, s1) -> committed s1 = committed s.
Proof.
  unfold upsert_records. intros Hrun.
  apply bind_Raise_inv in Hrun as [Hget|(zone_ref & s2 & Hget & Hrun)].
  { rewrite <- (DNSZone_get_keeps_committed (z_zone_id zone) s). by rewrite Hget. }
  assert (committed s2 = committed s) as <-.
  { rewrite <- (DNSZone_get_keeps_committed (z_zone_id zone) s). by rewrite Hget. }
  destruct zone_ref as [existing_zone|]; [|by injection Hrun as _ <-].
  apply bind_Raise_inv in Hrun as [Hrun|(existing_records & s3 & Hgets & Hrun)]; [done|].
  injection Hgets as <- <-.
  pose proof (keeps_for_each committed (z_records zone)
                (upsert_record account existing_zone (zone_records existing_zone (session s2)))
                (fun data _ => upsert_record_keeps_committed _ _ _ data) s2) as Hloop.
  apply bind_Raise_inv in Hrun as [Hrun|([] & s4 & Hfor & Hrun)].
  { by rewrite Hrun in Hloop. }
  rewrite Hfor in Hloop. simpl in Hloop. rewrite <- Hloop.
  apply bind_Raise_inv in Hrun as [Hrun|([] & s5 & Hcommit & Hrun)]; [|done].
  destruct (db_commit_run s4) as [(_ & _ & Hc & _)|(_ & Hok & _)].
  - by rewrite Hrun in Hc.
  - by rewrite Hrun in Hok.
Qed.

Lemma upsert_records_Ok account zone s existing_records s1 :
  upsert_records account zone s = (Ok existing_records, s1) -> committed s1 = session s1.
Proof.
  unfold upsert_records. intros Hrun.
  apply bind_Ok_inv in Hrun as (zone_ref & s2 & _ & Hrun).
  destruct zone_ref as [existing_zone|]; [|done].
  apply bind_Ok_inv in Hrun as (existing & s3 & _ & Hrun).
  apply bind_Ok_inv in Hrun as ([] & s4 & _ & Hrun).
  apply bind_Ok_inv in Hrun as ([] & s5 & Hcommit & Hrun).
  injection Hrun as _ <-.
  destruct (db_commit_run s4) as [(_ & Hr & _)|(_ & _ & Hc & Hs)].
  - by rewrite Hcommit in Hr.
  - rewrite Hcommit in Hc, Hs. simpl in *. congruence.
Qed.

Lemma prune_records_Raise zone existing_records s e s1 :
  prune_records zone existing_records s = (Raise e, s1) -> committed s1 = committed s.
Proof.
  unfold prune_records. intros Hrun.
  pose proof (keeps_for_each committed
                (difference existing_records (map r_id (z_records zone))) delete_record
                (fun rid _ => delete_record_keeps_committed rid) s) as Hloop.
  apply bind_Raise_inv in Hrun as [Hrun|([] & s2 & Hfor & Hrun)].
  { by rewrite Hrun in Hloop. }
  rewrite Hfor in Hloop. simpl in Hloop. rewrite <- Hloop.
  destruct (db_commit_run s2) as [(_ & _ & Hc & _)|(_ & Hok & _)].
  - by rewrite Hrun in Hc.
  - by rewrite Hrun in Hok.
Qed.

Lemma prune_records_Ok zone existing_records s s1 :
  prune_records zone existing_records s = (Ok tt, s1) -> committed s1 = session s1.
Proof.
  unfold prune_records. intros Hrun.
  apply bind_Ok_inv in Hrun as ([] & s2 & _ & Hcommit).
  destruct (db_commit_run s2) as [(_ & Hr & _)|(_ & _ & Hc & Hs)].
  - by rewrite Hcommit in Hr.
  - rewrite Hcommit in Hc, Hs. simpl in *. congruence.
Qed.

(** C6 as the code has it. When a zone's record pass raises, the exception
    is logged and the session rolled back to what is committed, and the
    record phase goes on with the zones that follow and returns: no
    exception leaves [process_zones] once the zone phase is over. What is
    committed is what was committed when the pass started if the pass
    raised before its first commit (the one after the creations and
    updates), and what that commit made durable otherwise. A pass that
    returns has committed its changes. *)
Theorem record_phase_isolation account zone zones s e s1 :
  record_pass account zone s = (Raise e, s1) ->
  record_phase (zone :: zones) account s
    = record_phase zones account (rolled_back zone e s1) /\
  session (rolled_back zone e s1) = committed (rolled_back zone e s1) /\
  (exists s', record_phase zones account (rolled_back zone e s1) = (Ok tt, s')) /\
  ((exists s0, upsert_records account zone s = (Raise e, s0)) ->
     committed (rolled_back zone e s1) = committed s) /\
  (forall existing_records s0,
     upsert_records account zone s = (Ok existing_records, s0) ->
     committed (rolled_back zone e s1) = committed s0 /\ committed s0 = session s0) /\
  (forall zone' s2 s3,
     record_pass account zone' s2 = (Ok tt, s3) -> committed s3 = session s3) /\
  (forall zones0 s2 s3,
     zone_phase zones0 account s2 = (Ok tt, s3) ->
     exists s', process_zones zones0 account s2 = (Ok tt, s')).
Proof.
  intros Hpass. split_and!.
  - unfold record_phase. simpl. munfold. by rewrite Hpass.
  - done.
  - apply record_phase_returns.
  - intros (s0 & Hup). simpl. unfold record_pass in Hpass.
    rewrite (bind_Raise _ _ _ _ _ Hup) in Hpass. injection Hpass as <-.
    by apply upsert_records_Raise in Hup.
  - intros existing_records s0 Hup. simpl. unfold record_pass in Hpass.
    rewrite (bind_Ok _ _ _ _ _ Hup) in Hpass.
    split; [by apply prune_records_Raise in Hpass|by apply upsert_records_Ok in Hup].
  - intros zone' s2 s3 Hok. unfold record_pass in Hok.
    apply bind_Ok_inv in Hok as (existing_records & s4 & _ & Hprune).
    by apply prune_records_Ok in Hprune.
  - intros zones0 s2 s3 Hzone. unfold process_zones.
    rewrite (bind_Ok _ _ _ _ _ Hzone). apply record_phase_returns.
Qed.

End RecordPhase.

(** ** Concrete runs of the record phase *)

(** C4 at the input where the code departs from it. The zone is stored
    with the records A, B, C; the snapshot lists B with a new value, C and
    D. [record.update] reports the change, building the debug message
    raises [AttributeError] ([zone] is the snapshot's dict and has no
    attribute [name]), and the pass is rolled back: the run returns, the
    store is what it was, with A still there, B not updated and D not
    created. With B unchanged the same run leaves B, C and D. *)
Theorem changed_record_rolls_back_the_pass :
  (@process_zones no_faults [bcd_zone "198.51.100.2"] sample_account (db_of abc_store)).1
    = Ok tt /\
  logged (@process_zones no_faults [bcd_zone "198.51.100.2"] sample_account (db_of abc_store)).2
    = [("zone-1", AttributeError "name")] /\
  committed (@process_zones no_faults [bcd_zone "198.51.100.2"] sample_account (db_of abc_store)).2
    = abc_store /\
  session (@process_zones no_faults [bcd_zone "198.51.100.2"] sample_account (db_of abc_store)).2
    = abc_store /\
  Py.sorted (zone_records "zone-1" abc_store) = ["A"; "B"; "C"] /\
  Py.sorted
    (zone_records "zone-1"
       (committed (@process_zones no_faults [bcd_zone "192.0.2.2"] sample_account
                     (db_of abc_store)).2))
    = ["B"; "C"; "D"].
Proof. split_and!; vm_compute; reflexivity. Qed.

(** C6 as the claim words it does not hold. The zone is stored with A, B,
    C and the snapshot lists B, C, D; the pass creates D and commits,
    deletes A, and its second commit fails. The exception is caught and
    the deletion rolled back, but D stays committed: the failed pass has
    changed what is stored for the zone. *)
Lemma failed_pass_changes_stored_state :
  (@record_pass (fault_at 3) sample_account (bcd_zone "192.0.2.2") (db_of abc_store)).1
    = Raise StorageError /\
  Py.sorted (zone_records "zone-1" (committed (db_of abc_store))) = ["A"; "B"; "C"] /\
  (@process_zones (fault_at 7) [bcd_zone "192.0.2.2"] sample_account (db_of abc_store)).1
    = Ok tt /\
  logged (@process_zones (fault_at 7) [bcd_zone "192.0.2.2"] sample_account (db_of abc_store)).2
    = [("zone-1", StorageError)] /\
  Py.sorted
    (zone_records "zone-1"
       (committed (@process_zones (fault_at 7) [bcd_zone "192.0.2.2"] sample_account
                     (db_of abc_store)).2))
    = ["A"; "B"; "C"; "D"].
Proof. split_and!; vm_compute; reflexivity. Qed.

Lemma changed_b_pass_raises :
  @record_pass no_faults sample_account (bcd_zone "198.51.100.2") (db_of abc_store)
  = (Raise (AttributeError "name"), changed_b_pass.2).
Proof. vm_compute. reflexivity. Defined.

Lemma changed_b_upsert_raises :
  exists s0,
    @upsert_records no_faults sample_account (bcd_zone "198.51.100.2") (db_of abc_store)
    = (Raise (AttributeError "name"), s0).
Proof. eexists. vm_compute. reflexivity. Defined.

Lemma record_phase_isolation_witness :
  @record_phase no_faults [bcd_zone "198.51.100.2"; bcd_zone "192.0.2.2"] sample_account
    (db_of abc_store)
  = @record_phase no_faults [bcd_zone "192.0.2.2"] sample_account
      (rolled_back (bcd_zone "198.51.100.2") (AttributeError "name") changed_b_pass.2) /\
  committed (rolled_back (bcd_zone "198.51.100.2") (AttributeError "name") changed_b_pass.2)
  = committed (db_of abc_store).
Proof.
  pose proof (@record_phase_isolation no_faults sample_account (bcd_zone "198.51.100.2")
                [bcd_zone "192.0.2.2"] (db_of abc_store) (AttributeError "name")
                changed_b_pass.2 changed_b_pass_raises) as (Hnext & _ & _ & Hkept & _).
  split; [exact Hnext|exact (Hkept changed_b_upsert_raises)].
Defined.

(** ** The view of a zone's records *)

(** C9 at the input where the code departs from it: the request asks for
    the records of type [A] of a zone stored with an [A] record and a
    [TXT] record, and the view returns both. The [type] argument is parsed
    and never read: the response is the same for every value of it. The
    slice is the one the claim describes. *)
Theorem zone_records_view_ignores_type :
  DNSZoneRecords_get mixed_store "zone-1" {| page := 1; type_ := Some "A"; count := 25 |}
  = Ok {| recordCount := 2;
          records :=
            [ {| v_id := "rec-a"; v_name := "www.example.com";
                 v_value := ["192.0.2.1"]; v_type := "A" |};
              {| v_id := "rec-txt"; v_name := "example.com";
                 v_value := ["v=spf1 -all"]; v_type := "TXT" |} ] |} /\
  (forall st zone_id args wanted,
     DNSZoneRecords_get st zone_id args
     = DNSZoneRecords_get st zone_id
         {| page := page args; type_ := wanted; count := count args |}) /\
  (forall st zone_id args response,
     DNSZoneRecords_get st zone_id args = Ok response ->
     records response
     = Py.slice (zone_record_views zone_id st)
         ((page args - 1) * count args) ((page args - 1) * count args + count args)).
Proof.
  split_and!.
  - vm_compute. reflexivity.
  - intros st zone_id args wanted. unfold DNSZoneRecords_get. by destruct (st_zones st !! zone_id).
  - intros st zone_id args response. unfold DNSZoneRecords_get.
    destruct (st_zones st !! zone_id); [|done]. by intros [= <-].
Qed.

(** ** Hoare rules *)

Lemma triple_bind {S A B} (P : S -> Prop) (P' : A -> S -> Prop) (m : M S A) (k : A -> M S B)
    (Q : outcome B -> S -> Prop) :
  triple P m (fun r s' => match r with
                          | Ok a => P' a s'
                          | Raise e => Q (Raise e) s'
                          | Diverge => Q Diverge s'
                          end) ->
  (forall a, triple (P' a) (k a) Q) ->
  triple P (m ≫= k) Q.
Proof.
  intros Hm Hk s HP. specialize (Hm s HP). munfold.
  destruct (m s) as [[a|e|] s1]; simpl in *; [by apply Hk|done..].
Qed.

Lemma triple_weaken {S A} (P P' : S -> Prop) (m : M S A) (Q Q' : outcome A -> S -> Prop) :
  triple P' m Q' ->
  (forall s, P s -> P' s) ->
  (forall r s, Q' r s -> Q r s) ->
  triple P m Q.
Proof. intros Hm HP HQ s Hs. apply HQ, Hm, HP, Hs. Qed.

(** An invariant of the body is an invariant of the loop, whatever the
    outcome. *)
Lemma triple_for_each {S A} (I : S -> Prop) (l : list A) (body : A -> M S unit) :
  (forall x, x ∈ l -> triple I (body x) (fun _ s' => I s')) ->
  triple I (for_each l body) (fun _ s' => I s').
Proof.
  induction l as [|x l IH]; intros Hbody; [by intros s|].
  simpl. apply (triple_bind _ (fun _ => I)).
  - eapply triple_weaken; [apply (Hbody x); left|done|]. by intros [[]| |].
  - intros _. apply IH. intros y Hy. apply Hbody. by right.
Qed.

(** A loop that returns has run its body on every element in turn: [J] is
    indexed by the elements done so far. *)
Lemma for_each_Ok_inv {S A} (J : list A -> S -> Prop) (l : list A) (body : A -> M S unit) :
  (forall done x rest s s',
     l = done ++ x :: rest -> J done s -> body x s = (Ok tt, s') -> J (done ++ [x]) s') ->
  forall s s', J [] s -> for_each l body s = (Ok tt, s') -> J l s'.
Proof.
  intros Hbody.
  assert (forall rest done s s',
            l = done ++ rest -> J done s -> for_each rest body s = (Ok tt, s') -> J l s')
    as Hgen.
  { induction rest as [|x rest IH]; intros done s s' Hl HJ Hrun.
    - injection Hrun as <-. by rewrite Hl, app_nil_r.
    - simpl in Hrun. apply bind_Ok_inv in Hrun as ([] & s1 & Hx & Hrest).
      apply (IH (done ++ [x]) s1 s'); [by rewrite <- (assoc_L _)| |done].
      by apply (Hbody done x rest s s1). }
  intros s s'. by apply (Hgen l []).
Qed.

Lemma appends_ret {A} (a : A) : appends (mret a).
Proof. intros s. exists []. by rewrite app_nil_r. Qed.

Lemma appends_raise {A} e : appends (raise e : M db A).
Proof. intros s. exists []. by rewrite app_nil_r. Qed.

Lemma appends_gets {A} (g : db -> A) : appends (gets g).
Proof. intros s. exists []. by rewrite app_nil_r. Qed.

Lemma appends_keeps {A} (m : M db A) : keeps writes m -> appends m.
Proof. intros Hm s. exists []. by rewrite Hm, app_nil_r. Qed.

Lemma appends_bind {A B} (m : M db A) (k : A -> M db B) :
  appends m -> (forall a, appends (k a)) -> appends (m ≫= k).
Proof.
  intros Hm Hk s. destruct (Hm s) as [w Hw]. munfold.
  destruct (m s) as [[a| |] s1]; simpl in *; [|by exists w..].
  destruct (Hk a s1) as [w' Hw']. exists (w ++ w'). by rewrite Hw', Hw, (assoc_L _).
Qed.

Lemma appends_for_each {A} (l : list A) (body : A -> M db unit) :
  (forall x, appends (body x)) -> appends (for_each l body).
Proof.
  intros Hbody. induction l as [|x l IH]; [apply appends_ret|].
  simpl. by apply appends_bind.
Qed.

Lemma appends_try_except {A} (m : M db A) (handler : exn -> M db A) :
  appends m -> (forall e, appends (handler e)) -> appends (try_except m handler).
Proof.
  intros Hm Hh s. destruct (Hm s) as [w Hw]. unfold try_except.
  destruct (m s) as [[a|e|] s1]; simpl in *; [by exists w| |by exists w].
  destruct (Hh e s1) as [w' Hw']. exists (w ++ w'). by rewrite Hw', Hw, (assoc_L _).
Qed.

(** ** The store *)

Lemma delete_all_lookup ids : forall (m : gmap string record_row) k,
  delete_all ids m !! k = if decide (k ∈ ids) then None else m !! k.
Proof.
  unfold delete_all.
  induction ids as [|i ids IH]; intros m k; cbn [foldl].
  - rewrite decide_False; [done|]. apply not_elem_of_nil.
  - rewrite IH. destruct (decide (k ∈ ids)) as [Hin|Hin].
    + rewrite decide_True; [done|by right].
    + destruct (decide (k = i)) as [->|Hne].
      * rewrite decide_True; [|by left]. apply lookup_delete_eq.
      * rewrite decide_False; [by apply lookup_delete_ne|].
        intros [?|?]%elem_of_cons; done.
Qed.

Lemma elem_of_zone_records k zone_id st :
  k ∈ zone_records zone_id st
  <-> exists row, st_records st !! k = Some row /\ rec_zone row = Some zone_id.
Proof.
  unfold zone_records. rewrite list_elem_of_fmap. split.
  - intros ([k' row] & -> & Hin). apply elem_of_map_to_list in Hin.
    apply map_lookup_filter_Some in Hin as [Hrow Hzone]. by exists row.
  - intros (row & Hrow & Hzone). exists (k, row). split; [done|].
    apply elem_of_map_to_list. by apply map_lookup_filter_Some.
Qed.

Lemma elem_of_zone_ids_of k account st :
  k ∈ zone_ids_of account st
  <-> exists row, st_zones st !! k = Some row /\ zr_account_id row = account_id account.
Proof.
  unfold zone_ids_of. rewrite list_elem_of_fmap. split.
  - intros ([k' row] & -> & Hin). apply elem_of_map_to_list in Hin.
    apply map_lookup_filter_Some in Hin as [Hrow Hacct]. by exists row.
  - intros (row & Hrow & Hacct). exists (k, row). split; [done|].
    apply elem_of_map_to_list. by apply map_lookup_filter_Some.
Qed.

Lemma NoDup_zone_ids_of account st : NoDup (zone_ids_of account st).
Proof. apply NoDup_fst_map_to_list. Qed.

Lemma NoDup_zone_records zone_id st : NoDup (zone_records zone_id st).
Proof. apply NoDup_fst_map_to_list. Qed.

Lemma zone_records_nil zone_id st : no_children zone_id st -> zone_records zone_id st = [].
Proof.
  intros Hno. destruct (zone_records zone_id st) as [|k ks] eqn:Hks; [done|].
  assert (k ∈ zone_records zone_id st) as Hk by (rewrite Hks; left).
  apply elem_of_zone_records in Hk as (row & Hrow & Hzone). by destruct (Hno _ _ Hrow).
Qed.

(** Stores with the same records attached to a zone list them alike. *)
Lemma same_children_zone_records zone_id st st' :
  same_children zone_id st st' -> zone_records zone_id st = zone_records zone_id st'.
Proof.
  intros Hsame. unfold zone_records. do 2 f_equal. apply map_eq. intros k.
  apply option_eq. intros row. rewrite !map_lookup_filter_Some. simpl.
  split; intros [Hrow Hzone]; (split; [by apply (Hsame k row Hzone)|done]).
Qed.

Lemma same_children_refl zone_id st : same_children zone_id st st.
Proof. by intros k row. Qed.

Lemma same_children_trans zone_id st1 st2 st3 :
  same_children zone_id st1 st2 -> same_children zone_id st2 st3 ->
  same_children zone_id st1 st3.
Proof.
  intros H12 H23 k row Hzone. split; intros Hrow.
  - by apply (H23 k row Hzone), (H12 k row Hzone).
  - by apply (H12 k row Hzone), (H23 k row Hzone).
Qed.

Lemma difference_elem k existing snapshot :
  k ∈ difference existing snapshot <-> k ∈ existing /\ k ∉ snapshot.
Proof. unfold difference. by rewrite list_elem_of_filter, (comm _ (k ∈ existing)). Qed.

(** ** The zone phase: deleting the zones the snapshot does not list *)

Ltac run_ops :=
  unfold update_zone, upsert_record, record_pass_failed,
    db_commit, db_rollback, log_exception, DNSZone_get_all, DNSZone_get,
    DNSZone_update, session_add, DNSZone_create, DNSRecord_update, DNSRecord_create,
    add_record, delete_record, delete_zone;
  unfold storage_call; munfold; simpl.

Ltac crush :=
  run_ops; repeat (case_match; simplify_eq/=; try done); try done.

Section ZonePhase.
Context `{Faults}.

Lemma for_each_delete_record ids : forall s,
  for_each ids delete_record s = (Ok tt, deleted_records ids s).
Proof.
  induction ids as [|rid ids IH]; intros s.
  - unfold deleted_records. simpl. rewrite app_nil_r. by destruct s as [? []].
  - cbn [for_each]. 
    rewrite (bind_Ok (delete_record rid) _ s tt (with_write (DeleteRecord rid)
                (with_records (delete rid (st_records (session s))) s))) by done.
    rewrite IH. unfold deleted_records. simpl. by rewrite <- (assoc_L _).
Qed.

Lemma remove_zone_run resource_id s :
  remove_zone resource_id s = (Ok tt, removed_zone resource_id s).
Proof.
  unfold remove_zone.
  rewrite (bind_Ok _ _ s (zone_records resource_id (session s)) s) by done.
  rewrite (bind_Ok _ _ s tt _ (for_each_delete_record _ s)).
  unfold removed_zone, delete_zone, with_write, with_zones, with_session, deleted_records.
  munfold. simpl. by rewrite <- (assoc_L _).
Qed.

Lemma for_each_remove_zone ids : forall s,
  for_each ids remove_zone s = (Ok tt, removed_zones ids s).
Proof.
  induction ids as [|rid ids IH]; intros s; [done|].
  cbn [for_each]. rewrite (bind_Ok _ _ s tt _ (remove_zone_run rid s)). apply IH.
Qed.

Lemma delete_all_subseteq ids (m : gmap string record_row) : delete_all ids m ⊆ m.
Proof.
  apply map_subseteq_spec. intros k row. rewrite delete_all_lookup. by case_decide.
Qed.

Lemma shrinks_refl st : shrinks st st.
Proof. by split. Qed.

Lemma shrinks_trans st1 st2 st3 : shrinks st1 st2 -> shrinks st2 st3 -> shrinks st1 st3.
Proof. intros [? ?] [? ?]. split; by etrans. Qed.

Lemma removed_zone_shrinks resource_id s :
  shrinks (session s) (session (removed_zone resource_id s)).
Proof. split; simpl; [apply delete_subseteq|apply delete_all_subseteq]. Qed.

Lemma removed_zones_shrinks ids : forall s, shrinks (session s) (session (removed_zones ids s)).
Proof.
  induction ids as [|rid ids IH]; intros s; [apply shrinks_refl|].
  simpl. eapply shrinks_trans; [apply removed_zone_shrinks|apply IH].
Qed.

Lemma shrinks_gone zone_id st st' : shrinks st st' -> gone zone_id st -> gone zone_id st'.
Proof.
  intros [Hz Hr] [Hzone Hno]. split.
  - by eapply lookup_weaken_None.
  - intros k row Hrow. apply (Hno k). by eapply lookup_weaken.
Qed.

(** Deleting another zone leaves the records attached to this one. *)
Lemma removed_zone_same_children zone_id resource_id s :
  resource_id ≠ zone_id ->
  same_children zone_id (session s) (session (removed_zone resource_id s)).
Proof.
  intros Hne k row Hzone. simpl. rewrite delete_all_lookup.
  case_decide as Hin; [|done].
  apply elem_of_zone_records in Hin as (row' & Hrow' & Hzone').
  split; [|done]. intros Hrow. congruence.
Qed.

Lemma removed_zones_same_children zone_id ids : forall s,
  zone_id ∉ ids ->
  same_children zone_id (session s) (session (removed_zones ids s)).
Proof.
  induction ids as [|rid ids IH]; intros s Hnot; [apply same_children_refl|].
  apply not_elem_of_cons in Hnot as [Hne Hnot]. simpl.
  apply (same_children_trans _ _ (session (removed_zone rid s)));
    [apply removed_zone_same_children; by intros ->|by apply IH].
Qed.

(** Deleting the zone deletes it and every record attached to it. *)
Lemma removed_zone_gone zone_id s : gone zone_id (session (removed_zone zone_id s)).
Proof.
  split; simpl; [apply lookup_delete_eq|].
  intros k row. simpl. rewrite delete_all_lookup. case_decide as Hin; [done|].
  intros Hrow Hzone. apply Hin, elem_of_zone_records. by exists row.
Qed.

Lemma removed_zones_writes ids : forall s,
  exists w, writes (removed_zones ids s) = writes s ++ w.
Proof.
  induction ids as [|rid ids IH]; intros s; [exists []; by rewrite app_nil_r|].
  simpl. destruct (IH (removed_zone rid s)) as [w Hw]. eexists.
  rewrite Hw. simpl. by rewrite <- !(assoc_L _).
Qed.

Lemma removed_zones_committed ids : forall s,
  committed (removed_zones ids s) = committed s.
Proof. induction ids as [|rid ids IH]; intros s; [done|]. simpl. by rewrite IH. Qed.

(** The second loop of the zone phase, for a zone it has to delete: the
    zone's records are deleted, then the zone, and none of them is left. *)
Lemma removed_zones_cascade zone_id ids s :
  NoDup ids -> zone_id ∈ ids ->
  gone zone_id (session (removed_zones ids s)) /\
  (forall rid, rid ∈ zone_records zone_id (session s) ->
     st_records (session (removed_zones ids s)) !! rid = None) /\
  exists before after,
    writes (removed_zones ids s)
    = writes s ++ before ++ (DeleteRecord <$> zone_records zone_id (session s))
               ++ [DeleteZone zone_id] ++ after.
Proof.
  intros Hnd Hin. apply list_elem_of_split in Hin as (ids1 & ids2 & ->).
  apply NoDup_app in Hnd as (_ & Hnot & _).
  assert (zone_id ∉ ids1) as Hnot1.
  { intros Hin1. apply (Hnot _ Hin1). left. }
  unfold removed_zones. rewrite foldl_app. cbn [foldl].
  fold (removed_zones ids1 s). set (s1 := removed_zones ids1 s).
  fold (removed_zones ids2 (removed_zone zone_id s1)).
  pose proof (removed_zones_same_children zone_id ids1 s Hnot1) as Hsame.
  apply same_children_zone_records in Hsame. fold s1 in Hsame.
  pose proof (removed_zones_shrinks ids2 (removed_zone zone_id s1)) as Hshrink.
  split_and!.
  - eapply shrinks_gone; [exact Hshrink|apply removed_zone_gone].
  - intros rid Hrid. destruct Hshrink as [_ Hrecords].
    eapply lookup_weaken_None; [|exact Hrecords]. simpl.
    rewrite delete_all_lookup, decide_True; [done|]. by rewrite <- Hsame.
  - destruct (removed_zones_writes ids1 s) as [before Hbefore]. fold s1 in Hbefore.
    destruct (removed_zones_writes ids2 (removed_zone zone_id s1)) as [after Hafter].
    exists before, after. rewrite Hafter. simpl. rewrite Hbefore, Hsame.
    by rewrite <- !(assoc_L _).
Qed.

End ZonePhase.

(** ** What the phases leave alone *)

Ltac solve_appends :=
  first [ by (exists []; rewrite app_nil_r)
        | by (eexists; rewrite <- ?(assoc_L (++))) ].

Lemma triple_try_except {S A} (P : S -> Prop) (P' : exn -> S -> Prop) (m : M S A)
    (handler : exn -> M S A) (Q : outcome A -> S -> Prop) :
  triple P m (fun r s' => match r with
                          | Raise e => P' e s'
                          | Ok a => Q (Ok a) s'
                          | Diverge => Q Diverge s'
                          end) ->
  (forall e, triple (P' e) (handler e) Q) ->
  triple P (try_except m handler) Q.
Proof.
  intros Hm Hh s HP. specialize (Hm s HP). unfold try_except.
  destruct (m s) as [[a|e|] s1]; simpl in *; [done|by apply Hh|done].
Qed.

Section Frame.
Context `{Faults}.

Lemma storage_call_appends : appends storage_call.
Proof. intros s. crush; solve_appends. Qed.
Lemma db_commit_appends : appends db_commit.
Proof. intros s. crush; solve_appends. Qed.
Lemma DNSZone_get_all_appends account : appends (DNSZone_get_all account).
Proof. intros s. crush; solve_appends. Qed.
Lemma update_zone_appends account existing data : appends (update_zone account existing data).
Proof. intros s. crush; solve_appends. Qed.
Lemma upsert_record_appends account zone_id existing data :
  appends (upsert_record account zone_id existing data).
Proof. intros s. crush; solve_appends. Qed.
Lemma DNSZone_get_appends resource_id : appends (DNSZone_get resource_id).
Proof. intros s. crush; solve_appends. Qed.
Lemma delete_record_appends resource_id : appends (delete_record resource_id).
Proof. intros s. crush; solve_appends. Qed.
Lemma record_pass_failed_appends zone e : appends (record_pass_failed zone e).
Proof. intros s. crush; solve_appends. Qed.

Lemma record_pass_appends account zone : appends (record_pass account zone).
Proof.
  unfold record_pass, upsert_records, prune_records.
  apply appends_bind.
  - apply appends_bind; [apply DNSZone_get_appends|]. intros [zone_ref|]; [|apply appends_raise].
    apply appends_bind; [apply appends_gets|]. intros existing.
    apply appends_bind; [apply appends_for_each; intros; apply upsert_record_appends|].
    intros _. apply appends_bind; [apply db_commit_appends|]. intros _. apply appends_ret.
  - intros existing. apply appends_bind; [|intros; apply db_commit_appends].
    apply appends_for_each. apply delete_record_appends.
Qed.

Lemma record_phase_appends zones account : appends (record_phase zones account).
Proof.
  unfold record_phase. apply appends_for_each. intros zone.
  apply appends_try_except; [apply record_pass_appends|apply record_pass_failed_appends].
Qed.

(** The first loop of the zone phase does not touch the records. *)
Lemma update_zone_keeps_records account existing data :
  keeps (fun s => st_records (session s)) (update_zone account existing data).
Proof. intros s. crush. Qed.

Lemma gone_for_good_intro {A} zone_id (m : M db A) :
  keeps committed m ->
  (forall s, gone zone_id (session s) -> gone zone_id (session (m s).2)) ->
  triple (gone_for_good zone_id) m (fun _ s' => gone_for_good zone_id s').
Proof. intros Hc Hs s [Hsession Hcommitted]. split; [by apply Hs|by rewrite Hc]. Qed.

Lemma DNSRecord_update_gone zone_id resource_id data s :
  gone zone_id (session s) ->
  gone zone_id (session (DNSRecord_update resource_id data s).2).
Proof.
  intros [Hzone Hno]. crush. split; [done|]. intros k row. simpl.
  destruct (decide (k = resource_id)) as [->|Hne].
  - rewrite lookup_insert_eq. intros [= <-]. simpl. by eapply Hno.
  - rewrite lookup_insert_ne by done. apply Hno.
Qed.

Lemma DNSRecord_create_gone zone_id account data s :
  gone zone_id (session s) ->
  gone zone_id (session (DNSRecord_create account data s).2).
Proof.
  intros [Hzone Hno]. crush. split; [done|]. intros k row. simpl.
  destruct (decide (k = r_id data)) as [->|Hne].
  - rewrite lookup_insert_eq. by intros [= <-].
  - rewrite lookup_insert_ne by done. apply Hno.
Qed.

Lemma add_record_gone zone_id existing_zone resource_id s :
  existing_zone ≠ zone_id ->
  gone zone_id (session s) ->
  gone zone_id (session (add_record existing_zone resource_id s).2).
Proof.
  intros Hne [Hzone Hno]. crush. split; [done|]. intros k row. simpl.
  destruct (decide (k = resource_id)) as [->|Hne'].
  - rewrite lookup_alter_eq. destruct (st_records (session s) !! resource_id); [|done].
    simpl. intros [= <-]. simpl. congruence.
  - rewrite lookup_alter_ne by done. apply Hno.
Qed.

Lemma delete_record_gone zone_id resource_id s :
  gone zone_id (session s) ->
  gone zone_id (session (delete_record resource_id s).2).
Proof.
  intros [Hzone Hno]. crush. split; [done|]. intros k row. simpl.
  intros Hrow. apply (Hno k). by eapply lookup_weaken, delete_subseteq.
Qed.

End Frame.

(** The rule for an invariant: the rest of the computation may rely on the
    value being one that [m] returns. *)
Lemma triple_inv_bind {S A B} (I : S -> Prop) (m : M S A) (k : A -> M S B) :
  triple I m (fun _ s' => I s') ->
  (forall a, (exists s s', I s /\ m s = (Ok a, s')) -> triple I (k a) (fun _ s' => I s')) ->
  triple I (m ≫= k) (fun _ s' => I s').
Proof.
  intros Hm Hk s HI. specialize (Hm s HI). munfold.
  destruct (m s) as [[a| |] s1] eqn:Hrun; simpl in *; [|done..].
  apply Hk; [by exists s, s1|done].
Qed.

Lemma triple_inv_ret {S A} (I : S -> Prop) (a : A) : triple I (mret a) (fun _ s' => I s').
Proof. by intros s. Qed.

Lemma triple_inv_raise {S A} (I : S -> Prop) e : triple I (raise e : M S A) (fun _ s' => I s').
Proof. by intros s. Qed.

Lemma triple_inv_gets {S A} (I : S -> Prop) (g : S -> A) :
  triple I (gets g) (fun _ s' => I s').
Proof. by intros s. Qed.

Lemma triple_inv_try_except {S A} (I : S -> Prop) (m : M S A) (handler : exn -> M S A) :
  triple I m (fun _ s' => I s') ->
  (forall e, triple I (handler e) (fun _ s' => I s')) ->
  triple I (try_except m handler) (fun _ s' => I s').
Proof.
  intros Hm Hh. apply (triple_try_except _ (fun _ => I)); [|done].
  intros s HI. specialize (Hm s HI). by destruct (m s) as [[a|e|] s1].
Qed.

Section GoneForGood.
Context `{Faults}.
Variable zone_id : string.

Local Abbreviation stays_gone m := (triple (gone_for_good zone_id) m (fun _ s' => gone_for_good zone_id s')).

Lemma DNSZone_get_Some resource_id s zone_ref s' :
  DNSZone_get resource_id s = (Ok (Some zone_ref), s') -> zone_ref = resource_id.
Proof. run_ops. repeat case_match; intros; by simplify_eq/=. Qed.

Lemma DNSZone_get_gone resource_id : stays_gone (DNSZone_get resource_id).
Proof. intros s Hgone. crush. Qed.

Lemma db_commit_gone : stays_gone db_commit.
Proof. intros s [Hs Hc]. crush. Qed.

Lemma record_pass_failed_gone zone e : stays_gone (record_pass_failed zone e).
Proof. intros s [Hs Hc]. crush. Qed.

Lemma delete_record_stays_gone resource_id : stays_gone (delete_record resource_id).
Proof.
  apply gone_for_good_intro; [apply delete_record_keeps_committed|].
  intros s. apply delete_record_gone.
Qed.

Lemma upsert_record_gone account existing_zone existing_records data :
  existing_zone ≠ zone_id ->
  stays_gone (upsert_record account existing_zone existing_records data).
Proof.
  intros Hne. unfold upsert_record. case_bool_decide.
  - apply triple_inv_bind.
    + apply gone_for_good_intro; [apply DNSRecord_update_keeps_committed|].
      intros s. apply DNSRecord_update_gone.
    + intros [] _; [apply triple_inv_raise|apply triple_inv_ret].
  - apply triple_inv_bind.
    + apply gone_for_good_intro; [apply DNSRecord_create_keeps_committed|].
      intros s. apply DNSRecord_create_gone.
    + intros _ _. apply gone_for_good_intro; [apply add_record_keeps_committed|].
      intros s. by apply add_record_gone.
Qed.

(** A pass over another zone, with its [except] clause, leaves the zone
    gone. *)
Lemma record_pass_gone account zone :
  z_zone_id zone ≠ zone_id ->
  stays_gone (try_except (record_pass account zone) (record_pass_failed zone)).
Proof.
  intros Hne. apply triple_inv_try_except; [|apply record_pass_failed_gone].
  unfold record_pass. apply triple_inv_bind.
  - unfold upsert_records. apply triple_inv_bind; [apply DNSZone_get_gone|].
    intros [zone_ref|] (s & s' & _ & Hget); [|apply triple_inv_raise].
    apply DNSZone_get_Some in Hget as ->.
    apply triple_inv_bind; [apply triple_inv_gets|]. intros existing _.
    apply triple_inv_bind.
    + apply triple_for_each. intros data _. by apply upsert_record_gone.
    + intros _ _. apply triple_inv_bind; [apply db_commit_gone|].
      intros _ _. apply triple_inv_ret.
  - intros existing _. unfold prune_records. apply triple_inv_bind.
    + apply triple_for_each. intros rid _. apply delete_record_stays_gone.
    + intros _ _. apply db_commit_gone.
Qed.

Lemma record_phase_gone zones account :
  zone_id ∉ map z_zone_id zones ->
  stays_gone (record_phase zones account).
Proof.
  intros Hnot. unfold record_phase. apply triple_for_each. intros zone Hzone.
  apply record_pass_gone. intros Heq. apply Hnot. rewrite <- Heq.
  apply list_elem_of_fmap. by exists zone.
Qed.

End GoneForGood.

(** ** Zone deletion *)

Section ZoneDeletion.
Context `{Faults}.

Lemma db_commit_Ok s s' :
  db_commit s = (Ok tt, s') ->
  committed s' = session s /\ session s' = session s /\
  writes s' = writes s /\ logged s' = logged s.
Proof. run_ops. repeat case_match; intros; by simplify_eq/=. Qed.

Lemma DNSZone_get_all_Ok account s existing s' :
  DNSZone_get_all account s = (Ok existing, s') ->
  existing = zone_ids_of account (session s) /\
  committed s' = committed s /\ session s' = session s /\
  writes s' = writes s /\ logged s' = logged s.
Proof. run_ops. repeat case_match; intros; by simplify_eq/=. Qed.

(** The steps of a zone phase that returns. *)
Lemma zone_phase_Ok_inv zones account s s' :
  zone_phase zones account s = (Ok tt, s') ->
  exists s0 s1 s2,
    DNSZone_get_all account s = (Ok (zone_ids_of account (session s)), s0) /\
    for_each zones (update_zone account (zone_ids_of account (session s))) s0 = (Ok tt, s1) /\
    db_commit s1 = (Ok tt, s2) /\
    db_commit (removed_zones
                 (difference (zone_ids_of account (session s)) (map z_zone_id zones)) s2)
    = (Ok tt, s').
Proof.
  unfold zone_phase. intros Hrun.
  apply bind_Ok_inv in Hrun as (existing & s0 & Hall & Hrun).
  destruct (DNSZone_get_all_Ok _ _ _ _ Hall) as (-> & _).
  apply bind_Ok_inv in Hrun as ([] & s1 & Hloop & Hrun).
  apply bind_Ok_inv in Hrun as ([] & s2 & Hcommit & Hrun).
  apply bind_Ok_inv in Hrun as ([] & s3 & Hremove & Hrun).
  rewrite for_each_remove_zone in Hremove. injection Hremove as <-.
  by exists s0, s1, s2.
Qed.

Lemma zone_records_same_records zone_id st st' :
  st_records st = st_records st' -> zone_records zone_id st = zone_records zone_id st'.
Proof. unfold zone_records. by intros ->. Qed.

Lemma zone_phase_cascade zones account s s' zone_id row :
  zone_phase zones account s = (Ok tt, s') ->
  st_zones (session s) !! zone_id = Some row ->
  zr_account_id row = account_id account ->
  zone_id ∉ map z_zone_id zones ->
  gone_for_good zone_id s' /\
  (forall rid, rid ∈ zone_records zone_id (session s) ->
     st_records (committed s') !! rid = None) /\
  exists before after,
    writes s'
    = writes s ++ before ++ (DeleteRecord <$> zone_records zone_id (session s))
               ++ [DeleteZone zone_id] ++ after.
Proof.
  intros Hrun Hrow Hacct Hnot.
  apply zone_phase_Ok_inv in Hrun as (s0 & s1 & s2 & Hall & Hloop & Hcommit1 & Hcommit2).
  set (existing := zone_ids_of account (session s)) in *.
  set (orphans := difference existing (map z_zone_id zones)) in *.
  apply DNSZone_get_all_Ok in Hall as (_ & _ & Hs0 & Hw0 & _).
  assert (st_records (session s1) = st_records (session s0)) as Hrecords.
  { pose proof (keeps_for_each (fun s => st_records (session s)) zones
                  (update_zone account existing)
                  (fun data _ => update_zone_keeps_records account existing data) s0) as Hk.
    by rewrite Hloop in Hk. }
  destruct (appends_for_each zones (update_zone account existing)
              (update_zone_appends account existing) s0) as [w1 Hw1].
  rewrite Hloop in Hw1. simpl in Hw1.
  apply db_commit_Ok in Hcommit1 as (_ & Hs2 & Hw2 & _).
  apply db_commit_Ok in Hcommit2 as (Hc' & Hs' & Hw' & _).
  assert (zone_records zone_id (session s2) = zone_records zone_id (session s)) as Hsame.
  { apply zone_records_same_records. by rewrite Hs2, Hrecords, Hs0. }
  assert (NoDup orphans) as Hnd by apply NoDup_filter, NoDup_zone_ids_of.
  assert (zone_id ∈ orphans) as Hin.
  { apply difference_elem. split; [|done]. apply elem_of_zone_ids_of. by exists row. }
  destruct (removed_zones_cascade zone_id orphans s2 Hnd Hin)
    as (Hgone & Habsent & before & after & Hwrites).
  split_and!.
  - split; [by rewrite Hs'|by rewrite Hc'].
  - intros rid Hrid. rewrite Hc'. apply Habsent. by rewrite Hsame.
  - exists (w1 ++ before), after.
    rewrite Hw', Hwrites, Hsame, Hw2, Hw1, Hw0. by rewrite <- !(assoc_L _).
Qed.

(** C5. Zone deletion cascades. When [process_zones] returns, a zone that
    was stored for the account and that the snapshot does not list is gone
    with the records attached to it: its records were deleted first, then
    the zone; the zone phase has committed the deletion, and at the end of
    the run neither the zone nor a record attached to it is stored. *)
Theorem zone_deletion_cascades zones account s s' zone_id row :
  process_zones zones account s = (Ok tt, s') ->
  st_zones (session s) !! zone_id = Some row ->
  zr_account_id row = account_id account ->
  zone_id ∉ map z_zone_id zones ->
  (exists s1,
     zone_phase zones account s = (Ok tt, s1) /\
     st_zones (committed s1) !! zone_id = None /\
     forall rid, rid ∈ zone_records zone_id (session s) ->
       st_records (committed s1) !! rid = None) /\
  st_zones (committed s') !! zone_id = None /\
  st_zones (session s') !! zone_id = None /\
  zone_records zone_id (committed s') = [] /\
  zone_records zone_id (session s') = [] /\
  exists before after,
    writes s'
    = writes s ++ before ++ (DeleteRecord <$> zone_records zone_id (session s))
               ++ [DeleteZone zone_id] ++ after.
Proof.
  intros Hrun Hrow Hacct Hnot. unfold process_zones in Hrun.
  apply bind_Ok_inv in Hrun as ([] & s1 & Hzone & Hrecords).
  destruct (zone_phase_cascade _ _ _ _ _ _ Hzone Hrow Hacct Hnot)
    as (Hgone & Habsent & before & after & Hwrites).
  pose proof (record_phase_gone zone_id zones account Hnot s1 Hgone) as Hend.
  rewrite Hrecords in Hend. destruct Hend as [[Hzs Hns] [Hzc Hnc]].
  destruct (record_phase_appends zones account s1) as [w Hw]. rewrite Hrecords in Hw.
  split_and!; [|done|done|by apply zone_records_nil..|].
  - exists s1. split_and!; [done|by destruct Hgone as [_ [? _]]|done].
  - exists before, (after ++ w). simpl in Hw. rewrite Hw, Hwrites.
    by rewrite <- !(assoc_L _).
Qed.

End ZoneDeletion.

Lemma orphan_run_returns :
  @process_zones no_faults [other_zone] sample_account (db_of abc_store)
  = (Ok tt, orphan_run.2).
Proof. vm_compute. reflexivity. Defined.

Lemma zone_deletion_cascades_witness :
  st_zones (committed orphan_run.2) !! "zone-1" = None /\
  st_zones (session orphan_run.2) !! "zone-1" = None /\
  zone_records "zone-1" (committed orphan_run.2) = [] /\
  zone_records "zone-1" (session orphan_run.2) = [] /\
  exists before after,
    writes orphan_run.2
    = writes (db_of abc_store) ++ before
      ++ (DeleteRecord <$> zone_records "zone-1" (session (db_of abc_store)))
      ++ [DeleteZone "zone-1"] ++ after.
Proof.
  refine (proj2 (@zone_deletion_cascades no_faults [other_zone] sample_account
                   (db_of abc_store) orphan_run.2 "zone-1" (stored_zone "example.com")
                   orphan_run_returns _ _ _)).
  - reflexivity.
  - reflexivity.
  - intros Hin. apply list_elem_of_singleton in Hin. discriminate Hin.
Defined.

(** ** A store that agrees with the snapshot is left alone *)

Section Settled.
Context `{Faults}.
Variables (zones : list zone_data) (account : Account) (st : store) (w : list write).
Hypothesis Hsynced : synced zones account st.

Local Abbreviation stays m := (triple (settled st w) m (fun _ s' => settled st w s')).

Lemma store_eta (st' : store) : {| st_zones := st_zones st'; st_records := st_records st' |} = st'.
Proof. by destruct st'. Qed.

Lemma db_commit_settled : stays db_commit.
Proof. intros s (Hs & Hc & Hw). crush. Qed.

Lemma DNSZone_get_all_settled : stays (DNSZone_get_all account).
Proof. intros s (Hs & Hc & Hw). crush. Qed.

Lemma DNSZone_get_settled resource_id : stays (DNSZone_get resource_id).
Proof. intros s (Hs & Hc & Hw). crush. Qed.

Lemma record_pass_failed_settled zone e : stays (record_pass_failed zone e).
Proof. intros s (Hs & Hc & Hw). crush. Qed.

Lemma update_zone_settled data :
  data ∈ zones -> stays (update_zone account (zone_ids_of account st) data).
Proof.
  intros Hin s (Hs & Hc & Hw).
  destruct Hsynced as [Hzones _]. destruct (Hzones _ Hin) as [(row & Hrow & Hacct & Hupd) _].
  unfold update_zone. rewrite bool_decide_eq_true_2
    by (apply elem_of_zone_ids_of; by exists row).
  run_ops. destruct (storage_fault (calls s)); [done|]. simpl.
  rewrite Hs, Hrow. simpl. rewrite Hrow, Hupd. simpl.
  rewrite bool_decide_eq_false_2 by (by intros []).
  simpl. unfold settled, with_zones, with_session. simpl.
  rewrite insert_id by done. by rewrite store_eta.
Qed.

Lemma upsert_record_settled zone data :
  zone ∈ zones -> data ∈ z_records zone ->
  stays (upsert_record account (z_zone_id zone) (zone_records (z_zone_id zone) st) data).
Proof.
  intros Hin Hdata s (Hs & Hc & Hw).
  destruct Hsynced as [Hzones _]. destruct (Hzones _ Hin) as [_ [Hrecs _]].
  destruct (Hrecs _ Hdata) as (row & Hrow & Hzone & Hupd).
  unfold upsert_record. rewrite bool_decide_eq_true_2
    by (apply elem_of_zone_records; by exists row).
  run_ops. rewrite Hs, Hrow, Hupd. simpl.
  rewrite bool_decide_eq_false_2 by (by intros []).
  simpl. unfold settled, with_records, with_session. simpl.
  rewrite ?Hs, insert_id by done. by rewrite store_eta.
Qed.

Lemma no_orphan_zones : difference (zone_ids_of account st) (map z_zone_id zones) = [].
Proof.
  apply filter_none. intros k Hk Hnot. apply Hnot.
  apply elem_of_zone_ids_of in Hk as (row & Hrow & Hacct).
  destruct Hsynced as [_ Hall]. by apply (Hall k row).
Qed.

Lemma no_orphan_records zone :
  zone ∈ zones ->
  difference (zone_records (z_zone_id zone) st) (map r_id (z_records zone)) = [].
Proof.
  intros Hin. apply filter_none. intros k Hk Hnot. apply Hnot.
  apply elem_of_zone_records in Hk as (row & Hrow & Hzone).
  destruct Hsynced as [Hzones _]. destruct (Hzones _ Hin) as [_ [_ Honly]].
  by apply (Honly k row).
Qed.

Lemma zone_phase_settled : stays (zone_phase zones account).
Proof.
  unfold zone_phase. apply triple_inv_bind; [apply DNSZone_get_all_settled|].
  intros existing (s & s' & (Hs & _) & Hall).
  apply DNSZone_get_all_Ok in Hall as (-> & _). rewrite Hs.
  apply triple_inv_bind.
  { apply triple_for_each. intros data Hdata. by apply update_zone_settled. }
  intros _ _. apply triple_inv_bind; [apply db_commit_settled|].
  intros _ _. rewrite no_orphan_zones. apply triple_inv_bind; [by intros ?|].
  intros _ _. apply db_commit_settled.
Qed.

Lemma record_pass_settled zone :
  zone ∈ zones -> stays (record_pass account zone).
Proof.
  intros Hin. unfold record_pass, upsert_records.
  apply triple_inv_bind.
  - apply triple_inv_bind; [apply DNSZone_get_settled|].
    intros [zone_ref|] (s & s' & _ & Hget); [|apply triple_inv_raise].
    apply DNSZone_get_Some in Hget as ->.
    apply triple_inv_bind; [apply triple_inv_gets|].
    intros existing (s0 & s0' & (Hs & _) & Hgets). injection Hgets as <- _. rewrite Hs.
    apply triple_inv_bind.
    { apply triple_for_each. intros data Hdata. by apply upsert_record_settled. }
    intros _ _. apply triple_inv_bind; [apply db_commit_settled|].
    intros _ _. apply triple_inv_ret.
  - intros existing (s & s' & Hset & Hup).
    apply bind_Ok_inv in Hup as (zone_ref & s1 & Hget & Hup).
    pose proof (DNSZone_get_settled (z_zone_id zone) s Hset) as Hs1.
    rewrite Hget in Hs1. simpl in Hs1. destruct Hs1 as (Hs1 & _).
    destruct zone_ref as [zone_ref|]; [|done].
    apply DNSZone_get_Some in Hget as ->.
    apply bind_Ok_inv in Hup as (existing' & s2 & Hgets & Hup).
    injection Hgets as <- <-.
    apply bind_Ok_inv in Hup as ([] & s3 & _ & Hup).
    apply bind_Ok_inv in Hup as ([] & s4 & _ & Hup).
    injection Hup as <- _. rewrite Hs1.
    unfold prune_records. rewrite no_orphan_records by done.
    apply triple_inv_bind; [by intros ?|]. intros _ _. apply db_commit_settled.
Qed.

Lemma process_zones_settled : stays (process_zones zones account).
Proof.
  unfold process_zones. apply triple_inv_bind; [apply zone_phase_settled|].
  intros _ _. unfold record_phase. apply triple_for_each. intros zone Hzone.
  apply triple_inv_try_except; [by apply record_pass_settled|].
  intros e. apply record_pass_failed_settled.
Qed.

End Settled.

(** ** After a run without failure the store agrees with the snapshot *)

Section ZoneSync.
Context `{Faults}.

Lemma update_zone_keeps_logged account existing data :
  keeps logged (update_zone account existing data).
Proof. intros s. crush. Qed.

Lemma upsert_record_keeps_logged account zone_id existing data :
  keeps logged (upsert_record account zone_id existing data).
Proof. intros s. crush. Qed.

Lemma delete_record_keeps_logged resource_id : keeps logged (delete_record resource_id).
Proof. intros s. crush. Qed.

Lemma db_commit_keeps_logged : keeps logged db_commit.
Proof. intros s. crush. Qed.

Lemma DNSZone_get_keeps_logged resource_id : keeps logged (DNSZone_get resource_id).
Proof. intros s. crush. Qed.

Lemma record_pass_keeps_logged account zone : keeps logged (record_pass account zone).
Proof.
  unfold record_pass, upsert_records, prune_records. apply keeps_bind.
  - apply keeps_bind; [apply DNSZone_get_keeps_logged|]. intros [zone_ref|]; [|apply keeps_raise].
    apply keeps_bind; [apply keeps_gets|]. intros existing.
    apply keeps_bind; [apply keeps_for_each; intros; apply upsert_record_keeps_logged|].
    intros _. apply keeps_bind; [apply db_commit_keeps_logged|]. intros _. apply keeps_ret.
  - intros existing. apply keeps_bind; [|intros; apply db_commit_keeps_logged].
    apply keeps_for_each. intros. apply delete_record_keeps_logged.
Qed.

(** What a step of the first loop that returns has done: updated the
    stored zone in place, or created the zone, which was not stored. *)
Lemma update_zone_Ok account existing data s s' :
  update_zone account existing data s = (Ok tt, s') ->
  (z_zone_id data ∈ existing /\
   exists row, st_zones (session s) !! z_zone_id data = Some row /\
     st_zones (session s') = <[z_zone_id data := zone_updated data row]> (st_zones (session s)))
  \/
  ((z_zone_id data ∉ existing) /\
   st_zones (session s) !! z_zone_id data = None /\
   st_zones (session s') = <[z_zone_id data := new_zone account data]> (st_zones (session s))).
Proof.
  unfold update_zone. case_bool_decide as Hin.
  - run_ops. repeat case_match; intros; simplify_eq/=; left; (split; [done|]); eauto.
  - run_ops. repeat case_match; intros; simplify_eq/=. right. by split.
Qed.

Lemma zone_updated_idem data row : zone_updated data (zone_updated data row) = zone_updated data row.
Proof. done. Qed.

Lemma zone_updated_new_zone account data : zone_updated data (new_zone account data) = new_zone account data.
Proof. done. Qed.

Lemma zones_done_nil account st : zones_done account (zone_ids_of account st) [] st.
Proof.
  split_and!.
  - intros zone Hzone. by apply elem_of_nil in Hzone.
  - intros k Hk. by apply elem_of_zone_ids_of.
  - intros k row Hrow Hacct. left. apply elem_of_zone_ids_of. by exists row.
Qed.

Lemma zones_done_step account existing done data s s' :
  z_zone_id data ∉ map z_zone_id done ->
  zones_done account existing done (session s) ->
  update_zone account existing data s = (Ok tt, s') ->
  zones_done account existing (done ++ [data]) (session s').
Proof.
  intros Hfresh (Hdone & Hexisting & Honly) Hrun.
  assert (forall zone, zone ∈ done -> z_zone_id zone ≠ z_zone_id data) as Hother.
  { intros zone Hzone Heq. apply Hfresh. rewrite <- Heq. apply list_elem_of_fmap. by exists zone. }
  apply update_zone_Ok in Hrun as [(Hin & row & Hrow & Hzones)|(Hnot & Hnone & Hzones)].
  - destruct (Hexisting _ Hin) as (row' & Hrow' & Hacct).
    assert (row' = row) as -> by congruence.
    split_and!.
    + intros zone [Hzone| ->%list_elem_of_singleton]%elem_of_app.
      * destruct (Hdone _ Hzone) as (zrow & Hzrow & ? & ?). exists zrow.
        rewrite Hzones, lookup_insert_ne by (by apply not_eq_sym, Hother). done.
      * exists (zone_updated data row). rewrite Hzones, lookup_insert_eq. done.
    + intros k Hk. rewrite Hzones. destruct (decide (k = z_zone_id data)) as [->|Hne].
      * exists (zone_updated data row). by rewrite lookup_insert_eq.
      * rewrite lookup_insert_ne by done. by apply Hexisting.
    + intros k zrow. rewrite Hzones. destruct (decide (k = z_zone_id data)) as [->|Hne].
      * intros _ _. by left.
      * rewrite lookup_insert_ne by done. intros Hzrow Hzacct.
        destruct (Honly _ _ Hzrow Hzacct) as [?|Hd]; [by left|right].
        rewrite fmap_app. apply elem_of_app. by left.
  - split_and!.
    + intros zone [Hzone| ->%list_elem_of_singleton]%elem_of_app.
      * destruct (Hdone _ Hzone) as (zrow & Hzrow & ? & ?). exists zrow.
        rewrite Hzones, lookup_insert_ne by (by apply not_eq_sym, Hother). done.
      * exists (new_zone account data). rewrite Hzones, lookup_insert_eq. done.
    + intros k Hk. rewrite Hzones. rewrite lookup_insert_ne by (by intros <-).
      by apply Hexisting.
    + intros k zrow. rewrite Hzones. destruct (decide (k = z_zone_id data)) as [->|Hne].
      * intros _ _. right. rewrite fmap_app. apply elem_of_app. right. by left.
      * rewrite lookup_insert_ne by done. intros Hzrow Hzacct.
        destruct (Honly _ _ Hzrow Hzacct) as [?|Hd]; [by left|right].
        rewrite fmap_app. apply elem_of_app. by left.
Qed.

Lemma NoDup_app_cons_fresh {A B} (f : A -> B) (done : list A) (x : A) (rest : list A) :
  NoDup (map f (done ++ x :: rest)) -> f x ∉ map f done.
Proof.
  rewrite map_app. intros (_ & Hdisj & _)%NoDup_app Hin.
  apply (Hdisj _ Hin). simpl. left.
Qed.

Lemma update_zones_done zones account existing s s' :
  NoDup (map z_zone_id zones) ->
  zones_done account existing [] (session s) ->
  for_each zones (update_zone account existing) s = (Ok tt, s') ->
  zones_done account existing zones (session s').
Proof.
  intros Hnd Hstart Hrun.
  apply (for_each_Ok_inv (fun done s => zones_done account existing done (session s))
           zones (update_zone account existing)) with (s := s); [|done|done].
  intros done data rest s1 s2 -> Hdone Hstep.
  eapply zones_done_step; [|done|done].
  by eapply NoDup_app_cons_fresh.
Qed.

Lemma removed_zones_lookup ids : forall s k,
  st_zones (session (removed_zones ids s)) !! k
  = if decide (k ∈ ids) then None else st_zones (session s) !! k.
Proof.
  induction ids as [|i ids IH]; intros s k; cbn [removed_zones foldl].
  - rewrite decide_False; [done|]. apply not_elem_of_nil.
  - fold (removed_zones ids (removed_zone i s)). rewrite IH. simpl.
    destruct (decide (k ∈ ids)) as [Hin|Hin].
    + rewrite decide_True; [done|by right].
    + destruct (decide (k = i)) as [->|Hne].
      * rewrite decide_True; [|by left]. apply lookup_delete_eq.
      * rewrite decide_False; [by apply lookup_delete_ne|].
        intros [?|?]%elem_of_cons; done.
Qed.

(** After a zone phase that returns, every zone of the snapshot is stored
    for the account with the snapshot's fields, the account has no other
    zone, and nothing is pending. *)
Lemma zone_phase_synced zones account s s' :
  NoDup (map z_zone_id zones) ->
  zone_phase zones account s = (Ok tt, s') ->
  (forall zone, zone ∈ zones -> zone_synced account zone (session s')) /\
  (forall k row, st_zones (session s') !! k = Some row ->
     zr_account_id row = account_id account -> k ∈ map z_zone_id zones) /\
  committed s' = session s' /\
  logged s' = logged s.
Proof.
  intros Hnd Hrun.
  assert (logged s' = logged s) as Hlogged.
  { assert (keeps logged (zone_phase zones account)) as Hk.
    { unfold zone_phase. apply keeps_bind; [intros s0; crush|]. intros existing.
      apply keeps_bind; [apply keeps_for_each; intros; apply update_zone_keeps_logged|].
      intros _. apply keeps_bind; [apply db_commit_keeps_logged|]. intros _.
      apply keeps_bind; [|intros; apply db_commit_keeps_logged].
      apply keeps_for_each. intros rid _ s0. by rewrite remove_zone_run. }
    specialize (Hk s). by rewrite Hrun in Hk. }
  apply zone_phase_Ok_inv in Hrun as (s0 & s1 & s2 & Hall & Hloop & Hcommit1 & Hcommit2).
  set (existing := zone_ids_of account (session s)) in *.
  set (orphans := difference existing (map z_zone_id zones)) in *.
  apply DNSZone_get_all_Ok in Hall as (_ & _ & Hs0 & _).
  apply update_zones_done in Hloop; [|done|rewrite Hs0; apply zones_done_nil].
  destruct Hloop as (Hdone & Hexisting & Honly).
  apply db_commit_Ok in Hcommit1 as (_ & Hs2 & _).
  apply db_commit_Ok in Hcommit2 as (Hc' & Hs' & _).
  split_and!; [| |congruence|done].
  - intros zone Hzone. destruct (Hdone _ Hzone) as (row & Hrow & Hacct & Hupd).
    exists row. split_and!; [|done..].
    rewrite Hs', removed_zones_lookup, decide_False, Hs2; [done|].
    intros [_ Hnot]%difference_elem. apply Hnot, list_elem_of_fmap. by exists zone.
  - intros k row. rewrite Hs', removed_zones_lookup.
    case_decide as Horphan; [done|]. rewrite Hs2. intros Hrow Hacct.
    destruct (Honly _ _ Hrow Hacct) as [Hk|Hk]; [|done].
    destruct (decide (k ∈ map z_zone_id zones)) as [?|Hnot]; [done|].
    destruct Horphan. by apply difference_elem.
Qed.

End ZoneSync.
Section RecordSync.
Context `{Faults}.

Lemma upsert_record_Ok account zone_id existing data s s' :
  upsert_record account zone_id existing data s = (Ok tt, s') ->
  st_zones (session s') = st_zones (session s) /\
  ((r_id data ∈ existing /\
    st_records (session s') = st_records (session s) /\
    forall row, st_records (session s) !! r_id data = Some row -> record_updated data row = row)
   \/
   ((r_id data ∉ existing) /\
    st_records (session s) !! r_id data = None /\
    st_records (session s')
    = <[r_id data := attached zone_id (new_record account data)]> (st_records (session s)))).
Proof.
  unfold upsert_record. case_bool_decide as Hin.
  - run_ops. repeat case_match; intros; simplify_eq/=.
    + match goal with Hb : bool_decide _ = false |- _ =>
        apply bool_decide_eq_false, dec_stable in Hb; rename Hb into Hsame end.
      split; [done|]. left. split_and!; [done| |].
      * rewrite Hsame. by apply insert_id.
      * by intros row [= <-].
    + split; [done|]. left. by split_and!.
  - run_ops. repeat case_match; intros; simplify_eq/=.
    split; [done|]. right. split_and!; [done..|].
    by rewrite alter_insert_eq.
Qed.

Lemma DNSZone_get_Ok resource_id s zone_ref s' :
  DNSZone_get resource_id s = (Ok zone_ref, s') ->
  session s' = session s /\ committed s' = committed s.
Proof. run_ops. repeat case_match; intros; by simplify_eq/=. Qed.

Lemma records_done_nil zone_id st :
  records_done zone_id (zone_records zone_id st) [] st st.
Proof.
  split_and!; [done| | | |].
  - intros data Hdata. by apply elem_of_nil in Hdata.
  - intros k row Hrow Hzone. left. apply elem_of_zone_records. by exists row.
  - intros k Hk. by apply elem_of_zone_records.
  - intros p _. apply same_children_refl.
Qed.

Lemma records_done_step account zone_id existing done data st0 s s' :
  records_done zone_id existing done st0 (session s) ->
  upsert_record account zone_id existing data s = (Ok tt, s') ->
  records_done zone_id existing (done ++ [data]) st0 (session s').
Proof.
  intros (Hzones & Hdone & Honly & Hexisting & Hframe) Hrun.
  apply upsert_record_Ok in Hrun
    as (Hz & [(Hin & Hrecords & Hsame)|(Hnot & Hnone & Hrecords)]).
  - split_and!.
    + congruence.
    + rewrite Hrecords.
      intros d [Hd| ->%list_elem_of_singleton]%elem_of_app; [by apply Hdone|].
      destruct (Hexisting _ Hin) as (row & Hrow & Hzone). exists row. split_and!; auto.
    + rewrite Hrecords. intros k row Hrow Hzone.
      destruct (Honly _ _ Hrow Hzone) as [?|?]; [by left|right].
      rewrite fmap_app. apply elem_of_app. by left.
    + rewrite Hrecords. done.
    + intros p Hp k row Hzone. rewrite Hrecords. exact (Hframe p Hp k row Hzone).
  - split_and!.
    + congruence.
    + rewrite Hrecords.
      intros d [Hd| ->%list_elem_of_singleton]%elem_of_app.
      * destruct (Hdone _ Hd) as (row & Hrow & ? & ?). exists row.
        rewrite lookup_insert_ne by (intros Heq; rewrite Heq in Hnone; congruence). done.
      * exists (attached zone_id (new_record account data)).
        rewrite lookup_insert_eq. done.
    + rewrite Hrecords. intros k row.
      destruct (decide (k = r_id data)) as [->|Hne].
      * intros _ _. right. rewrite fmap_app. apply elem_of_app. right. by left.
      * rewrite lookup_insert_ne by done. intros Hrow Hzone.
        destruct (Honly _ _ Hrow Hzone) as [?|?]; [by left|right].
        rewrite fmap_app. apply elem_of_app. by left.
    + rewrite Hrecords. intros k Hk. destruct (Hexisting _ Hk) as (row & Hrow & Hzone).
      exists row. rewrite lookup_insert_ne by (intros Heq; rewrite Heq in Hnone; congruence).
      done.
    + intros p Hp. apply (same_children_trans _ _ (session s)); [by apply Hframe|].
      intros k row Hzone. rewrite Hrecords.
      destruct (decide (k = r_id data)) as [->|Hne].
      * rewrite lookup_insert_eq, Hnone. split; [done|].
        intros [= <-]. simpl in Hzone. congruence.
      * by rewrite lookup_insert_ne.
Qed.

Lemma upsert_loop_done account zone s s' :
  for_each (z_records zone)
    (upsert_record account (z_zone_id zone) (zone_records (z_zone_id zone) (session s))) s
  = (Ok tt, s') ->
  records_done (z_zone_id zone) (zone_records (z_zone_id zone) (session s)) (z_records zone)
    (session s) (session s').
Proof.
  intros Hrun.
  apply (for_each_Ok_inv
           (fun done s1 =>
              records_done (z_zone_id zone) (zone_records (z_zone_id zone) (session s)) done
                (session s) (session s1))
           (z_records zone)
           (upsert_record account (z_zone_id zone) (zone_records (z_zone_id zone) (session s))))
    with (s := s); [|apply records_done_nil|done].
  intros done data rest s1 s2 _ Hdone Hstep. by eapply records_done_step.
Qed.

(** A store with the same records attached to the zone agrees with the
    zone as well. *)
Lemma records_synced_same_children zone st st' :
  same_children (z_zone_id zone) st st' -> records_synced zone st -> records_synced zone st'.
Proof.
  intros Hsame [Hall Honly]. split.
  - intros data Hdata. destruct (Hall _ Hdata) as (row & Hrow & Hzone & Hupd).
    exists row. split_and!; [by apply (Hsame _ _ Hzone)|done..].
  - intros k row Hrow Hzone. apply (Honly k row); [by apply (Hsame _ _ Hzone)|done].
Qed.

(** A record pass that returns leaves the zone's records as the snapshot
    lists them, the zones and the records attached to other zones as they
    were, and nothing pending. *)
Lemma record_pass_synced account zone s s' :
  record_pass account zone s = (Ok tt, s') ->
  st_zones (session s') = st_zones (session s) /\
  committed s' = session s' /\
  records_synced zone (session s') /\
  forall p, p ≠ z_zone_id zone -> same_children p (session s) (session s').
Proof.
  unfold record_pass, upsert_records, prune_records. intros Hrun.
  apply bind_Ok_inv in Hrun as (existing & s3 & Hup & Hprune).
  apply bind_Ok_inv in Hup as (zone_ref & s1 & Hget & Hup).
  destruct zone_ref as [zone_ref|]; [|done].
  pose proof (DNSZone_get_Some _ _ _ _ Hget) as ->.
  apply DNSZone_get_Ok in Hget as (Hs1 & _).
  apply bind_Ok_inv in Hup as (existing' & s1' & Hgets & Hup).
  injection Hgets as <- <-.
  apply bind_Ok_inv in Hup as ([] & s2 & Hloop & Hup).
  apply bind_Ok_inv in Hup as ([] & s3' & Hcommit1 & Hret).
  injection Hret as <- <-.
  apply upsert_loop_done in Hloop as (Hzones & Hdone & Honly & Hexisting & Hframe).
  apply db_commit_Ok in Hcommit1 as (_ & Hs3 & _).
  apply bind_Ok_inv in Hprune as ([] & s4 & Hdelete & Hcommit2).
  rewrite for_each_delete_record in Hdelete. injection Hdelete as <-.
  apply db_commit_Ok in Hcommit2 as (Hc' & Hs' & _).
  set (existing := zone_records (z_zone_id zone) (session s1)) in *.
  set (stale := difference existing (map r_id (z_records zone))) in *.
  rewrite Hs'. simpl. split_and!.
  - rewrite Hs3, Hzones. by rewrite Hs1.
  - by rewrite Hc'.
  - split.
    + intros data Hdata. destruct (Hdone _ Hdata) as (row & Hrow & Hzone & Hupd).
      exists row. split_and!; [|done..]. simpl.
      rewrite delete_all_lookup, decide_False, Hs3; [done|].
      intros [_ Hnot]%difference_elem. apply Hnot, list_elem_of_fmap. by exists data.
    + intros k row. simpl. rewrite delete_all_lookup.
      case_decide as Hstale; [done|]. rewrite Hs3. intros Hrow Hzone.
      destruct (Honly _ _ Hrow Hzone) as [Hk|Hk]; [|done].
      destruct (decide (k ∈ map r_id (z_records zone))) as [?|Hnot]; [done|].
      destruct Hstale. by apply difference_elem.
  - intros p Hp. rewrite <- Hs1.
    apply (same_children_trans _ _ (session s2)); [by apply Hframe|].
    intros k row Hzone. simpl. rewrite delete_all_lookup, Hs3.
    case_decide as Hstale; [|done].
    apply difference_elem in Hstale as [Hk _].
    destruct (Hexisting _ Hk) as (row' & Hrow' & Hzone').
    split; [|done]. intros Hrow. congruence.
Qed.

Lemma passes_done_step account s0 zones done zone rest s s' :
  zones = done ++ zone :: rest ->
  NoDup (map z_zone_id zones) ->
  passes_done s0 done s ->
  try_except (record_pass account zone) (record_pass_failed zone) s = (Ok tt, s') ->
  passes_done s0 (done ++ [zone]) s'.
Proof.
  intros -> Hnd [Hle Hdone] Hrun. unfold try_except in Hrun.
  pose proof (record_pass_keeps_logged account zone s) as Hlogged.
  destruct (record_pass account zone s) as [[[]|e|] s1] eqn:Hpass; [| |done].
  - injection Hrun as <-. simpl in Hlogged. unfold passes_done. rewrite Hlogged.
    split; [done|].
    intros Hlen. destruct (Hdone Hlen) as (Hzones & _ & Hsynced).
    apply record_pass_synced in Hpass as (Hz & Hc & Hzone & Hframe).
    split_and!; [congruence|done|].
    intros z [Hz'| ->%list_elem_of_singleton]%elem_of_app; [|done].
    apply (records_synced_same_children _ (session s)); [|by apply Hsynced].
    apply Hframe. intros Heq.
    apply (NoDup_app_cons_fresh z_zone_id done zone rest Hnd).
    rewrite <- Heq. apply list_elem_of_fmap. by exists z.
  - rewrite record_pass_failed_run in Hrun. injection Hrun as <-.
    unfold passes_done. simpl in *. rewrite length_app, Hlogged. simpl. split; lia.
Qed.

(** After a record phase that returns without having logged an exception,
    the records of every zone of the snapshot agree with the store. *)
Lemma record_phase_synced zones account s s' :
  NoDup (map z_zone_id zones) ->
  committed s = session s ->
  record_phase zones account s = (Ok tt, s') ->
  logged s' = logged s ->
  st_zones (session s') = st_zones (session s) /\
  committed s' = session s' /\
  forall zone, zone ∈ zones -> records_synced zone (session s').
Proof.
  intros Hnd Hclean Hrun Hlogged. unfold record_phase in Hrun.
  assert (passes_done s zones s') as [_ Hdone].
  { apply (for_each_Ok_inv (passes_done s) zones
             (fun zone => try_except (record_pass account zone) (record_pass_failed zone)))
      with (s := s); [| |done].
    - intros done zone rest s1 s2 Hzones Hd Hstep. by eapply passes_done_step.
    - split; [done|]. intros _. split_and!; [done..|].
      intros zone Hzone. by apply elem_of_nil in Hzone. }
  apply Hdone. by rewrite Hlogged.
Qed.

(** After a run that returns without having logged an exception, the
    store agrees with the snapshot and nothing is pending. *)
Lemma process_zones_synced zones account s s' :
  NoDup (map z_zone_id zones) ->
  process_zones zones account s = (Ok tt, s') ->
  logged s' = logged s ->
  synced zones account (session s') /\ committed s' = session s'.
Proof.
  intros Hnd Hrun Hlogged. unfold process_zones in Hrun.
  apply bind_Ok_inv in Hrun as ([] & s1 & Hzone & Hrecords).
  destruct (zone_phase_synced _ _ _ _ Hnd Hzone) as (Hzones & Honly & Hclean & Hlog1).
  destruct (record_phase_synced _ _ _ _ Hnd Hclean Hrecords) as (Hz & Hc & Hsynced);
    [congruence|].
  split; [|done]. split.
  - intros zone Hin. split; [|by apply Hsynced].
    destruct (Hzones _ Hin) as (row & Hrow & Hacct & Hupd). exists row.
    by rewrite Hz.
  - intros k row. rewrite Hz. apply Honly.
Qed.

(** C1 as the code has it. Reconciliation is idempotent for a snapshot
    whose zones have pairwise different ids: when a first run has returned
    without logging an exception, a second run with the same snapshot asks
    for no write (no creation, no update, no deletion), whatever its
    outcome, and leaves the session and what is committed as they were. *)
Theorem reconciliation_idempotent zones account s s1 :
  NoDup (map z_zone_id zones) ->
  process_zones zones account s = (Ok tt, s1) ->
  logged s1 = logged s ->
  writes (process_zones zones account s1).2 = writes s1 /\
  committed (process_zones zones account s1).2 = committed s1 /\
  session (process_zones zones account s1).2 = session s1.
Proof.
  intros Hnd Hrun Hlogged.
  destruct (process_zones_synced _ _ _ _ Hnd Hrun Hlogged) as [Hsynced Hclean].
  destruct (process_zones_settled zones account (session s1) (writes s1) Hsynced s1)
    as (Hs & Hc & Hw); [by split_and!|].
  split_and!; congruence.
Qed.

End RecordSync.

Lemma bcd_first_run_returns :
  @process_zones no_faults [bcd_zone "192.0.2.2"] sample_account (db_of abc_store)
  = (Ok tt, bcd_first_run.2).
Proof. vm_compute. reflexivity. Defined.

Lemma bcd_first_run_logged : logged bcd_first_run.2 = logged (db_of abc_store).
Proof. vm_compute. reflexivity. Defined.

Lemma bcd_first_run_records :
  Py.sorted (zone_records "zone-1" (committed bcd_first_run.2)) = ["B"; "C"; "D"].
Proof. vm_compute. reflexivity. Defined.

Lemma reconciliation_idempotent_witness :
  NoDup (map z_zone_id [bcd_zone "192.0.2.2"]) /\
  @process_zones no_faults [bcd_zone "192.0.2.2"] sample_account (db_of abc_store)
    = (Ok tt, bcd_first_run.2) /\
  logged bcd_first_run.2 = logged (db_of abc_store) /\
  Py.sorted (zone_records "zone-1" (committed bcd_first_run.2)) = ["B"; "C"; "D"] /\
  writes (@process_zones no_faults [bcd_zone "192.0.2.2"] sample_account bcd_first_run.2).2
    = writes bcd_first_run.2 /\
  committed (@process_zones no_faults [bcd_zone "192.0.2.2"] sample_account bcd_first_run.2).2
    = committed bcd_first_run.2 /\
  session (@process_zones no_faults [bcd_zone "192.0.2.2"] sample_account bcd_first_run.2).2
    = session bcd_first_run.2.
Proof.
  refine (conj (NoDup_singleton _)
            (conj bcd_first_run_returns
               (conj bcd_first_run_logged
                  (conj bcd_first_run_records
                     (@reconciliation_idempotent no_faults [bcd_zone "192.0.2.2"]
                        sample_account (db_of abc_store) bcd_first_run.2 (NoDup_singleton _)
                        bcd_first_run_returns bcd_first_run_logged))))).
Defined.

(** C1 as the claim words it does not hold for every snapshot. The
    snapshot lists [zone-1] twice, first with the record B, then with the
    record C, and the store holds the zone with A, B and C. The first run
    returns and logs no exception; each pass deletes what the other one
    keeps, so the zone is left with C alone, and the second run with the
    same snapshot creates B, deletes C, creates C and deletes B. *)
Lemma duplicate_zone_rerun_writes :
  twice_listed_first_run.1 = Ok tt /\
  logged twice_listed_first_run.2 = [] /\
  zone_records "zone-1" (committed twice_listed_first_run.2) = ["C"] /\
  twice_listed_second_run.1 = Ok tt /\
  writes twice_listed_second_run.2
    = writes twice_listed_first_run.2
      ++ [CreateRecord "B"; DeleteRecord "C"; CreateRecord "C"; DeleteRecord "B"].
Proof. split_and!; vm_compute; reflexivity. Qed.

(* ===================================================================== *)
(** * Further properties of the code *)
(* ===================================================================== *)

(** ** Outcomes of the pagination loops *)

Section PaginationOutcomes.
Context {row acc : Type}.
Variable endpoint : cf_args -> http_response row.
Variable path : cf_args -> cf_request.
Variable step : acc -> list row -> acc.

Lemma paginate_fails fuel p a s :
  page_fails endpoint p ->
  paginate endpoint path step (S fuel) p a s
  = (Raise (request_failed endpoint p), session_get (path (page_args p)) s).
Proof.
  intros Hfail. simpl. by rewrite (bind_Raise _ _ _ _ _ (request_not_200 endpoint path p s Hfail)).
Qed.

Lemma page_cases p :
  page_ends endpoint p \/ page_continues endpoint p \/ page_fails endpoint p.
Proof.
  unfold page_ends, page_continues, page_fails.
  destruct (decide (status_code (endpoint (page_args p)) = 200)); [|by right; right].
  destruct (last_page p (json (endpoint (page_args p)))); [by left|by right; left].
Qed.

(** A run that raises has met a page that was not answered with 200,
    after pages that all continue. *)
Lemma paginate_Raise_inv fuel : forall first a s e s',
  paginate endpoint path step fuel first a s = (Raise e, s') ->
  exists n : nat,
    (n < fuel)%nat /\
    (forall p, first <= p < first + Z.of_nat n -> page_continues endpoint p) /\
    page_fails endpoint (first + Z.of_nat n) /\
    e = request_failed endpoint (first + Z.of_nat n) /\
    s' = sent (pages_requests path first (S n)) s.
Proof.
  induction fuel as [|fuel IH]; intros first a s e s' Hrun; [by munfold|].
  destruct (page_cases first) as [Hend|[Hcont|Hfail]].
  - by rewrite paginate_ends in Hrun.
  - rewrite paginate_continues in Hrun by done.
    apply IH in Hrun as (n & Hn & Hc & Hf & -> & ->).
    exists (S n). rewrite !pages_requests_S.
    replace (first + Z.of_nat (S n)) with (first + 1 + Z.of_nat n) by lia.
    split_and!; [lia| |done..].
    intros p Hp. destruct (decide (p = first)) as [->|]; [done|apply Hc; lia].
  - rewrite paginate_fails in Hrun by done. injection Hrun as <- <-.
    exists 0%nat. rewrite Z.add_0_r. split_and!; [lia|intros; lia|done..].
Qed.

Lemma paginate_returns (n : nat) fuel first a s :
  (n < fuel)%nat ->
  (forall p, first <= p < first + Z.of_nat n -> page_continues endpoint p) ->
  page_ends endpoint (first + Z.of_nat n) ->
  paginate endpoint path step fuel first a s
  = (Ok (foldl step a (pages_results endpoint first (S n))),
     sent (pages_requests path first (S n)) s).
Proof.
  intros Hn Hc He.
  replace fuel with (n + S (fuel - S n))%nat by lia.
  rewrite paginate_run, paginate_ends by done.
  f_equal.
  - unfold pages_results. rewrite seqZ_S, fmap_app, foldl_app. done.
  - unfold pages_requests, sent. rewrite seqZ_S, fmap_app, foldl_app. done.
Qed.

Lemma paginate_raises (n : nat) fuel first a s :
  (n < fuel)%nat ->
  (forall p, first <= p < first + Z.of_nat n -> page_continues endpoint p) ->
  page_fails endpoint (first + Z.of_nat n) ->
  paginate endpoint path step fuel first a s
  = (Raise (request_failed endpoint (first + Z.of_nat n)),
     sent (pages_requests path first (S n)) s).
Proof.
  intros Hn Hc He.
  replace fuel with (n + S (fuel - S n))%nat by lia.
  rewrite paginate_run, paginate_fails by done.
  f_equal. unfold pages_requests, sent. rewrite seqZ_S, fmap_app, foldl_app. done.
Qed.

End PaginationOutcomes.

(** ** The listing helpers, in general *)

Section Listings.
Context `{Upstream}.

(** X1. What the two listing helpers return. [__cloudflare_list_zones]
    returns exactly when, for some [n] within the iterations it is given,
    the pages 1 to [n] are answered 200 and fail the stop test and page
    [n + 1] is answered 200 and passes it; it has then sent one request
    for each of these pages, in order, and returns their results
    concatenated. [__cloudflare_list_zone_records] likewise, returning the
    merge by name of all the rows of these pages. *)
Theorem listing_returns_iff (zoneID : string) (fuel : nat) (s : net) :
  (forall zones s',
     cloudflare_list_zones fuel s = (Ok zones, s') <->
     exists n : nat,
       (n < fuel)%nat /\
       page_requested cloudflare_zones (1 + Z.of_nat n) /\
       page_ends cloudflare_zones (1 + Z.of_nat n) /\
       zones = concat (pages_results cloudflare_zones 1 (S n)) /\
       s' = sent (pages_requests GetZones 1 (S n)) s) /\
  (forall records s',
     cloudflare_list_zone_records fuel zoneID s = (Ok records, s') <->
     exists n : nat,
       (n < fuel)%nat /\
       page_requested (cloudflare_dns_records zoneID) (1 + Z.of_nat n) /\
       page_ends (cloudflare_dns_records zoneID) (1 + Z.of_nat n) /\
       records = (merge_rows [] (fetched_rows zoneID (S n))).*2 /\
       s' = sent (pages_requests (GetZoneRecords zoneID) 1 (S n)) s).
Proof.
  split.
  - intros zones s'. split; [apply list_zones_Ok_inv|].
    intros (n & Hn & Hc & He & -> & ->).
    unfold cloudflare_list_zones. rewrite list_zones_loop_paginate.
    rewrite (paginate_returns _ _ _ n) by done. by rewrite foldl_append.
  - intros records s'. split; [apply list_zone_records_Ok_inv|].
    intros (n & Hn & Hc & He & -> & ->).
    unfold cloudflare_list_zone_records. rewrite list_zone_records_loop_paginate.
    erewrite bind_Ok by (by apply (paginate_returns _ _ _ n)).
    by rewrite foldl_merge_rows.
Qed.

Lemma list_zones_Raise_iff fuel s e s' :
  cloudflare_list_zones fuel s = (Raise e, s') <->
  exists n : nat,
    (n < fuel)%nat /\
    page_requested cloudflare_zones (1 + Z.of_nat n) /\
    page_fails cloudflare_zones (1 + Z.of_nat n) /\
    e = request_failed cloudflare_zones (1 + Z.of_nat n) /\
    s' = sent (pages_requests GetZones 1 (S n)) s.
Proof.
  unfold cloudflare_list_zones. rewrite list_zones_loop_paginate. split.
  - apply paginate_Raise_inv.
  - intros (n & Hn & Hc & Hf & -> & ->). by apply paginate_raises.
Qed.

Lemma list_zone_records_Raise_iff fuel zoneID s e s' :
  cloudflare_list_zone_records fuel zoneID s = (Raise e, s') <->
  exists n : nat,
    (n < fuel)%nat /\
    page_requested (cloudflare_dns_records zoneID) (1 + Z.of_nat n) /\
    page_fails (cloudflare_dns_records zoneID) (1 + Z.of_nat n) /\
    e = request_failed (cloudflare_dns_records zoneID) (1 + Z.of_nat n) /\
    s' = sent (pages_requests (GetZoneRecords zoneID) 1 (S n)) s.
Proof.
  unfold cloudflare_list_zone_records. rewrite list_zone_records_loop_paginate. split.
  - intros [Hrun|(a & s1 & _ & Hret)]%bind_Raise_inv; [|done].
    by apply paginate_Raise_inv in Hrun.
  - intros (n & Hn & Hc & Hf & -> & ->).
    by erewrite bind_Raise by (by apply (paginate_raises _ _ _ n)).
Qed.

(** X3. A [result_info] without [total_pages] ends the listing at once:
    when the first page of each listing is answered 200 without that key,
    each helper sends one request, for page 1 with [per_page = 100], and
    returns that page's result (merged by name for the records), however
    many iterations it is allowed. *)
Theorem missing_total_pages_is_one_page (zoneID : string) (fuel : nat) (s : net) :
  status_code (cloudflare_zones (page_args 1)) = 200 ->
  total_pages (json (cloudflare_zones (page_args 1))) = None ->
  status_code (cloudflare_dns_records zoneID (page_args 1)) = 200 ->
  total_pages (json (cloudflare_dns_records zoneID (page_args 1))) = None ->
  cloudflare_list_zones (S fuel) s
  = (Ok (result (json (cloudflare_zones (page_args 1)))),
     session_get (GetZones {| arg_page := 1; arg_per_page := 100 |}) s) /\
  cloudflare_list_zone_records (S fuel) zoneID s
  = (Ok (merge_rows [] (result (json (cloudflare_dns_records zoneID (page_args 1))))).*2,
     session_get (GetZoneRecords zoneID {| arg_page := 1; arg_per_page := 100 |}) s).
Proof.
  intros Hz200 Hznone Hr200 Hrnone. split.
  - unfold cloudflare_list_zones. rewrite list_zones_loop_paginate.
    rewrite paginate_ends; [done|]. split; [done|]. unfold last_page. by rewrite Hznone.
  - unfold cloudflare_list_zone_records. rewrite list_zone_records_loop_paginate.
    erewrite bind_Ok; [done|].
    rewrite paginate_ends; [done|]. split; [done|]. unfold last_page. by rewrite Hrnone.
Qed.

End Listings.

(** ** [get_cloudflare_records]: failures and the shape of the snapshot *)

Section CloudFlareSnapshot.
Context `{Upstream}.

Lemma cloudflare_zone_never_raises fuel zones zobj s e :
  (cloudflare_zone fuel zones zobj s).1 ≠ Raise e.
Proof.
  unfold cloudflare_zone.
  destruct (cloudflare_list_zone_records fuel (cf_zone_id zobj) s) as [[records|e'|] s1] eqn:Hrun;
    [done| |done].
  apply list_zone_records_Raise_iff in Hrun as (n & _ & _ & _ & -> & _). done.
Qed.

Lemma cloudflare_zones_loop_never_raises fuel zobjs : forall zones s e,
  (cloudflare_zones_loop fuel zones zobjs s).1 ≠ Raise e.
Proof.
  induction zobjs as [|zobj zobjs IH]; intros zones s e; [done|].
  simpl. munfold.
  pose proof (cloudflare_zone_never_raises fuel zones zobj s) as Hzone.
  destruct (cloudflare_zone fuel zones zobj s) as [[zones1|e1|] s1]; simpl in *.
  - apply IH.
  - by destruct (Hzone e1).
  - done.
Qed.

Lemma cloudflare_records_Raise_iff (fuel : nat) (s : net) (e : exn) (s' : net) :
  get_cloudflare_records fuel s = (Raise e, s') <->
  cloudflare_list_zones fuel s = (Raise e, s').
Proof.
  unfold get_cloudflare_records. split.
  - intros [Hrun|(zobjs & s1 & _ & Hloop)]%bind_Raise_inv; [done|].
    pose proof (cloudflare_zones_loop_never_raises fuel zobjs [] s1 e) as Hnever.
    by rewrite Hloop in Hnever.
  - intros Hrun. by apply bind_Raise.
Qed.

Lemma cloudflare_zone_dict_of_adapter zobj records :
  zone_of_adapter "cfz" "CloudFlare" (cloudflare_zone_dict zobj records).
Proof.
  split_and!; [done..|]. simpl. apply Forall_fmap, Forall_forall. by intros record _.
Qed.

Lemma cloudflare_zones_loop_follows fuel zobjs : forall zones s out s',
  cloudflare_zones_loop fuel zones zobjs s = (Ok out, s') ->
  exists new,
    out = zones ++ new /\
    z_name <$> new `sublist_of` cf_zone_name <$> zobjs /\
    Forall (zone_of_adapter "cfz" "CloudFlare") new.
Proof.
  induction zobjs as [|zobj zobjs IH]; intros zones s out s' Hrun.
  - injection Hrun as <- <-. exists []. by rewrite app_nil_r.
  - simpl in Hrun. apply bind_Ok_inv in Hrun as (zones1 & s1 & Hzone & Hrun).
    apply IH in Hrun as (new & -> & Hsub & Hshape).
    apply cloudflare_zone_Ok_inv in Hzone as [->|(records & s2 & _ & _ & ->)].
    + exists new. split_and!; [done| |done]. csimpl. by apply sublist_cons.
    + exists (cloudflare_zone_dict zobj records :: new). split_and!.
      * by rewrite <- (assoc_L _).
      * csimpl. by apply sublist_skip.
      * apply Forall_cons. split; [apply cloudflare_zone_dict_of_adapter|done].
Qed.

(** X5. The snapshot of [get_cloudflare_records] follows the zone listing:
    its zones are zones of the listing, in the order of the listing, each
    at most as often as the listing has it; each has the id the identity
    function gives for the tag [cfz] and its name, the source
    [CloudFlare], no comment and no tag, and every record of a zone carries
    that zone's id as [zone_id]. *)
Theorem cloudflare_snapshot_follows_listing (fuel : nat) (s : net) zones (s' : net) :
  get_cloudflare_records fuel s = (Ok zones, s') ->
  exists zobjs s1,
    cloudflare_list_zones fuel s = (Ok zobjs, s1) /\
    z_name <$> zones `sublist_of` cf_zone_name <$> zobjs /\
    Forall (fun zone =>
              z_zone_id zone = get_resource_id "cfz" [z_name zone] /\
              z_source zone = "CloudFlare" /\
              z_comment zone = None /\
              z_tags zone = [] /\
              Forall (fun record => r_zone_id record = z_zone_id zone) (z_records zone))
      zones.
Proof.
  unfold get_cloudflare_records. intros Hrun.
  apply bind_Ok_inv in Hrun as (zobjs & s1 & Hlist & Hloop).
  apply cloudflare_zones_loop_follows in Hloop as (new & -> & Hsub & Hshape).
  by exists zobjs, s1.
Qed.

End CloudFlareSnapshot.

(** ** [get_axfr_records]: all or nothing *)

Section AxfrSnapshot.
Context `{Upstream}.

Lemma sorted_singleton (x : string) : Py.sorted [x] = [x].
Proof. apply Permutation_singleton_r. by rewrite sorted_Permutation. Qed.

Lemma axfr_zone_dict_of_adapter name rows :
  zone_of_adapter "axfrz" "AXFR" (axfr_zone_dict name rows) /\
  Forall single_valued (z_records (axfr_zone_dict name rows)).
Proof.
  split.
  - split_and!; [done..|]. simpl. apply Forall_fmap, Forall_forall. by intros record _.
  - simpl. apply Forall_fmap, Forall_forall. intros rr _.
    exists (rr_rdata rr). apply sorted_singleton.
Qed.

Lemma axfr_zone_Ok_inv self zones name s out s' :
  axfr_zone self zones name s = (Ok out, s') ->
  exists rows,
    xfr (length (transfers s)) (axfr_server self) name = Some rows /\
    s' = transferred (axfr_server self) [name] s /\
    out = if decide (rows ≠ []) then zones ++ [axfr_zone_dict name rows] else zones.
Proof.
  unfold axfr_zone, from_xfr. munfold.
  destruct (xfr (length (transfers s)) (axfr_server self) name) as [rows|]; [|done].
  intros [= <- <-]. exists rows. split_and!; [done..|].
  by destruct rows.
Qed.

Lemma axfr_zones_loop_follows self names : forall zones s out s',
  axfr_zones_loop self zones names s = (Ok out, s') ->
  exists new,
    out = zones ++ new /\
    z_name <$> new `sublist_of` names /\
    Forall (fun zone => zone_of_adapter "axfrz" "AXFR" zone /\
                        Forall single_valued (z_records zone)) new.
Proof.
  induction names as [|name names IH]; intros zones s out s' Hrun.
  - injection Hrun as <- <-. exists []. by rewrite app_nil_r.
  - simpl in Hrun. apply bind_Ok_inv in Hrun as (zones1 & s1 & Hzone & Hrun).
    apply IH in Hrun as (new & -> & Hsub & Hshape).
    apply axfr_zone_Ok_inv in Hzone as (rows & _ & _ & ->).
    case_decide.
    + exists (axfr_zone_dict name rows :: new). split_and!.
      * by rewrite <- (assoc_L _).
      * csimpl. by apply sublist_skip.
      * apply Forall_cons. split; [apply axfr_zone_dict_of_adapter|done].
    + exists new. split_and!; [done| |done]. by apply sublist_cons.
Qed.

(** X6. The snapshot of [get_axfr_records] follows the configured
    domains: its zones bear names of [axfr_domains], in that order; each
    has the id the identity function gives for the tag [axfrz] and its
    name, the source [AXFR], no comment and no tag; every record carries its
    zone's id as [zone_id] and has exactly one value (resource records that
    share a name are not merged). *)
Theorem axfr_snapshot_follows_domains (self : DNSCollector) (s : net) zones (s' : net) :
  get_axfr_records self s = (Ok zones, s') ->
  z_name <$> zones `sublist_of` axfr_domains self /\
  Forall (fun zone =>
            z_zone_id zone = get_resource_id "axfrz" [z_name zone] /\
            z_source zone = "AXFR" /\
            z_comment zone = None /\
            z_tags zone = [] /\
            Forall (fun record =>
                      r_zone_id record = z_zone_id zone /\
                      exists value, r_value record = [value])
              (z_records zone))
    zones.
Proof.
  unfold get_axfr_records. intros Hrun.
  apply retry_Ok_inv in Hrun as (s1 & Hrun).
  apply axfr_zones_loop_follows in Hrun as (new & -> & Hsub & Hshape).
  split; [done|]. simpl. eapply Forall_impl; [exact Hshape|].
  intros zone [(Hid & Hsrc & Hcomment & Htags & Hrefs) Hsingle].
  split_and!; [done..|].
  apply Forall_forall. intros record Hrecord. split.
  - by apply (proj1 (Forall_forall _ _) Hrefs).
  - by apply (proj1 (Forall_forall _ _) Hsingle).
Qed.

Lemma retry_Ok {A} attempts (call : M net A) s a s' :
  call s = (Ok a, s') -> retry attempts call s = (Ok a, s').
Proof. destruct attempts; simpl; [done|]. unfold try_except. by intros ->. Qed.

Lemma axfr_zones_loop_answered self rows names : forall zones s,
  (forall n name, name ∈ names -> xfr n (axfr_server self) name = Some (rows name)) ->
  axfr_zones_loop self zones names s
  = (Ok (zones ++ axfr_snapshot rows names), transferred (axfr_server self) names s).
Proof.
  induction names as [|name names IH]; intros zones s Hxfr.
  - simpl. unfold axfr_snapshot, transferred. simpl. rewrite !app_nil_r. by destruct s.
  - simpl. unfold axfr_zone at 1, from_xfr. munfold.
    rewrite Hxfr by left. rewrite IH by (intros; apply Hxfr; by right).
    f_equal.
    + f_equal. unfold axfr_snapshot. destruct (rows name) as [|rr rest] eqn:Hrows.
      * simpl. by rewrite filter_cons_False by (rewrite Hrows; by intros []).
      * simpl. rewrite filter_cons_True by (by rewrite Hrows).
        csimpl. rewrite Hrows. by rewrite <- (assoc_L _).
    + unfold transferred. simpl. by rewrite <- (assoc_L _).
Qed.

(** X7. When the name server answers the transfer of every configured
    domain, at any time, with the rows [rows name], [get_axfr_records]
    asks for each domain once, in the configured order, makes no second
    attempt, and returns one zone for each domain that has rows, in that
    order, with one record for each row. *)
Theorem axfr_transfers_answered (self : DNSCollector)
    (rows : string -> list rdata_row) (s : net) :
  (forall n name, name ∈ axfr_domains self ->
     xfr n (axfr_server self) name = Some (rows name)) ->
  get_axfr_records self s
  = (Ok ((fun name => axfr_zone_dict name (rows name))
         <$> filter (fun name => rows name ≠ []) (axfr_domains self)),
     {| cloudflare_initialized := cloudflare_initialized s;
        requests := requests s;
        transfers := transfers s
                     ++ ((fun name => (axfr_server self, name)) <$> axfr_domains self) |}).
Proof.
  intros Hxfr. unfold get_axfr_records. apply retry_Ok.
  by rewrite (axfr_zones_loop_answered self rows).
Qed.

Lemma axfr_zones_loop_unanswered self name names : forall zones s,
  name ∈ names ->
  (forall n, xfr n (axfr_server self) name = None) ->
  exists failed s',
    axfr_zones_loop self zones names s = (Raise (TransferError failed), s') /\
    failed ∈ names.
Proof.
  induction names as [|name' names IH]; intros zones s Hin Hnone;
    [by apply elem_of_nil in Hin|].
  simpl. unfold axfr_zone at 1, from_xfr. munfold.
  destruct (xfr (length (transfers s)) (axfr_server self) name') as [rows|] eqn:Hxfr.
  - apply elem_of_cons in Hin as [->|Hin]; [by rewrite Hnone in Hxfr|].
    match goal with
    | |- context [axfr_zones_loop self ?zones1 names ?s1] =>
        destruct (IH zones1 s1 Hin Hnone) as (failed & s' & -> & Hfailed)
    end.
    exists failed, s'. split; [done|by right].
  - exists name'. eexists. split; [done|left].
Qed.

Lemma retry_all_raise {A} (P : exn -> Prop) (call : M net A) :
  (forall s, exists e s', call s = (Raise e, s') /\ P e) ->
  forall attempts s, exists e s', retry attempts call s = (Raise e, s') /\ P e.
Proof.
  intros Hcall attempts. induction attempts as [|attempts IH]; intros s; simpl; [done|].
  unfold try_except. destruct (Hcall s) as (e & s' & -> & _). apply IH.
Qed.

Lemma axfr_unanswered_fails (self : DNSCollector) (name : string) (s : net) :
  name ∈ axfr_domains self ->
  (forall n, xfr n (axfr_server self) name = None) ->
  exists failed s',
    get_axfr_records self s = (Raise (TransferError failed), s') /\
    failed ∈ axfr_domains self.
Proof.
  intros Hin Hnone. unfold get_axfr_records.
  destruct (retry_all_raise
              (fun e => exists failed, e = TransferError failed /\ failed ∈ axfr_domains self)
              (axfr_zones_loop self [] (axfr_domains self))) with (attempts := retry_attempts) (s := s)
    as (e & s' & Hrun & failed & -> & Hfailed).
  - intros s0. destruct (axfr_zones_loop_unanswered self name _ [] s0 Hin Hnone)
      as (failed & s' & Hrun & Hfailed).
    exists (TransferError failed), s'. split; [done|by exists failed].
  - by exists failed, s'.
Qed.

(** X8. [get_axfr_records] is all or nothing: if the name server never
    answers the transfer of one configured domain, the call returns no
    zone at all, however many attempts the retry wrapper makes; it raises
    the transfer's exception for a configured domain. *)
Theorem axfr_unanswered_domain_fails (self : DNSCollector) (name : string) (s : net) :
  name ∈ axfr_domains self ->
  (forall n, xfr n (axfr_server self) name = None) ->
  exists failed s',
    get_axfr_records self s = (Raise (TransferError failed), s') /\
    failed ∈ axfr_domains self.
Proof. apply axfr_unanswered_fails. Qed.

End AxfrSnapshot.

(** ** [process_zones]: what a run leaves *)

Section Outcomes.
Context `{Faults}.

(** X9. A run that succeeds makes the store mirror the snapshot. For a
    snapshot whose zones have pairwise different ids, when [process_zones]
    returns without having logged an exception, every zone of the
    snapshot is stored for the account with the snapshot's name, source,
    comment and tags, the account has no other zone, the records attached
    to each zone are exactly the records the snapshot lists for it, with
    the snapshot's name, value and type, and nothing is left pending. *)
Theorem successful_run_mirrors_snapshot zones account s s' :
  NoDup (map z_zone_id zones) ->
  process_zones zones account s = (Ok tt, s') ->
  logged s' = logged s ->
  committed s' = session s' /\
  (forall zone, zone ∈ zones ->
     (exists row, st_zones (session s') !! z_zone_id zone = Some row /\
                  zr_account_id row = account_id account /\
                  zr_name row = z_name zone /\ zr_source row = z_source zone /\
                  zr_comment row = z_comment zone /\ zr_tags row = z_tags zone) /\
     (forall data, data ∈ z_records zone ->
        exists row, st_records (session s') !! r_id data = Some row /\
                    rec_zone row = Some (z_zone_id zone) /\
                    rec_name row = r_name data /\ rec_value row = r_value data /\
                    rec_type row = r_type data) /\
     (forall k row, st_records (session s') !! k = Some row ->
        rec_zone row = Some (z_zone_id zone) -> k ∈ map r_id (z_records zone))) /\
  (forall k row, st_zones (session s') !! k = Some row ->
     zr_account_id row = account_id account -> k ∈ map z_zone_id zones).
Proof.
  intros Hnd Hrun Hlogged.
  destruct (process_zones_synced _ _ _ _ Hnd Hrun Hlogged) as [[Hzones Honly] Hclean].
  split_and!; [done| |done].
  intros zone Hin. destruct (Hzones _ Hin) as [(row & Hrow & Hacct & Hupd) [Hall Hno]].
  split_and!; [| |done].
  - exists row. split_and!; [done|done|by rewrite <- Hupd..].
  - intros data Hdata. destruct (Hall _ Hdata) as (r & Hr & Hz & Hu).
    exists r. split_and!; [done|done|by rewrite <- Hu..].
Qed.

(** X10. A store that mirrors the snapshot is left alone. When nothing is
    pending and the store already agrees with the snapshot, a run asks for
    no write and leaves the session and what is committed as they are,
    whatever its outcome and whichever calls to the database fail. *)
Theorem mirrored_store_is_left_alone zones account s :
  synced zones account (session s) ->
  committed s = session s ->
  writes (process_zones zones account s).2 = writes s /\
  session (process_zones zones account s).2 = session s /\
  committed (process_zones zones account s).2 = session s.
Proof.
  intros Hsynced Hclean.
  destruct (process_zones_settled zones account (session s) (writes s) Hsynced s)
    as (Hs & Hc & Hw); by split_and!.
Qed.

(** X11. Which failures escape [process_zones]. It raises exactly when the
    region that updates the zones raises, with that exception and in the
    state that region left (no rollback is made): nothing that happens in
    the region that updates the records escapes, and nothing that happens
    in the first region is caught. *)
Theorem process_zones_raises_iff zones account s e s' :
  process_zones zones account s = (Raise e, s') <->
  zone_phase zones account s = (Raise e, s').
Proof.
  unfold process_zones. split.
  - intros [Hzone|([] & s1 & _ & Hrecords)]%bind_Raise_inv; [done|].
    destruct (record_phase_returns zones account s1) as (s2 & Hreturns). congruence.
  - intros Hzone. by apply bind_Raise.
Qed.

End Outcomes.

(** ** Zones of other accounts *)

Section OtherAccounts.
Context `{Faults}.
Variables (k : string) (row : zone_row) (st0 : store).

Local Abbreviation intact := (zone_intact k row st0).
Local Abbreviation stays_intact m := (triple intact m (fun _ s' => intact s')).

Lemma DNSZone_get_all_intact account : stays_intact (DNSZone_get_all account).
Proof. intros s Hs. crush. Qed.

Lemma DNSZone_get_intact resource_id : stays_intact (DNSZone_get resource_id).
Proof. intros s Hs. crush. Qed.

Lemma db_commit_intact : stays_intact db_commit.
Proof. intros s [Hs Hc]. crush. Qed.

Lemma record_pass_failed_intact zone e : stays_intact (record_pass_failed zone e).
Proof. intros s [Hs Hc]. crush. Qed.

Lemma update_zone_intact account existing data :
  k ∉ existing -> stays_intact (update_zone account existing data).
Proof.
  intros Hnot s [[Hrow Hkids] Hc]. unfold update_zone. case_bool_decide as Hin.
  - assert (z_zone_id data ≠ k) as Hne by (intros Heq; by rewrite Heq in Hin).
    crush; (split; [split|done]); simpl; by rewrite ?lookup_insert_ne.
  - crush. split; [split|done]; simpl; [|done].
    rewrite lookup_insert_ne; [done|]. intros Heq. congruence.
Qed.

Lemma remove_zone_intact resource_id :
  resource_id ≠ k -> stays_intact (remove_zone resource_id).
Proof.
  intros Hne s [[Hrow Hkids] Hc]. rewrite remove_zone_run. simpl.
  split; [split|done].
  - simpl. by rewrite lookup_delete_ne.
  - eapply same_children_trans; [exact Hkids|]. by apply removed_zone_same_children.
Qed.

Lemma foreign_not_listed account s :
  zr_account_id row ≠ account_id account ->
  intact s -> k ∉ zone_ids_of account (session s).
Proof.
  intros Hacct [[Hrow _] _] (row' & Hrow' & Hacct')%elem_of_zone_ids_of. congruence.
Qed.

Lemma zone_phase_intact zones account :
  zr_account_id row ≠ account_id account ->
  stays_intact (zone_phase zones account).
Proof.
  intros Hacct. unfold zone_phase.
  apply triple_inv_bind; [apply DNSZone_get_all_intact|].
  intros existing (s & s' & Hs & Hall).
  apply DNSZone_get_all_Ok in Hall as [-> _].
  pose proof (foreign_not_listed account s Hacct Hs) as Hnot.
  apply triple_inv_bind.
  { apply triple_for_each. intros data _. by apply update_zone_intact. }
  intros _ _. apply triple_inv_bind; [apply db_commit_intact|].
  intros _ _. apply triple_inv_bind; [|intros _ _; apply db_commit_intact].
  apply triple_for_each. intros resource_id [Hin _]%difference_elem.
  apply remove_zone_intact. by intros ->.
Qed.

(** A zone phase that returns has met no zone of the snapshot with the id
    of a zone of another account: its creation is refused. *)
Lemma zone_phase_Ok_not_foreign zones account s s' :
  zr_account_id row ≠ account_id account ->
  intact s ->
  zone_phase zones account s = (Ok tt, s') ->
  k ∉ map z_zone_id zones.
Proof.
  intros Hacct Hs Hrun.
  pose proof (foreign_not_listed account s Hacct Hs) as Hnot.
  apply zone_phase_Ok_inv in Hrun as (s0 & s1 & _ & Hall & Hloop & _).
  assert (intact s0) as Hs0.
  { pose proof (DNSZone_get_all_intact account s Hs) as H0. by rewrite Hall in H0. }
  set (existing := zone_ids_of account (session s)) in *.
  assert (intact s1 /\ k ∉ map z_zone_id zones) as [_ ?]; [|done].
  apply (for_each_Ok_inv (fun done s => intact s /\ k ∉ map z_zone_id done) zones
           (update_zone account existing)) with (s := s0); [| |done].
  - intros done data rest sa sb _ [Ha Hdone] Hstep. split.
    + pose proof (update_zone_intact account existing data Hnot sa Ha) as Hb.
      by rewrite Hstep in Hb.
    + rewrite map_app. intros [?|Hlast]%elem_of_app; [done|].
      apply list_elem_of_singleton in Hlast.
      destruct Ha as [[Hrow _] _]. revert Hstep. unfold update_zone.
      rewrite <- Hlast. rewrite bool_decide_eq_false_2 by done.
      crush.
  - split; [done|]. apply not_elem_of_nil.
Qed.

Lemma upsert_record_intact account zone_id existing data :
  zone_id ≠ k ->
  triple (fun s => intact s /\ apart_from k existing s)
    (upsert_record account zone_id existing data)
    (fun _ s' => intact s' /\ apart_from k existing s').
Proof.
  intros Hne s [[[Hrow Hkids] Hc] Hapart]. unfold upsert_record. case_bool_decide as Hin.
  - crush.
    + match goal with Hr : st_records (session s) !! r_id data = Some ?r |- _ =>
        pose proof (Hapart _ _ Hin Hr) as Hparent; rename Hr into Hold end.
      split; [split; [split; [done|]|done]|].
      * eapply same_children_trans; [exact Hkids|]. intros rid child Hchild. simpl.
        destruct (decide (rid = r_id data)) as [->|Hrid].
        -- rewrite lookup_insert_eq, Hold. split; intros [= <-]; by simpl in *.
        -- by rewrite lookup_insert_ne.
      * intros rid child Hrid. simpl.
        destruct (decide (rid = r_id data)) as [->|Hrid'].
        -- rewrite lookup_insert_eq. by intros [= <-].
        -- rewrite lookup_insert_ne by done. by apply Hapart.
    + match goal with Hr : st_records (session s) !! r_id data = Some ?r |- _ =>
        pose proof (Hapart _ _ Hin Hr) as Hparent; rename Hr into Hold end.
      split; [split; [split; [done|]|done]|].
      * eapply same_children_trans; [exact Hkids|]. intros rid child Hchild. simpl.
        destruct (decide (rid = r_id data)) as [->|Hrid].
        -- rewrite lookup_insert_eq, Hold. split; intros [= <-]; by simpl in *.
        -- by rewrite lookup_insert_ne.
      * intros rid child Hrid. simpl.
        destruct (decide (rid = r_id data)) as [->|Hrid'].
        -- rewrite lookup_insert_eq. by intros [= <-].
        -- rewrite lookup_insert_ne by done. by apply Hapart.
  - crush.
    match goal with Hr : st_records (session s) !! r_id data = None |- _ =>
      rename Hr into Hnew end.
    split; [split; [split; [done|]|done]|].
    + eapply same_children_trans; [exact Hkids|]. intros rid child Hchild. simpl.
      destruct (decide (rid = r_id data)) as [->|Hrid].
      * rewrite lookup_alter_eq, lookup_insert_eq, Hnew. simpl.
        split; [done|]. intros [= <-]. simpl in Hchild. congruence.
      * by rewrite lookup_alter_ne, lookup_insert_ne.
    + intros rid child Hrid. simpl.
      destruct (decide (rid = r_id data)) as [->|Hrid']; [done|].
      rewrite lookup_alter_ne, lookup_insert_ne by done. by apply Hapart.
Qed.

Lemma delete_record_intact existing resource_id :
  resource_id ∈ existing ->
  triple (fun s => intact s /\ apart_from k existing s)
    (delete_record resource_id)
    (fun _ s' => intact s' /\ apart_from k existing s').
Proof.
  intros Hin s [[[Hrow Hkids] Hc] Hapart]. crush.
  split; [split; [split; [done|]|done]|].
  - eapply same_children_trans; [exact Hkids|]. intros rid child Hchild. simpl.
    destruct (decide (rid = resource_id)) as [->|Hrid].
    + rewrite lookup_delete_eq. split; [|done]. intros Hold.
      by destruct (Hapart _ _ Hin Hold).
    + by rewrite lookup_delete_ne.
  - intros rid child Hrid. simpl. intros Hchild. apply (Hapart rid child Hrid).
    by eapply lookup_weaken, delete_subseteq.
Qed.

Lemma db_commit_apart existing :
  triple (fun s => intact s /\ apart_from k existing s) db_commit
    (fun _ s' => intact s' /\ apart_from k existing s').
Proof. intros s [[Hs Hc] Hapart]. crush. Qed.

Lemma record_pass_intact account zone :
  z_zone_id zone ≠ k ->
  stays_intact (try_except (record_pass account zone) (record_pass_failed zone)).
Proof.
  intros Hne. apply triple_inv_try_except; [|apply record_pass_failed_intact].
  unfold record_pass.
  apply (triple_bind _ (fun existing s => intact s /\ apart_from k existing s)).
  - unfold upsert_records.
    apply (triple_bind _ (fun zone_ref s => intact s /\ (forall z, zone_ref = Some z -> z ≠ k))).
    { intros s Hs. pose proof (DNSZone_get_intact (z_zone_id zone) s Hs) as Hget.
      destruct (DNSZone_get (z_zone_id zone) s) as [[zone_ref| |] s1] eqn:Hrun; simpl in *;
        [|done..].
      split; [done|]. intros z ->. by apply DNSZone_get_Some in Hrun as ->. }
    intros [zone_ref|]; [|by intros s [Hs _]].
    apply (triple_bind _ (fun existing s => intact s /\ apart_from k existing s
                                             /\ zone_ref ≠ k)).
    { intros s [Hs Hz]. simpl. split_and!; [done| |by apply Hz].
      intros rid r (r' & Hr' & Hparent)%elem_of_zone_records Hr.
      assert (r = r') as -> by congruence. rewrite Hparent. intros [= ->]. by eapply Hz. }
    intros existing.
    apply (triple_bind _ (fun _ s => intact s /\ apart_from k existing s)).
    { eapply triple_weaken;
        [apply (triple_for_each (fun s => intact s /\ apart_from k existing s /\ zone_ref ≠ k))
        |done|].
      - intros data _ s (Hs & Hapart & Hz).
        destruct (upsert_record_intact account zone_ref existing data Hz s (conj Hs Hapart))
          as [? ?].
        by split_and!.
      - intros [[]| |] s (Hs & Hapart & _); simpl; [done|by destruct Hs..]. }
    intros _. apply (triple_bind _ (fun _ s => intact s /\ apart_from k existing s)).
    { eapply triple_weaken; [apply (db_commit_apart existing)|done|].
      intros [[]| |] s [Hs Hapart]; simpl; [done|by destruct Hs..]. }
    intros _ s [Hs Hapart]. done.
  - intros existing. unfold prune_records.
    apply (triple_bind _ (fun _ s => intact s)).
    + eapply triple_weaken;
        [apply (triple_for_each (fun s => intact s /\ apart_from k existing s))|done|].
      * intros rid [Hin _]%difference_elem. by apply delete_record_intact.
      * intros [[]| |] s [Hs _]; simpl; [done|by destruct Hs..].
    + intros _. apply db_commit_intact.
Qed.

Lemma record_phase_intact zones account :
  k ∉ map z_zone_id zones ->
  stays_intact (record_phase zones account).
Proof.
  intros Hnot. unfold record_phase. apply triple_for_each. intros zone Hzone.
  apply record_pass_intact. intros Heq. apply Hnot. rewrite <- Heq.
  apply list_elem_of_fmap. by exists zone.
Qed.

Lemma process_zones_intact zones account :
  zr_account_id row ≠ account_id account ->
  stays_intact (process_zones zones account).
Proof.
  intros Hacct. unfold process_zones.
  apply triple_inv_bind; [by apply zone_phase_intact|].
  intros [] (s & s' & Hs & Hrun).
  apply record_phase_intact. by eapply zone_phase_Ok_not_foreign.
Qed.

End OtherAccounts.

(** X12. Reconciling one account leaves the others alone. From a state
    with nothing pending, whatever the snapshot, the outcome of the run
    and the calls to the database that fail, a zone stored for another
    account is still stored, unchanged, in the session and in what is
    committed, and the records attached to it are the same as before. *)
Theorem other_accounts_untouched `{Faults} zones account s k row :
  st_zones (session s) !! k = Some row ->
  zr_account_id row ≠ account_id account ->
  committed s = session s ->
  st_zones (session (process_zones zones account s).2) !! k = Some row /\
  st_zones (committed (process_zones zones account s).2) !! k = Some row /\
  forall rid r, rec_zone r = Some k ->
    (st_records (session (process_zones zones account s).2) !! rid = Some r
     <-> st_records (session s) !! rid = Some r) /\
    (st_records (committed (process_zones zones account s).2) !! rid = Some r
     <-> st_records (session s) !! rid = Some r).
Proof.
  intros Hrow Hacct Hclean.
  destruct (process_zones_intact k row (session s) zones account Hacct s)
    as [[Hs Hskids] [Hc Hckids]].
  { unfold zone_intact, zone_kept. rewrite Hclean.
    split_and!; [done| |done|]; apply same_children_refl. }
  split_and!; [done..|]. intros rid r Hr. split; symmetry; [by apply Hskids|by apply Hckids].
Qed.

(** ** The accounts of the collector *)

Lemma py_sum_from (l : list Z) (a : Z) : foldl Z.add a l = a + py_sum l.
Proof.
  unfold py_sum. revert a. induction l as [|x l IH]; intros a; simpl; [lia|].
  rewrite (IH (a + x)), (IH (0 + x)). lia.
Qed.

Lemma py_sum_cons x l : py_sum (x :: l) = x + py_sum l.
Proof. unfold py_sum at 1. simpl. by rewrite py_sum_from. Qed.

Lemma py_sum_Permutation l1 l2 : l1 ≡ₚ l2 -> py_sum l1 = py_sum l2.
Proof.
  induction 1 as [|x l1 l2 _ IH|x y l|l1 l2 l3 _ IH1 _ IH2];
    rewrite ?py_sum_cons; [done|by rewrite IH|lia|congruence].
Qed.

Lemma py_sum_ord_nonneg (l : list ascii) : 0 <= py_sum (ord <$> l).
Proof.
  induction l as [|c l IH]; [done|]. csimpl. rewrite py_sum_cons. unfold ord at 1. lia.
Qed.

(** X13. The number [__init__] derives from an account's name is never
    positive, and it depends on the characters of the name only, not on
    their order: two names made of the same characters get the same
    number. *)
Theorem account_number_of_anagrams (name1 name2 : string) :
  String.list_ascii_of_string name1 ≡ₚ String.list_ascii_of_string name2 ->
  account_number name1 = account_number name2 /\
  account_number name1 <= 0.
Proof.
  intros Hperm. unfold account_number. split.
  - f_equal. apply py_sum_Permutation. by rewrite Hperm.
  - pose proof (py_sum_ord_nonneg (String.list_ascii_of_string name1)). lia.
Qed.

Lemma ensure_account_found name type table acct :
  table !! name = Some acct -> ensure_account name type table = (acct, table).
Proof. intros Hacct. unfold ensure_account, Account_get. by rewrite Hacct. Qed.

Lemma ensure_account_inv name type table acct table' :
  ensure_account name type table = (acct, table') ->
  table' !! name = Some acct /\
  forall name' acct', table !! name' = Some acct' -> table' !! name' = Some acct'.
Proof.
  unfold ensure_account, Account_get.
  destruct (table !! name) as [found|] eqn:Hget; intros [= <- <-].
  - done.
  - split; [apply lookup_insert_eq|]. intros name' acct' Hacct'.
    rewrite lookup_insert_ne; [done|]. intros ->. congruence.
Qed.

(** X14. [__init__] provisions the accounts once. An account that is
    already stored is used as it is and never changed; after a first
    [__init__], a second one with the same switches stores nothing and
    sets the same accounts on the collector; and the account of an enabled
    source is then the one stored under the source's name. *)
Theorem init_is_idempotent (on : sources) (table : accounts) :
  (forall name acct, table !! name = Some acct ->
     (DNSCollector_init on table).2 !! name = Some acct) /\
  DNSCollector_init on (DNSCollector_init on table).2 = DNSCollector_init on table /\
  (axfr_enabled on = true ->
   self_axfr_account (DNSCollector_init on table).1
   = (DNSCollector_init on table).2 !! AXFR_ACCOUNT_NAME /\
   is_Some ((DNSCollector_init on table).2 !! AXFR_ACCOUNT_NAME)) /\
  (cloudflare_enabled on = true ->
   self_cloudflare_account (DNSCollector_init on table).1
   = (DNSCollector_init on table).2 !! CF_ACCOUNT_NAME /\
   is_Some ((DNSCollector_init on table).2 !! CF_ACCOUNT_NAME)).
Proof.
  unfold DNSCollector_init.
  destruct (axfr_enabled on), (cloudflare_enabled on).
  - destruct (ensure_account AXFR_ACCOUNT_NAME DNS_AXFR table) as [axfr table1] eqn:H1.
    destruct (ensure_account CF_ACCOUNT_NAME DNS_CLOUDFLARE table1) as [cf table2] eqn:H2.
    apply ensure_account_inv in H1 as [Ha Hkeep1].
    apply ensure_account_inv in H2 as [Hc Hkeep2].
    cbn [fst snd self_axfr_account self_cloudflare_account].
    rewrite (ensure_account_found _ _ _ _ (Hkeep2 _ _ Ha)).
    rewrite (ensure_account_found _ _ _ _ Hc).
    split_and!; [by auto|done|intros _|intros _].
    + rewrite (Hkeep2 _ _ Ha). by split.
    + rewrite Hc. by split.
  - destruct (ensure_account AXFR_ACCOUNT_NAME DNS_AXFR table) as [axfr table1] eqn:H1.
    apply ensure_account_inv in H1 as [Ha Hkeep1].
    cbn [fst snd self_axfr_account self_cloudflare_account].
    rewrite (ensure_account_found _ _ _ _ Ha).
    split_and!; [done|done|intros _|done].
    rewrite Ha. by split.
  - destruct (ensure_account CF_ACCOUNT_NAME DNS_CLOUDFLARE table) as [cf table1] eqn:H1.
    apply ensure_account_inv in H1 as [Hc Hkeep1].
    cbn [fst snd self_axfr_account self_cloudflare_account].
    rewrite (ensure_account_found _ _ _ _ Hc).
    split_and!; [done|done|done|intros _].
    rewrite Hc. by split.
  - by split_and!.
Qed.

(** ** [run] *)

Section RunProofs.
Context `{Upstream} `{Faults}.

Lemma update_zone_total account existing data : total (update_zone account existing data).
Proof.
  unfold update_zone. case_bool_decide; [|auto with frames].
  apply total_bind; [auto with frames|]. intros [zone|]; [|apply total_raise].
  apply total_bind; [auto with frames|]. intros []; [|apply total_ret].
  apply total_modify.
Qed.

Lemma remove_zone_total resource_id : total (remove_zone resource_id).
Proof. intros s. by rewrite remove_zone_run. Qed.

Lemma zone_phase_total zones account : total (zone_phase zones account).
Proof.
  unfold zone_phase. apply total_bind; [auto with frames|]. intros existing.
  apply total_bind; [apply total_for_each; intros; apply update_zone_total|]. intros _.
  apply total_bind; [auto with frames|]. intros _.
  apply total_bind; [apply total_for_each; intros; apply remove_zone_total|]. intros _.
  auto with frames.
Qed.

Lemma process_zones_total zones account : total (process_zones zones account).
Proof.
  unfold process_zones. apply total_bind; [apply zone_phase_total|]. intros _ s.
  by destruct (record_phase_returns zones account s) as (s' & ->).
Qed.

Lemma axfr_zones_loop_total self names : forall zones, total (axfr_zones_loop self zones names).
Proof.
  induction names as [|name names IH]; intros zones; [apply total_ret|].
  simpl. apply total_bind; [|intros; apply IH].
  intros s. unfold axfr_zone, from_xfr. munfold.
  by destruct (xfr (length (transfers s)) (axfr_server self) name).
Qed.

Lemma retry_total {A} attempts (call : M net A) : total call -> total (retry attempts call).
Proof.
  intros Hcall. induction attempts as [|attempts IH]; [done|].
  simpl. by apply total_try_except.
Qed.

Lemma get_axfr_records_total self : total (get_axfr_records self).
Proof. apply retry_total, axfr_zones_loop_total. Qed.

Lemma on_net_total {A} (m : M net A) : total m -> total (on_net m).
Proof. intros Hm w. apply Hm. Qed.

Lemma on_db_total {A} (m : M db A) : total m -> total (on_db m).
Proof. intros Hm w. apply Hm. Qed.

Lemma caught_returns {A} (m : M world A) (handler : exn -> M world A) w :
  (forall e w', exists a, (handler e w').1 = Ok a) ->
  (m w).1 ≠ Diverge ->
  exists a, (try_except m handler w).1 = Ok a.
Proof.
  intros Hh Hm. unfold try_except. destruct (m w) as [[a|e|] w'] eqn:Hrun; simpl in *.
  - by exists a.
  - apply Hh.
  - done.
Qed.

Lemma run_axfr_returns self w : (run_axfr self w).1 = Ok tt.
Proof.
  unfold run_axfr. destruct (axfr_enabled (enabled self)); [|done].
  destruct (caught_returns
              (zones ← on_net (get_axfr_records (settings self));
               on_db (process_zones zones (axfr_account self)))
              (log_failure "Failed processing domains via AXFR") w) as ([] & Hret);
    [by intros; exists tt| |done].
  apply total_bind; [apply on_net_total, get_axfr_records_total|].
  intros zones. apply on_db_total, process_zones_total.
Qed.

Lemma run_cloudflare_never_raises self fuel w e :
  (run_cloudflare self fuel w).1 ≠ Raise e.
Proof.
  unfold run_cloudflare. destruct (cloudflare_enabled (enabled self)); [|done].
  unfold try_except.
  by destruct ((zones ← on_net (get_cloudflare_records fuel);
                on_db (process_zones zones (cloudflare_account self))) w) as [[[]|e'|] w'].
Qed.

Lemma run_after_axfr self fuel w :
  run self fuel w = run_cloudflare self fuel (run_axfr self w).2.
Proof.
  pose proof (run_axfr_returns self w) as Haxfr.
  unfold run. munfold. by destruct (run_axfr self w) as [[[]| |] w1].
Qed.

(** X15. No exception leaves [run], and a failure of the zone-transfer
    source never keeps the CloudFlare source from being processed: the
    block of the first source always comes to its end, whatever fails in
    it (a transfer, the database), and the block of the second source then
    runs from the state the first has left. *)
Theorem run_never_raises (self : collector) (fuel : nat) (w : world) :
  (forall e, (run self fuel w).1 ≠ Raise e) /\
  (run_axfr self w).1 = Ok tt /\
  run self fuel w = run_cloudflare self fuel (run_axfr self w).2.
Proof.
  split_and!; [|apply run_axfr_returns|apply run_after_axfr].
  intros e. rewrite run_after_axfr. apply run_cloudflare_never_raises.
Qed.

(** X16. A source that cannot be fetched costs the store nothing. When
    the name server never answers the transfer of one configured domain
    and CloudFlare answers the first page of the zone listing with a
    status other than 200, [run] returns, having made no call to the
    database and changed nothing in it, and having logged one failure for
    each source: the stored zones of a source that is down are not taken
    for zones that are gone. *)
Theorem unreachable_sources_leave_the_store (self : collector) (fuel : nat) (w : world)
    (name : string) :
  axfr_enabled (enabled self) = true ->
  cloudflare_enabled (enabled self) = true ->
  name ∈ axfr_domains (settings self) ->
  (forall n, xfr n (axfr_server (settings self)) name = None) ->
  status_code (cloudflare_zones (page_args 1)) ≠ 200 ->
  exists failed n0,
    failed ∈ axfr_domains (settings self) /\
    get_axfr_records (settings self) (w_net w) = (Raise (TransferError failed), n0) /\
    run self (S fuel) w
    = (Ok tt,
       {| w_net := session_get (GetZones (page_args 1)) n0;
          w_db := w_db w;
          w_failures :=
            w_failures w
            ++ [ ("Failed processing domains via AXFR", TransferError failed);
                 ("Failed processing domains via CloudFlare",
                  CloudFlareError
                    ("Request failed: " +:+ text (cloudflare_zones (page_args 1)))) ] |}).
Proof.
  intros Haxfr Hcf Hin Hnone Hdown.
  destruct (axfr_unanswered_fails (settings self) name (w_net w) Hin Hnone)
    as (failed & n0 & Hfetch & Hfailed).
  exists failed, n0. split_and!; [done..|].
  assert (run_axfr self w
          = (Ok tt, {| w_net := n0; w_db := w_db w;
                       w_failures := w_failures w
                         ++ [("Failed processing domains via AXFR", TransferError failed)] |}))
    as Hfirst.
  { unfold run_axfr. rewrite Haxfr. unfold try_except, on_net. munfold. by rewrite Hfetch. }
  assert (get_cloudflare_records (S fuel) n0
          = (Raise (request_failed cloudflare_zones 1), session_get (GetZones (page_args 1)) n0))
    as Hlist.
  { apply cloudflare_records_Raise_iff, list_zones_Raise_iff.
    exists 0%nat. split_and!; [lia|intros p ?; lia|done..]. }
  rewrite run_after_axfr, Hfirst.
  unfold run_cloudflare. rewrite Hcf. unfold try_except, on_net. munfold. simpl.
  rewrite Hlist. simpl. unfold log_failure, modify. simpl. by rewrite <- (assoc_L _).
Qed.

End RunProofs.

(** ** The browsing view: pages and slices *)


Lemma slice_window {A} (l : list A) (start len : Z) :
  0 <= start -> 0 <= len ->
  Py.slice l start (start + len) = take (Z.to_nat len) (drop (Z.to_nat start) l).
Proof.
  intros Hstart Hlen. unfold Py.slice, Py.clamp_index.
  destruct (Z.ltb_spec start 0) as [?|_]; [lia|].
  destruct (Z.ltb_spec (start + len) 0) as [?|_]; [lia|].
  destruct (decide (Z.of_nat (length l) <= start)) as [Hout|Hin].
  - rewrite !drop_ge by lia. by rewrite !take_nil.
  - replace (Z.to_nat (start `min` Z.of_nat (length l))) with (Z.to_nat start) by lia.
    destruct (decide (start + len <= Z.of_nat (length l))) as [Hfit|Hover].
    + f_equal. lia.
    + rewrite !take_ge; rewrite ?length_drop; [done|lia..].
Qed.

Lemma slice_until_zero {A} (l : list A) (start : Z) : Py.slice l start 0 = [].
Proof.
  unfold Py.slice. set (lo := Py.clamp_index _ start).
  assert (Py.clamp_index (Z.of_nat (length l)) 0 = 0) as ->
    by (unfold Py.clamp_index; simpl; lia).
  assert (0 <= lo) by (unfold lo, Py.clamp_index; destruct (Z.ltb_spec start 0); lia).
  by replace (Z.to_nat (0 - lo)) with 0%nat by lia.
Qed.

Lemma slice_from_end {A} (l : list A) (start stop : Z) :
  start < 0 -> stop < 0 -> 0 <= start + Z.of_nat (length l) ->
  Py.slice l start stop
  = take (Z.to_nat (stop - start)) (drop (Z.to_nat (start + Z.of_nat (length l))) l).
Proof.
  intros Hstart Hstop Hlen. unfold Py.slice, Py.clamp_index.
  destruct (Z.ltb_spec start 0) as [_|?]; [|lia].
  destruct (Z.ltb_spec stop 0) as [_|?]; [|lia].
  replace (Z.to_nat (0 `max` (start + Z.of_nat (length l))))
    with (Z.to_nat (start + Z.of_nat (length l))) by lia.
  f_equal. lia.
Qed.

Section Views.
Variables (st : store) (zone_id : string) (zone : zone_row).
Hypothesis Hzone : st_zones st !! zone_id = Some zone.

Lemma DNSZoneRecords_get_stored args :
  DNSZoneRecords_get st zone_id args
  = Ok {| recordCount := Z.of_nat (length (zone_record_views zone_id st));
          records := Py.slice (zone_record_views zone_id st)
                       ((page args - 1) * count args)
                       ((page args - 1) * count args + count args) |}.
Proof. unfold DNSZoneRecords_get. by rewrite Hzone. Qed.

End Views.

(** X17. For a stored zone, a page number from 1 on and a count that is not
    negative, [DNSZoneRecords.get] returns the window of at most [count]
    records that starts after the [(page - 1) * count] first ones, and
    [recordCount] is the number of records of the zone whatever the page. *)
Theorem zone_records_page_window st zone_id zone args :
  st_zones st !! zone_id = Some zone ->
  1 <= page args -> 0 <= count args ->
  DNSZoneRecords_get st zone_id args
  = Ok {| recordCount := Z.of_nat (length (zone_record_views zone_id st));
          records := take (Z.to_nat (count args))
                       (drop (Z.to_nat ((page args - 1) * count args))
                          (zone_record_views zone_id st)) |}.
Proof.
  intros Hzone Hpage Hcount. rewrite (DNSZoneRecords_get_stored _ _ _ Hzone).
  by rewrite slice_window by nia.
Qed.

Lemma page_of_window st zone_id zone c p :
  st_zones st !! zone_id = Some zone -> 1 <= p -> 0 <= c ->
  page_of st zone_id c p
  = take (Z.to_nat c) (drop (Z.to_nat ((p - 1) * c)) (zone_record_views zone_id st)).
Proof.
  intros Hzone Hp Hc. unfold page_of.
  rewrite (DNSZoneRecords_get_stored _ _ _ Hzone). simpl. by rewrite slice_window by nia.
Qed.

Lemma pages_take st zone_id zone c (n : nat) :
  st_zones st !! zone_id = Some zone -> 0 <= c ->
  concat (page_of st zone_id c <$> seqZ 1 (Z.of_nat n))
  = take (n * Z.to_nat c) (zone_record_views zone_id st).
Proof.
  intros Hzone Hc. induction n as [|n IH]; [done|].
  rewrite seqZ_S, fmap_app, concat_app, IH. simpl.
  rewrite app_nil_r, (page_of_window _ _ _ _ _ Hzone) by lia.
  replace (Z.to_nat ((1 + Z.of_nat n - 1) * c)) with (n * Z.to_nat c)%nat by nia.
  rewrite take_take_drop. f_equal. lia.
Qed.

(** X18. For a stored zone and a positive count, the pages 1, 2, ..., [n]
    follow one another without gap or overlap: together they are the
    first [n * count] records of the zone, hence all of them once
    [n * count] reaches their number. *)
Theorem zone_records_pages_cover st zone_id zone c (n : nat) :
  st_zones st !! zone_id = Some zone ->
  0 < c ->
  concat (page_of st zone_id c <$> seqZ 1 (Z.of_nat n))
  = take (n * Z.to_nat c) (zone_record_views zone_id st) /\
  (Z.of_nat (length (zone_record_views zone_id st)) <= Z.of_nat n * c ->
   concat (page_of st zone_id c <$> seqZ 1 (Z.of_nat n)) = zone_record_views zone_id st).
Proof.
  intros Hzone Hc. rewrite (pages_take _ _ _ _ _ Hzone) by lia. split; [done|].
  intros Hall. apply take_ge. nia.
Qed.

(** X19. Page numbers below 1 are not refused. For a stored zone, page 0
    returns no record, whatever the count; a negative page with a positive
    count returns records counted from the end of the list: page [-k] is the
    window of [count] records that ends [k * count] records before the end,
    when the zone has that many. *)
Theorem zone_records_page_below_one st zone_id zone (c k : Z) :
  st_zones st !! zone_id = Some zone ->
  0 < c -> 0 < k ->
  (k + 1) * c <= Z.of_nat (length (zone_record_views zone_id st)) ->
  (forall c', page_of st zone_id c' 0 = []) /\
  page_of st zone_id c (- k)
  = take (Z.to_nat c)
      (drop (Z.to_nat (Z.of_nat (length (zone_record_views zone_id st)) - (k + 1) * c))
         (zone_record_views zone_id st)).
Proof.
  intros Hzone Hc Hk Hlen. unfold page_of. split.
  - intros c'. rewrite (DNSZoneRecords_get_stored _ _ _ Hzone). simpl.
    replace ((0 - 1) * c' + c') with 0 by lia. apply slice_until_zero.
  - rewrite (DNSZoneRecords_get_stored _ _ _ Hzone). simpl.
    rewrite slice_from_end by nia. f_equal; [f_equal; lia|].
    f_equal. f_equal. lia.
Qed.

(** X20. A negative count is not refused either. For a stored zone, page 1
    with the count [-k] returns all the records of the zone but the last
    [k]: the response is not bounded by a page size. *)
Theorem zone_records_negative_count st zone_id zone (c : Z) :
  st_zones st !! zone_id = Some zone ->
  c < 0 ->
  page_of st zone_id c 1
  = take (length (zone_record_views zone_id st) - Z.to_nat (- c))
      (zone_record_views zone_id st).
Proof.
  intros Hzone Hcount. unfold page_of.
  rewrite (DNSZoneRecords_get_stored _ _ _ Hzone). simpl.
  replace ((1 - 1) * c) with 0 by lia. rewrite Z.add_0_l.
  unfold Py.slice, Py.clamp_index. simpl.
  destruct (Z.ltb_spec c 0) as [_|?]; [|lia].
  replace (Z.to_nat (0 `min` _)) with 0%nat by lia. rewrite drop_0. f_equal. lia.
Qed.


(** ** Concrete instances *)

Lemma missing_total_pages_is_one_page_witness :
  @cloudflare_list_zones unpaged_upstream 5 net0
  = (Ok [{| cf_zone_id := "023e105f"; cf_zone_name := "example.com" |}],
     {| cloudflare_initialized := true;
        requests := [GetZones {| arg_page := 1; arg_per_page := 100 |}];
        transfers := [] |}) /\
  @cloudflare_list_zone_records unpaged_upstream 5 "023e105f" net0
  = (Ok [{| m_name := "www.example.com"; m_value := ["192.0.2.1"]; m_type := "A" |}],
     {| cloudflare_initialized := true;
        requests := [GetZoneRecords "023e105f" {| arg_page := 1; arg_per_page := 100 |}];
        transfers := [] |}).
Proof.
  exact (@missing_total_pages_is_one_page unpaged_upstream "023e105f" 4 net0
           eq_refl eq_refl eq_refl eq_refl).
Defined.

Lemma cloudflare_snapshot_follows_listing_witness :
  exists zobjs s1,
    @cloudflare_list_zones (sample_upstream "1.1.1.1") 3 net0 = (Ok zobjs, s1) /\
    z_name <$> sample_cloudflare_snapshot `sublist_of` cf_zone_name <$> zobjs /\
    Forall (fun zone =>
              z_zone_id zone = plain_resource_id "cfz" [z_name zone] /\
              z_source zone = "CloudFlare" /\
              z_comment zone = None /\
              z_tags zone = [] /\
              Forall (fun record => r_zone_id record = z_zone_id zone) (z_records zone))
      sample_cloudflare_snapshot.
Proof.
  exact (@cloudflare_snapshot_follows_listing (sample_upstream "1.1.1.1") 3 net0
           sample_cloudflare_snapshot _ sample_cloudflare_run).
Defined.

Lemma axfr_snapshot_follows_domains_witness :
  z_name <$> sample_axfr_snapshot `sublist_of` ["example.net"; "empty.example"] /\
  Forall (fun zone =>
            z_zone_id zone = plain_resource_id "axfrz" [z_name zone] /\
            z_source zone = "AXFR" /\
            z_comment zone = None /\
            z_tags zone = [] /\
            Forall (fun record =>
                      r_zone_id record = z_zone_id zone /\
                      exists value, r_value record = [value])
              (z_records zone))
    sample_axfr_snapshot.
Proof.
  exact (@axfr_snapshot_follows_domains (sample_upstream "1.1.1.1") sample_collector net0
           sample_axfr_snapshot _ sample_axfr_run).
Defined.

Lemma sample_transfers_answered n name :
  name ∈ axfr_domains sample_collector ->
  @xfr (sample_upstream "1.1.1.1") n (axfr_server sample_collector) name
  = Some (sample_rows name).
Proof.
  intros [->|[->|[]%elem_of_nil]%elem_of_cons]%elem_of_cons; reflexivity.
Defined.

Lemma axfr_transfers_answered_witness :
  @get_axfr_records (sample_upstream "1.1.1.1") sample_collector net0
  = (Ok sample_axfr_snapshot,
     {| cloudflare_initialized := false;
        requests := [];
        transfers := [ ("ns1.example.net", "example.net");
                       ("ns1.example.net", "empty.example") ] |}).
Proof.
  refine (eq_trans
            (@axfr_transfers_answered (sample_upstream "1.1.1.1") sample_collector
               sample_rows net0 sample_transfers_answered) _).
  vm_compute. reflexivity.
Defined.

Lemma axfr_unanswered_domain_fails_witness :
  exists failed s',
    @get_axfr_records down_upstream sample_collector net0
    = (Raise (TransferError failed), s') /\
    failed ∈ ["example.net"; "empty.example"].
Proof.
  refine (@axfr_unanswered_domain_fails down_upstream sample_collector "example.net" net0 _ _).
  - left.
  - intros n. reflexivity.
Defined.

Lemma successful_run_mirrors_snapshot_witness :
  committed bcd_first_run.2 = session bcd_first_run.2 /\
  (forall zone, zone ∈ [bcd_zone "192.0.2.2"] ->
     (exists row, st_zones (session bcd_first_run.2) !! z_zone_id zone = Some row /\
                  zr_account_id row = account_id sample_account /\
                  zr_name row = z_name zone /\ zr_source row = z_source zone /\
                  zr_comment row = z_comment zone /\ zr_tags row = z_tags zone) /\
     (forall data, data ∈ z_records zone ->
        exists row, st_records (session bcd_first_run.2) !! r_id data = Some row /\
                    rec_zone row = Some (z_zone_id zone) /\
                    rec_name row = r_name data /\ rec_value row = r_value data /\
                    rec_type row = r_type data) /\
     (forall k row, st_records (session bcd_first_run.2) !! k = Some row ->
        rec_zone row = Some (z_zone_id zone) -> k ∈ map r_id (z_records zone))) /\
  (forall k row, st_zones (session bcd_first_run.2) !! k = Some row ->
     zr_account_id row = account_id sample_account -> k ∈ map z_zone_id [bcd_zone "192.0.2.2"]).
Proof.
  exact (@successful_run_mirrors_snapshot no_faults [bcd_zone "192.0.2.2"] sample_account
           (db_of abc_store) bcd_first_run.2 (NoDup_singleton _)
           bcd_first_run_returns bcd_first_run_logged).
Defined.

Lemma bcd_first_run_synced :
  synced [bcd_zone "192.0.2.2"] sample_account (session bcd_first_run.2) /\
  committed bcd_first_run.2 = session bcd_first_run.2.
Proof.
  exact (@process_zones_synced no_faults [bcd_zone "192.0.2.2"] sample_account
           (db_of abc_store) bcd_first_run.2 (NoDup_singleton _)
           bcd_first_run_returns bcd_first_run_logged).
Defined.

Lemma mirrored_store_is_left_alone_witness :
  (@process_zones (fault_at 8) [bcd_zone "192.0.2.2"] sample_account bcd_first_run.2).1
    = Raise StorageError /\
  writes (@process_zones (fault_at 8) [bcd_zone "192.0.2.2"] sample_account bcd_first_run.2).2
    = writes bcd_first_run.2 /\
  session (@process_zones (fault_at 8) [bcd_zone "192.0.2.2"] sample_account bcd_first_run.2).2
    = session bcd_first_run.2 /\
  committed (@process_zones (fault_at 8) [bcd_zone "192.0.2.2"] sample_account bcd_first_run.2).2
    = session bcd_first_run.2.
Proof.
  split; [vm_compute; reflexivity|].
  exact (@mirrored_store_is_left_alone (fault_at 8) [bcd_zone "192.0.2.2"] sample_account
           bcd_first_run.2 (proj1 bcd_first_run_synced) (proj2 bcd_first_run_synced)).
Defined.

Lemma abc_store_zone_1 : st_zones abc_store !! "zone-1" = Some (stored_zone "example.com").
Proof. vm_compute. reflexivity. Defined.

Lemma mixed_store_zone_1 : st_zones mixed_store !! "zone-1" = Some (stored_zone "example.com").
Proof. vm_compute. reflexivity. Defined.

Lemma other_accounts_untouched_witness :
  st_zones (session (@process_zones no_faults [other_zone] sample_axfr_account
                       (db_of abc_store)).2) !! "zone-1"
  = Some (stored_zone "example.com") /\
  st_zones (committed (@process_zones no_faults [other_zone] sample_axfr_account
                         (db_of abc_store)).2) !! "zone-1"
  = Some (stored_zone "example.com") /\
  forall rid r, rec_zone r = Some "zone-1" ->
    (st_records (session (@process_zones no_faults [other_zone] sample_axfr_account
                            (db_of abc_store)).2) !! rid = Some r
     <-> st_records abc_store !! rid = Some r) /\
    (st_records (committed (@process_zones no_faults [other_zone] sample_axfr_account
                              (db_of abc_store)).2) !! rid = Some r
     <-> st_records abc_store !! rid = Some r).
Proof.
  refine (@other_accounts_untouched no_faults [other_zone] sample_axfr_account
            (db_of abc_store) "zone-1" (stored_zone "example.com") abc_store_zone_1 _ eq_refl).
  simpl. lia.
Defined.

Lemma account_number_of_anagrams_witness :
  account_number "DNS: AXFR" = account_number "DNS: AFXR" /\
  account_number "DNS: AXFR" <= 0.
Proof.
  apply account_number_of_anagrams. simpl. do 6 apply perm_skip. apply perm_swap.
Defined.

Lemma unreachable_sources_leave_the_store_witness :
  exists failed n0,
    failed ∈ ["example.net"; "empty.example"] /\
    @get_axfr_records down_upstream sample_collector net0 = (Raise (TransferError failed), n0) /\
    @run down_upstream no_faults sample_self 1 sample_world
    = (Ok tt,
       {| w_net := session_get (GetZones (page_args 1)) n0;
          w_db := db_of abc_store;
          w_failures :=
            [ ("Failed processing domains via AXFR", TransferError failed);
              ("Failed processing domains via CloudFlare",
               CloudFlareError "Request failed: Service Unavailable") ] |}).
Proof.
  refine (@unreachable_sources_leave_the_store down_upstream no_faults sample_self 0
            sample_world "example.net" eq_refl eq_refl _ _ _).
  - left.
  - intros n. reflexivity.
  - simpl. lia.
Defined.

Lemma zone_records_page_window_witness :
  DNSZoneRecords_get mixed_store "zone-1" {| page := 2; type_ := None; count := 1 |}
  = Ok {| recordCount := Z.of_nat (length (zone_record_views "zone-1" mixed_store));
          records := take 1 (drop 1 (zone_record_views "zone-1" mixed_store)) |}.
Proof.
  refine (@zone_records_page_window mixed_store "zone-1" (stored_zone "example.com")
            {| page := 2; type_ := None; count := 1 |} mixed_store_zone_1 _ _); simpl; lia.
Defined.

Lemma zone_records_pages_cover_witness :
  concat (page_of mixed_store "zone-1" 1 <$> seqZ 1 2)
  = take 2 (zone_record_views "zone-1" mixed_store) /\
  (Z.of_nat (length (zone_record_views "zone-1" mixed_store)) <= 2 * 1 ->
   concat (page_of mixed_store "zone-1" 1 <$> seqZ 1 2) = zone_record_views "zone-1" mixed_store).
Proof.
  refine (@zone_records_pages_cover mixed_store "zone-1" (stored_zone "example.com") 1 2
            mixed_store_zone_1 _).
  lia.
Defined.

Lemma mixed_store_two_records :
  (1 + 1) * 1 <= Z.of_nat (length (zone_record_views "zone-1" mixed_store)).
Proof. vm_compute. discriminate. Defined.

Lemma zone_records_page_below_one_witness :
  (forall c', page_of mixed_store "zone-1" c' 0 = []) /\
  page_of mixed_store "zone-1" 1 (-1)
  = take 1 (drop (Z.to_nat (Z.of_nat (length (zone_record_views "zone-1" mixed_store))
                            - (1 + 1) * 1))
              (zone_record_views "zone-1" mixed_store)).
Proof.
  refine (@zone_records_page_below_one mixed_store "zone-1" (stored_zone "example.com") 1 1
            mixed_store_zone_1 _ _ mixed_store_two_records); lia.
Defined.

Lemma zone_records_negative_count_witness :
  page_of mixed_store "zone-1" (-1) 1
  = take (length (zone_record_views "zone-1" mixed_store) - 1)
      (zone_record_views "zone-1" mixed_store).
Proof.
  refine (@zone_records_negative_count mixed_store "zone-1" (stored_zone "example.com") (-1)
            mixed_store_zone_1 _).
  lia.
Defined.

(** ** The stop test *)

Lemma last_page_stop_test {row} (p : Z) (body : cf_body row) :
  last_page p body = true <-> stop_test p body.
Proof.
  unfold last_page, stop_test. destruct (total_pages body) as [t|].
  - rewrite Z.eqb_eq. split; [intros ->; by right|]. intros [?|[= ->]]; done.
  - split; [by left|done].
Qed.

Lemma last_page_not_stop_test {row} (p : Z) (body : cf_body row) :
  last_page p body = false <-> ~ stop_test p body.
Proof.
  rewrite <- last_page_stop_test. by destruct (last_page p body).
Qed.

Lemma page_ends_answered_last {row} (endpoint : cf_args -> http_response row) (p : Z) :
  page_ends endpoint p <-> answered_last endpoint p.
Proof. unfold page_ends, answered_last. by rewrite last_page_stop_test. Qed.

Lemma page_continues_answered_more {row} (endpoint : cf_args -> http_response row) (p : Z) :
  page_continues endpoint p <-> answered_more endpoint p.
Proof. unfold page_continues, answered_more. by rewrite last_page_not_stop_test. Qed.

Lemma not_stop_test_below {row} (p t : Z) (body : cf_body row) :
  total_pages body = Some t -> t < p -> ~ stop_test p body.
Proof. intros Ht Hlt [Hnone|Hsome]; [congruence|]. rewrite Ht in Hsome. injection Hsome. lia. Qed.

(** ** The listing loops over a connection that can fail *)

Section WirePagination.
Context `{Transport} {row acc : Type}.
Variable endpoint : cf_args -> http_response row.
Variable path : cf_args -> cf_request.
Variable step : acc -> list row -> acc.

Lemma wire_request_read p s :
  page_read endpoint path p ->
  Wire.cloudflare_request endpoint path p s
  = (Ok (json (endpoint (page_args p))), session_get (path (page_args p)) s).
Proof.
  intros (Hsent & H200 & Hbody). unfold Wire.cloudflare_request, page_args in *. munfold.
  by rewrite Hsent, H200, Hbody.
Qed.

Lemma wire_request_raises p e s :
  page_raises endpoint path p e ->
  Wire.cloudflare_request endpoint path p s = (Raise e, session_get (path (page_args p)) s).
Proof.
  unfold Wire.cloudflare_request, page_raises, page_args. munfold.
  intros [(reason & -> & ->)|[(-> & Hne & ->)|(-> & -> & reason & -> & ->)]]; [done| |done].
  by destruct (Z.eqb_spec (status_code (endpoint {| arg_page := p; arg_per_page := 100 |})) 200).
Qed.

Lemma page_cases_wire p :
  page_stops endpoint path p \/ page_goes_on endpoint path p \/
  exists e, page_raises endpoint path p e.
Proof.
  unfold page_stops, page_goes_on, page_raises, page_read.
  destruct (transport_fault (path (page_args p))) as [reason|] eqn:Hsent;
    [right; right; exists (TransportError reason); left; by exists reason|].
  destruct (decide (status_code (endpoint (page_args p)) = 200)) as [H200|H200];
    [|right; right; eexists; right; left; done].
  destruct (body_fault (path (page_args p))) as [reason|] eqn:Hbody;
    [right; right; exists (BodyError reason); right; right; split_and!; [done..|by exists reason]|].
  destruct (last_page p (json (endpoint (page_args p)))) eqn:Hlast.
  - left. split; [done|]. by apply last_page_stop_test.
  - right. left. split; [done|]. by apply last_page_not_stop_test.
Qed.

Lemma page_raises_not_read p e :
  page_raises endpoint path p e -> ~ page_read endpoint path p.
Proof.
  intros [(reason & Hr & _)|[(_ & Hne & _)|(_ & _ & reason & Hr & _)]] (Hsent & H200 & Hbody);
    congruence.
Qed.

Lemma wire_paginate_stops fuel p a s :
  page_stops endpoint path p ->
  wire_paginate endpoint path step (S fuel) p a s
  = (Ok (step a (result (json (endpoint (page_args p))))),
     session_get (path (page_args p)) s).
Proof.
  intros [Hread Hstop]. simpl.
  rewrite (bind_Ok _ _ _ _ _ (wire_request_read p s Hread)).
  by rewrite (proj2 (last_page_stop_test _ _) Hstop).
Qed.

Lemma wire_paginate_goes_on fuel p a s :
  page_goes_on endpoint path p ->
  wire_paginate endpoint path step (S fuel) p a s
  = wire_paginate endpoint path step fuel (p + 1)
      (step a (result (json (endpoint (page_args p)))))
      (session_get (path (page_args p)) s).
Proof.
  intros [Hread Hstop]. simpl.
  rewrite (bind_Ok _ _ _ _ _ (wire_request_read p s Hread)).
  by rewrite (proj2 (last_page_not_stop_test _ _) Hstop).
Qed.

Lemma wire_paginate_raises fuel p e a s :
  page_raises endpoint path p e ->
  wire_paginate endpoint path step (S fuel) p a s
  = (Raise e, session_get (path (page_args p)) s).
Proof.
  intros Hraise. simpl. by rewrite (bind_Raise _ _ _ _ _ (wire_request_raises p e s Hraise)).
Qed.

(** What the outcome of the scheme tells: a returned value comes from a
    page that stops after pages that go on, an exception from a page that
    raises it after pages that go on, and the steps run out only on pages
    that all go on. *)
Lemma wire_paginate_outcome fuel : forall first a s,
  match wire_paginate endpoint path step fuel first a s with
  | (Ok r, s') =>
      exists n : nat,
        (n < fuel)%nat /\
        (forall p, first <= p < first + Z.of_nat n -> page_goes_on endpoint path p) /\
        page_stops endpoint path (first + Z.of_nat n) /\
        r = foldl step a (pages_results endpoint first (S n)) /\
        s' = sent (pages_requests path first (S n)) s
  | (Raise e, s') =>
      exists n : nat,
        (n < fuel)%nat /\
        (forall p, first <= p < first + Z.of_nat n -> page_goes_on endpoint path p) /\
        page_raises endpoint path (first + Z.of_nat n) e /\
        s' = sent (pages_requests path first (S n)) s
  | (Diverge, s') =>
      forall p, first <= p < first + Z.of_nat fuel -> page_goes_on endpoint path p
  end.
Proof.
  induction fuel as [|fuel IH]; intros first a s; [simpl; intros; lia|].
  destruct (page_cases_wire first) as [Hstop|[Hon|(e & Hraise)]].
  - rewrite wire_paginate_stops by done. exists 0%nat. rewrite Z.add_0_r.
    split_and!; [lia|intros; lia|done..].
  - rewrite wire_paginate_goes_on by done.
    specialize (IH (first + 1) (step a (result (json (endpoint (page_args first)))))
                  (session_get (path (page_args first)) s)).
    destruct (wire_paginate endpoint path step fuel (first + 1) _ _) as [[r|e|] s'].
    + destruct IH as (n & Hn & Hc & Hs & -> & ->). exists (S n).
      rewrite !(pages_results_S endpoint), !(pages_requests_S path).
      replace (first + Z.of_nat (S n)) with (first + 1 + Z.of_nat n) by lia.
      split_and!; [lia| |done..].
      intros p Hp. destruct (decide (p = first)) as [->|]; [done|apply Hc; lia].
    + destruct IH as (n & Hn & Hc & Hr & ->). exists (S n).
      rewrite !(pages_requests_S path).
      replace (first + Z.of_nat (S n)) with (first + 1 + Z.of_nat n) by lia.
      split_and!; [lia| |done..].
      intros p Hp. destruct (decide (p = first)) as [->|]; [done|apply Hc; lia].
    + intros p Hp. destruct (decide (p = first)) as [->|]; [done|apply IH; lia].
  - rewrite wire_paginate_raises with (e := e) by done. exists 0%nat. rewrite Z.add_0_r.
    split_and!; [lia|intros; lia|done..].
Qed.

(** [n] pages that go on are requested one after the other. *)
Lemma wire_paginate_run n : forall fuel first a s,
  (forall p, first <= p < first + Z.of_nat n -> page_goes_on endpoint path p) ->
  wire_paginate endpoint path step (n + fuel) first a s
  = wire_paginate endpoint path step fuel (first + Z.of_nat n)
      (foldl step a (pages_results endpoint first n))
      (sent (pages_requests path first n) s).
Proof.
  induction n as [|n IH]; intros fuel first a s Hc.
  - simpl. by rewrite Z.add_0_r.
  - rewrite (pages_results_S endpoint), (pages_requests_S path).
    change (S n + fuel)%nat with (S (n + fuel)).
    rewrite wire_paginate_goes_on by (apply Hc; lia).
    rewrite IH by (intros p Hp; apply Hc; lia).
    unfold sent. cbn [foldl]. f_equal. lia.
Qed.

Lemma wire_paginate_returns (n : nat) fuel first a s :
  (n < fuel)%nat ->
  (forall p, first <= p < first + Z.of_nat n -> page_goes_on endpoint path p) ->
  page_stops endpoint path (first + Z.of_nat n) ->
  wire_paginate endpoint path step fuel first a s
  = (Ok (foldl step a (pages_results endpoint first (S n))),
     sent (pages_requests path first (S n)) s).
Proof.
  intros Hn Hc He.
  replace fuel with (n + S (fuel - S n))%nat by lia.
  rewrite wire_paginate_run, wire_paginate_stops by done.
  f_equal.
  - unfold pages_results. rewrite seqZ_S, fmap_app, foldl_app. done.
  - unfold pages_requests, sent. rewrite seqZ_S, fmap_app, foldl_app. done.
Qed.

Lemma wire_paginate_fails (n : nat) fuel first e a s :
  (n < fuel)%nat ->
  (forall p, first <= p < first + Z.of_nat n -> page_goes_on endpoint path p) ->
  page_raises endpoint path (first + Z.of_nat n) e ->
  wire_paginate endpoint path step fuel first a s
  = (Raise e, sent (pages_requests path first (S n)) s).
Proof.
  intros Hn Hc He.
  replace fuel with (n + S (fuel - S n))%nat by lia.
  rewrite wire_paginate_run, wire_paginate_raises with (e := e) by done.
  f_equal. unfold pages_requests, sent. rewrite seqZ_S, fmap_app, foldl_app. done.
Qed.

Lemma wire_paginate_diverges fuel first a s :
  (forall p, first <= p < first + Z.of_nat fuel -> page_goes_on endpoint path p) ->
  (wire_paginate endpoint path step fuel first a s).1 = Diverge.
Proof.
  intros Hc. replace fuel with (fuel + 0)%nat by lia.
  by rewrite wire_paginate_run.
Qed.

Lemma wire_paginate_Ok_iff fuel first a s r s' :
  wire_paginate endpoint path step fuel first a s = (Ok r, s') <->
  exists n : nat,
    (n < fuel)%nat /\
    (forall p, first <= p < first + Z.of_nat n -> page_goes_on endpoint path p) /\
    page_stops endpoint path (first + Z.of_nat n) /\
    r = foldl step a (pages_results endpoint first (S n)) /\
    s' = sent (pages_requests path first (S n)) s.
Proof.
  split.
  - intros Hrun. pose proof (wire_paginate_outcome fuel first a s) as Hout.
    by rewrite Hrun in Hout.
  - intros (n & Hn & Hc & Hs & -> & ->). by apply wire_paginate_returns.
Qed.

Lemma wire_paginate_Raise_iff fuel first a s e s' :
  wire_paginate endpoint path step fuel first a s = (Raise e, s') <->
  exists n : nat,
    (n < fuel)%nat /\
    (forall p, first <= p < first + Z.of_nat n -> page_goes_on endpoint path p) /\
    page_raises endpoint path (first + Z.of_nat n) e /\
    s' = sent (pages_requests path first (S n)) s.
Proof.
  split.
  - intros Hrun. pose proof (wire_paginate_outcome fuel first a s) as Hout.
    by rewrite Hrun in Hout.
  - intros (n & Hn & Hc & Hs & ->). by apply wire_paginate_fails.
Qed.

Lemma wire_paginate_Diverge_iff fuel first a s :
  (wire_paginate endpoint path step fuel first a s).1 = Diverge <->
  forall p, first <= p < first + Z.of_nat fuel -> page_goes_on endpoint path p.
Proof.
  split; [|apply wire_paginate_diverges].
  intros Hrun. pose proof (wire_paginate_outcome fuel first a s) as Hout.
  by destruct (wire_paginate endpoint path step fuel first a s) as [[r|e|] s'].
Qed.

(** The loop is left, for some number of iterations, exactly when a page
    it gets to stops it or raises. *)
Lemma wire_paginate_terminates_iff a s :
  (exists fuel, (wire_paginate endpoint path step fuel 1 a s).1 ≠ Diverge) <->
  exists n, 1 <= n /\ pages_go_on endpoint path n /\
            (page_stops endpoint path n \/ exists e, page_raises endpoint path n e).
Proof.
  split.
  - intros (fuel & Hrun). pose proof (wire_paginate_outcome fuel 1 a s) as Hout.
    destruct (wire_paginate endpoint path step fuel 1 a s) as [[r|e|] s']; [| |done].
    + destruct Hout as (n & _ & Hc & Hs & _). exists (1 + Z.of_nat n).
      split_and!; [lia|done|by left].
    + destruct Hout as (n & _ & Hc & Hr & _). exists (1 + Z.of_nat n).
      split_and!; [lia|done|right; by exists e].
  - intros (n & Hn & Hc & [Hs|(e & Hr)]); exists (S (Z.to_nat (n - 1))).
    + rewrite (wire_paginate_returns (Z.to_nat (n - 1))); [done|lia| |].
      * intros p Hp. apply Hc. lia.
      * by replace (1 + Z.of_nat (Z.to_nat (n - 1))) with n by lia.
    + rewrite (wire_paginate_fails (Z.to_nat (n - 1)) _ _ e); [done|lia| |].
      * intros p Hp. apply Hc. lia.
      * by replace (1 + Z.of_nat (Z.to_nat (n - 1))) with n by lia.
Qed.

Lemma wire_paginate_returns_iff a s :
  (exists fuel r s', wire_paginate endpoint path step fuel 1 a s = (Ok r, s')) <->
  exists n, 1 <= n /\ pages_go_on endpoint path n /\ page_stops endpoint path n.
Proof.
  split.
  - intros (fuel & r & s' & Hrun).
    apply wire_paginate_Ok_iff in Hrun as (n & _ & Hc & Hs & _).
    exists (1 + Z.of_nat n). split_and!; [lia|done..].
  - intros (n & Hn & Hc & Hs). exists (S (Z.to_nat (n - 1))). do 2 eexists.
    apply (wire_paginate_returns (Z.to_nat (n - 1))); [lia| |].
    + intros p Hp. apply Hc. lia.
    + by replace (1 + Z.of_nat (Z.to_nat (n - 1))) with n by lia.
Qed.

End WirePagination.

(** ** The two listing helpers over a connection that can fail *)

Section WireListings.
Context `{Upstream} `{Transport}.

Lemma wire_list_zones_loop_paginate fuel : forall page zones s,
  Wire.cloudflare_list_zones_loop fuel page zones s
  = wire_paginate cloudflare_zones GetZones (fun a rows => a ++ rows) fuel page zones s.
Proof.
  induction fuel as [|fuel IH]; intros page zones s; [done|].
  simpl. munfold.
  destruct (Wire.cloudflare_request cloudflare_zones GetZones page s) as [[response| |] s1];
    [|done..].
  destruct (last_page page response); [done|apply IH].
Qed.

Lemma wire_list_zone_records_loop_paginate fuel zoneID : forall page records s,
  Wire.cloudflare_list_zone_records_loop fuel zoneID page records s
  = (merged ← wire_paginate (cloudflare_dns_records zoneID) (GetZoneRecords zoneID) merge_rows
               fuel page records;
     mret merged.*2) s.
Proof.
  induction fuel as [|fuel IH]; intros page records s; [done|].
  simpl. munfold.
  destruct (Wire.cloudflare_request (cloudflare_dns_records zoneID) (GetZoneRecords zoneID) page s)
    as [[response| |] s1]; [|done..].
  destruct (last_page page response); [done|].
  rewrite IH. by munfold.
Qed.

Lemma wire_list_zones_eq fuel s :
  Wire.cloudflare_list_zones fuel s
  = wire_paginate cloudflare_zones GetZones (fun a rows => a ++ rows) fuel 1 [] s.
Proof. apply wire_list_zones_loop_paginate. Qed.

(** The record listing has the outcome of the scheme, its value mapped
    to the values of the dict. *)
Lemma wire_list_zone_records_Ok fuel zoneID s records s' :
  Wire.cloudflare_list_zone_records fuel zoneID s = (Ok records, s') <->
  exists merged,
    wire_paginate (cloudflare_dns_records zoneID) (GetZoneRecords zoneID) merge_rows fuel 1 [] s
    = (Ok merged, s') /\ records = merged.*2.
Proof.
  unfold Wire.cloudflare_list_zone_records. rewrite wire_list_zone_records_loop_paginate. split.
  - intros (merged & s1 & Hrun & [= <- <-])%bind_Ok_inv. by exists merged.
  - intros (merged & Hrun & ->). by erewrite bind_Ok by done.
Qed.

Lemma wire_list_zone_records_Raise fuel zoneID s e s' :
  Wire.cloudflare_list_zone_records fuel zoneID s = (Raise e, s') <->
  wire_paginate (cloudflare_dns_records zoneID) (GetZoneRecords zoneID) merge_rows fuel 1 [] s
  = (Raise e, s').
Proof.
  unfold Wire.cloudflare_list_zone_records. rewrite wire_list_zone_records_loop_paginate. split.
  - by intros [Hrun|(merged & s1 & _ & Hret)]%bind_Raise_inv.
  - intros Hrun. by apply bind_Raise.
Qed.

Lemma wire_list_zone_records_Diverge fuel zoneID s :
  (Wire.cloudflare_list_zone_records fuel zoneID s).1 = Diverge <->
  (wire_paginate (cloudflare_dns_records zoneID) (GetZoneRecords zoneID) merge_rows fuel 1 [] s).1
  = Diverge.
Proof.
  unfold Wire.cloudflare_list_zone_records. rewrite wire_list_zone_records_loop_paginate.
  munfold.
  by destruct (wire_paginate (cloudflare_dns_records zoneID) (GetZoneRecords zoneID) merge_rows
                 fuel 1 [] s) as [[merged|e|] s1].
Qed.

(** X2. How the two listing helpers fail, over a connection that can fail
    too. Each helper raises exactly when, after pages that were answered
    200, read, and did not pass the stop test, the request for the next
    page does not arrive ([session.get] raises), or is answered with
    another status than 200 (the exception is then [CloudFlareError] with
    the message [Request failed: ] and the text of the answer), or is
    answered 200 with a body that cannot be read. The failed request is the
    last one sent, and the results of the pages before it are dropped. *)
Theorem listing_raises_iff (zoneID : string) (fuel : nat) (s : net) (e : exn) (s' : net) :
  (Wire.cloudflare_list_zones fuel s = (Raise e, s') <->
   exists n : nat,
     (n < fuel)%nat /\
     (forall p, 1 <= p < 1 + Z.of_nat n -> page_goes_on cloudflare_zones GetZones p) /\
     ((exists reason,
         transport_fault (GetZones (page_args (1 + Z.of_nat n))) = Some reason /\
         e = TransportError reason) \/
      (transport_fault (GetZones (page_args (1 + Z.of_nat n))) = None /\
       status_code (cloudflare_zones (page_args (1 + Z.of_nat n))) ≠ 200 /\
       e = CloudFlareError
             ("Request failed: " +:+ text (cloudflare_zones (page_args (1 + Z.of_nat n))))) \/
      (transport_fault (GetZones (page_args (1 + Z.of_nat n))) = None /\
       status_code (cloudflare_zones (page_args (1 + Z.of_nat n))) = 200 /\
       exists reason,
         body_fault (GetZones (page_args (1 + Z.of_nat n))) = Some reason /\
         e = BodyError reason)) /\
     s' = sent (pages_requests GetZones 1 (S n)) s) /\
  (Wire.cloudflare_list_zone_records fuel zoneID s = (Raise e, s') <->
   exists n : nat,
     (n < fuel)%nat /\
     (forall p, 1 <= p < 1 + Z.of_nat n ->
        page_goes_on (cloudflare_dns_records zoneID) (GetZoneRecords zoneID) p) /\
     ((exists reason,
         transport_fault (GetZoneRecords zoneID (page_args (1 + Z.of_nat n))) = Some reason /\
         e = TransportError reason) \/
      (transport_fault (GetZoneRecords zoneID (page_args (1 + Z.of_nat n))) = None /\
       status_code (cloudflare_dns_records zoneID (page_args (1 + Z.of_nat n))) ≠ 200 /\
       e = CloudFlareError
             ("Request failed: "
              +:+ text (cloudflare_dns_records zoneID (page_args (1 + Z.of_nat n))))) \/
      (transport_fault (GetZoneRecords zoneID (page_args (1 + Z.of_nat n))) = None /\
       status_code (cloudflare_dns_records zoneID (page_args (1 + Z.of_nat n))) = 200 /\
       exists reason,
         body_fault (GetZoneRecords zoneID (page_args (1 + Z.of_nat n))) = Some reason /\
         e = BodyError reason)) /\
     s' = sent (pages_requests (GetZoneRecords zoneID) 1 (S n)) s).
Proof.
  split.
  - rewrite wire_list_zones_eq. apply wire_paginate_Raise_iff.
  - rewrite wire_list_zone_records_Raise. apply wire_paginate_Raise_iff.
Qed.

(** C10 as the code has it. Termination of the pagination loops, over a
    connection that can fail. Each of the two listing helpers comes to an
    end (for some number of iterations) if and only if, for some page
    [n >= 1] that it gets to request (the pages before it were answered
    200, read, and reported a [total_pages] other than their number),
    either the answer is 200, is read, and its [result_info] has no
    [total_pages] or reports [total_pages = n], or the request raises: it
    does not arrive, it is answered with another status than 200, or the
    body of its answer cannot be read. The helper returns its list in the
    first case only. When every page is answered 200, read, and reports a
    [total_pages] below its own number (0, for one), the loop has not come
    to an end after any number of iterations. *)
Theorem pagination_terminates_iff (zoneID : string) (s : net) :
  ((exists fuel, (Wire.cloudflare_list_zones fuel s).1 ≠ Diverge) <->
   exists n, 1 <= n /\
     (forall p, 1 <= p < n ->
        page_read cloudflare_zones GetZones p /\
        ~ (total_pages (json (cloudflare_zones (page_args p))) = None \/
           total_pages (json (cloudflare_zones (page_args p))) = Some p)) /\
     ((page_read cloudflare_zones GetZones n /\
       (total_pages (json (cloudflare_zones (page_args n))) = None \/
        total_pages (json (cloudflare_zones (page_args n))) = Some n)) \/
      exists e, page_raises cloudflare_zones GetZones n e)) /\
  ((exists fuel zones s', Wire.cloudflare_list_zones fuel s = (Ok zones, s')) <->
   exists n, 1 <= n /\
     (forall p, 1 <= p < n ->
        page_read cloudflare_zones GetZones p /\
        ~ (total_pages (json (cloudflare_zones (page_args p))) = None \/
           total_pages (json (cloudflare_zones (page_args p))) = Some p)) /\
     page_read cloudflare_zones GetZones n /\
     (total_pages (json (cloudflare_zones (page_args n))) = None \/
      total_pages (json (cloudflare_zones (page_args n))) = Some n)) /\
  ((exists fuel, (Wire.cloudflare_list_zone_records fuel zoneID s).1 ≠ Diverge) <->
   exists n, 1 <= n /\
     (forall p, 1 <= p < n ->
        page_read (cloudflare_dns_records zoneID) (GetZoneRecords zoneID) p /\
        ~ (total_pages (json (cloudflare_dns_records zoneID (page_args p))) = None \/
           total_pages (json (cloudflare_dns_records zoneID (page_args p))) = Some p)) /\
     ((page_read (cloudflare_dns_records zoneID) (GetZoneRecords zoneID) n /\
       (total_pages (json (cloudflare_dns_records zoneID (page_args n))) = None \/
        total_pages (json (cloudflare_dns_records zoneID (page_args n))) = Some n)) \/
      exists e, page_raises (cloudflare_dns_records zoneID) (GetZoneRecords zoneID) n e)) /\
  ((exists fuel records s',
      Wire.cloudflare_list_zone_records fuel zoneID s = (Ok records, s')) <->
   exists n, 1 <= n /\
     (forall p, 1 <= p < n ->
        page_read (cloudflare_dns_records zoneID) (GetZoneRecords zoneID) p /\
        ~ (total_pages (json (cloudflare_dns_records zoneID (page_args p))) = None \/
           total_pages (json (cloudflare_dns_records zoneID (page_args p))) = Some p)) /\
     page_read (cloudflare_dns_records zoneID) (GetZoneRecords zoneID) n /\
     (total_pages (json (cloudflare_dns_records zoneID (page_args n))) = None \/
      total_pages (json (cloudflare_dns_records zoneID (page_args n))) = Some n)) /\
  ((forall p, 1 <= p ->
      page_read cloudflare_zones GetZones p /\
      exists t, total_pages (json (cloudflare_zones (page_args p))) = Some t /\ t < p) ->
   forall fuel, (Wire.cloudflare_list_zones fuel s).1 = Diverge) /\
  ((forall p, 1 <= p ->
      page_read (cloudflare_dns_records zoneID) (GetZoneRecords zoneID) p /\
      exists t, total_pages (json (cloudflare_dns_records zoneID (page_args p))) = Some t /\
                t < p) ->
   forall fuel, (Wire.cloudflare_list_zone_records fuel zoneID s).1 = Diverge).
Proof.
  split_and!.
  - setoid_rewrite wire_list_zones_eq. apply wire_paginate_terminates_iff.
  - setoid_rewrite wire_list_zones_eq. apply wire_paginate_returns_iff.
  - etrans; [|apply (wire_paginate_terminates_iff (cloudflare_dns_records zoneID)
                       (GetZoneRecords zoneID) merge_rows [] s)].
    split; intros (fuel & Hrun); exists fuel; intros Hdiv; apply Hrun;
      by apply wire_list_zone_records_Diverge.
  - etrans; [|apply (wire_paginate_returns_iff (cloudflare_dns_records zoneID)
                       (GetZoneRecords zoneID) merge_rows [] s)].
    split.
    + intros (fuel & records & s' & (merged & Hrun & _)%wire_list_zone_records_Ok).
      by exists fuel, merged, s'.
    + intros (fuel & merged & s' & Hrun). exists fuel, merged.*2, s'.
      apply wire_list_zone_records_Ok. by exists merged.
  - intros Hlow fuel. rewrite wire_list_zones_eq. apply wire_paginate_diverges.
    intros p Hp. destruct (Hlow p) as (Hread & t & Ht & Hlt); [lia|].
    split; [done|]. by apply (not_stop_test_below p t).
  - intros Hlow fuel. apply wire_list_zone_records_Diverge, wire_paginate_diverges.
    intros p Hp. destruct (Hlow p) as (Hread & t & Ht & Hlt); [lia|].
    split; [done|]. by apply (not_stop_test_below p t).
Qed.

End WireListings.

(** ** [get_cloudflare_records] over a connection that can fail *)

Section WireSnapshot.
Context `{Upstream} `{Transport}.






End WireSnapshot.

(** ** On the connection that delivers and reads every answer, the
    adapter is the one of the first part *)

Section Reliable.
Context `{Upstream}.

Lemma wire_request_reliable {row} (endpoint : cf_args -> http_response row)
    (path : cf_args -> cf_request) (page : Z) (s : net) :
  @Wire.cloudflare_request reliable row endpoint path page s
  = cloudflare_request endpoint path page s.
Proof.
  unfold Wire.cloudflare_request, cloudflare_request. munfold. simpl.
  by destruct (status_code _ =? 200).
Qed.

Lemma wire_list_zones_reliable fuel s :
  @Wire.cloudflare_list_zones _ reliable fuel s = cloudflare_list_zones fuel s.
Proof.
  unfold Wire.cloudflare_list_zones, cloudflare_list_zones.
  generalize 1 (@nil cf_zone). revert s.
  induction fuel as [|fuel IH]; intros s page zones; [done|].
  simpl. unfold mbind, M_bind, bind. rewrite wire_request_reliable.
  destruct (cloudflare_request cloudflare_zones GetZones page s) as [[response| |] s1]; [|done..].
  destruct (last_page page response); [done|apply IH].
Qed.

Lemma wire_list_zone_records_reliable fuel zoneID s :
  @Wire.cloudflare_list_zone_records _ reliable fuel zoneID s
  = cloudflare_list_zone_records fuel zoneID s.
Proof.
  unfold Wire.cloudflare_list_zone_records, cloudflare_list_zone_records.
  generalize 1 (@nil (string * merged_record)). revert s.
  induction fuel as [|fuel IH]; intros s page records; [done|].
  simpl. unfold mbind, M_bind, bind. rewrite wire_request_reliable.
  destruct (cloudflare_request (cloudflare_dns_records zoneID) (GetZoneRecords zoneID) page s)
    as [[response| |] s1]; [|done..].
  destruct (last_page page response); [done|apply IH].
Qed.

Lemma wire_get_cloudflare_records_reliable fuel s :
  @Wire.get_cloudflare_records _ reliable fuel s = get_cloudflare_records fuel s.
Proof.
  unfold Wire.get_cloudflare_records, get_cloudflare_records.
  unfold mbind, M_bind, bind. rewrite wire_list_zones_reliable.
  destruct (cloudflare_list_zones fuel s) as [[zobjs| |] s1]; [|done..].
  generalize (@nil zone_data). revert s1.
  induction zobjs as [|zobj zobjs IH]; intros s1 zones; [done|].
  simpl. unfold mbind, M_bind, bind.
  assert (@Wire.cloudflare_zone _ reliable fuel zones zobj s1 = cloudflare_zone fuel zones zobj s1)
    as ->.
  { unfold Wire.cloudflare_zone, cloudflare_zone. by rewrite wire_list_zone_records_reliable. }
  destruct (cloudflare_zone fuel zones zobj s1) as [[zones1| |] s2]; [|done..].
  apply IH.
Qed.

End Reliable.

(** ** The snapshot of [get_cloudflare_records], zone object by zone object *)

Section Merge.
Context `{Upstream}.

Lemma listed_in_pages fuel zobj (n : nat) :
  listed_in fuel zobj n <->
  (n < fuel)%nat /\
  page_requested (cloudflare_dns_records (cf_zone_id zobj)) (1 + Z.of_nat n) /\
  page_ends (cloudflare_dns_records (cf_zone_id zobj)) (1 + Z.of_nat n).
Proof.
  unfold listed_in, page_requested. rewrite page_ends_answered_last.
  split; intros (Hn & Hc & He); (split_and!; [done| |done]);
    intros p Hp; apply page_continues_answered_more, Hc, Hp.
Qed.

(** The record listing of a zone object that is listed in [n + 1] pages
    returns the merge of the rows of these pages, from any state. *)
Lemma list_zone_records_listed fuel zobj (n : nat) s :
  listed_in fuel zobj n ->
  (cloudflare_list_zone_records fuel (cf_zone_id zobj) s).1
  = Ok (merge_rows [] (fetched_rows (cf_zone_id zobj) (S n))).*2.
Proof.
  intros (Hn & Hc & He)%listed_in_pages.
  unfold cloudflare_list_zone_records. rewrite list_zone_records_loop_paginate.
  erewrite bind_Ok by (by apply (paginate_returns _ _ _ n)).
  by rewrite foldl_merge_rows.
Qed.

Lemma merged_names_of_rows rows records m :
  merged_from rows records -> m ∈ records.*2 ->
  exists row, row ∈ rows /\ cf_name row = m_name m.
Proof.
  intros Hmerged Hm. destruct (merged_from_values _ _ Hmerged) as (_ & _ & Hval).
  destruct (Hval _ Hm) as [_ Htype].
  destruct (filter (fun row => cf_name row = m_name m) rows) as [|row rest] eqn:Hfilter;
    [done|].
  assert (row ∈ filter (fun row => cf_name row = m_name m) rows) as Hin
    by (rewrite Hfilter; left).
  apply list_elem_of_filter in Hin as [Hname Hin]. by exists row.
Qed.

(** The zone dict built from the merge of the rows fetched for a zone
    object is the merged zone of that zone object. *)
Lemma cloudflare_zone_dict_merged zobj rows :
  merged_zone zobj rows (cloudflare_zone_dict zobj (merge_rows [] rows).*2).
Proof.
  assert (merged_from rows (merge_rows [] rows)) as Hmerged
    by apply (merge_rows_merged _ [] []), merged_from_nil.
  destruct (merged_from_values _ _ Hmerged) as (Hnd & Hcov & Hval).
  set (merged := (merge_rows [] rows).*2) in *.
  assert (r_name <$> z_records (cloudflare_zone_dict zobj merged) = m_name <$> merged) as Hnames.
  { simpl. rewrite <- list_fmap_compose. done. }
  set (zone_id := get_resource_id "cfz" [cf_zone_name zobj]).
  split_and!; [done|done|by rewrite Hnames| |].
  - intros record (m & -> & Hm)%list_elem_of_fmap. simpl.
    by apply (merged_names_of_rows rows (merge_rows [] rows)).
  - intros row Hrow. destruct (Hcov _ Hrow) as (m & Hm & Hname).
    exists (cloudflare_record zobj zone_id m).
    split_and!.
    + rewrite <- Hname.
      change (m_name m) with (r_name (cloudflare_record zobj zone_id m)).
      apply filter_unique_name; [by rewrite Hnames|].
      simpl. apply list_elem_of_fmap. by exists m.
    + simpl. rewrite <- Hname. by apply Hval.
    + simpl. rewrite <- Hname. destruct (Hval _ Hm) as [-> _]. apply sorted_Permutation.
    + simpl. destruct (Hval _ Hm) as [-> _]. apply sorted_StronglySorted.
Qed.

(** Every zone of the snapshot was built for a zone object of the
    listing, from the rows fetched under that zone object's id. *)
Lemma snapshot_zone_listed fuel s zones s' zone :
  get_cloudflare_records fuel s = (Ok zones, s') ->
  zone ∈ zones ->
  exists zobjs s1 zobj (n : nat),
    cloudflare_list_zones fuel s = (Ok zobjs, s1) /\
    zobj ∈ zobjs /\
    listed_in fuel zobj n /\
    zone = cloudflare_zone_dict zobj (merge_rows [] (fetched_rows (cf_zone_id zobj) (S n))).*2.
Proof.
  unfold get_cloudflare_records. intros Hrun Hin.
  apply bind_Ok_inv in Hrun as (zobjs & s1 & Hlist & Hrun).
  destruct (cloudflare_zones_loop_elem _ _ _ _ _ _ _ Hrun Hin)
    as [Hnil|(zobj & records & s2 & s3 & Hzobj & Hrecs & Hne & ->)];
    [by apply elem_of_nil in Hnil|].
  apply list_zone_records_Ok_inv in Hrecs as (n & Hn & Hc & He & -> & _).
  exists zobjs, s1, zobj, n. split_and!; [done..| |done].
  by apply listed_in_pages.
Qed.

(** Every zone object of the listing whose record listing returns
    records has its zone in the snapshot. *)
Lemma cloudflare_zones_loop_covers fuel zobjs : forall zones s out s' zobj records,
  cloudflare_zones_loop fuel zones zobjs s = (Ok out, s') ->
  zobj ∈ zobjs ->
  (forall s0, (cloudflare_list_zone_records fuel (cf_zone_id zobj) s0).1 = Ok records) ->
  records ≠ [] ->
  cloudflare_zone_dict zobj records ∈ out.
Proof.
  induction zobjs as [|zobj0 zobjs IH]; intros zones s out s' zobj records Hrun Hin Hlist Hne;
    [by apply elem_of_nil in Hin|].
  simpl in Hrun. apply bind_Ok_inv in Hrun as (zones1 & s1 & Hzone & Hrun).
  apply elem_of_cons in Hin as [->|Hin]; [|by eapply IH].
  apply cloudflare_zones_loop_follows in Hrun as (new & -> & _).
  apply elem_of_app. left.
  unfold cloudflare_zone in Hzone. specialize (Hlist s).
  destruct (cloudflare_list_zone_records fuel (cf_zone_id zobj0) s) as [[records0|e|] s2];
    simpl in Hlist; [|done..].
  injection Hlist as ->. destruct records as [|record records]; [done|].
  simpl in Hzone. injection Hzone as <- _. apply elem_of_app. right. left.
Qed.

(** C3. Multi-value merge. When [get_cloudflare_records] returns, the
    zones were listed, and zone for zone the snapshot is the merge of the
    rows fetched under that zone's id. Every zone of the snapshot was built
    for a zone object of the listing whose record listing was over after
    some pages, and it is the merged zone of the rows of these pages: it
    bears the zone object's name, no two of its records share a name, and
    for every raw row there is exactly one record with the row's name,
    whose value is the sorted list of the contents of all the raw rows of
    that name. Conversely every zone object of the listing whose record
    listing is over after some pages that hold at least one row has such a
    zone in the snapshot. *)
Theorem cloudflare_multi_value_merge fuel s zones s' :
  get_cloudflare_records fuel s = (Ok zones, s') ->
  exists zobjs s1,
    cloudflare_list_zones fuel s = (Ok zobjs, s1) /\
    (forall zone, zone ∈ zones ->
       exists zobj (n : nat),
         zobj ∈ zobjs /\
         listed_in fuel zobj n /\
         merged_zone zobj (fetched_rows (cf_zone_id zobj) (S n)) zone) /\
    (forall zobj (n : nat),
       zobj ∈ zobjs ->
       listed_in fuel zobj n ->
       fetched_rows (cf_zone_id zobj) (S n) ≠ [] ->
       exists zone,
         zone ∈ zones /\
         merged_zone zobj (fetched_rows (cf_zone_id zobj) (S n)) zone).
Proof.
  intros Hrun.
  assert (exists zobjs s1, cloudflare_list_zones fuel s = (Ok zobjs, s1) /\
            cloudflare_zones_loop fuel [] zobjs s1 = (Ok zones, s')) as (zobjs & s1 & Hlist & Hloop).
  { unfold get_cloudflare_records in Hrun.
    apply bind_Ok_inv in Hrun as (zobjs & s1 & Hlist & Hloop). by exists zobjs, s1. }
  exists zobjs, s1. split_and!; [done| |].
  - intros zone Hin.
    destruct (snapshot_zone_listed _ _ _ _ _ Hrun Hin)
      as (zobjs' & s1' & zobj & n & Hlist' & Hzobj & Hlisted & ->).
    assert (zobjs' = zobjs) as -> by congruence.
    exists zobj, n. split_and!; [done..|]. apply cloudflare_zone_dict_merged.
  - intros zobj n Hzobj Hlisted Hrows.
    exists (cloudflare_zone_dict zobj (merge_rows [] (fetched_rows (cf_zone_id zobj) (S n))).*2).
    split; [|apply cloudflare_zone_dict_merged].
    apply (cloudflare_zones_loop_covers _ _ _ _ _ _ _ _ Hloop Hzobj).
    + intros s0. by apply list_zone_records_listed.
    + destruct (fetched_rows (cf_zone_id zobj) (S n)) as [|row rows] eqn:Hfetched; [done|].
      pose proof (merge_rows_merged (row :: rows) [] [] merged_from_nil) as Hmerged.
      destruct (merged_from_values _ _ Hmerged) as (_ & Hcov & _).
      destruct (Hcov row (list_elem_of_here _ _)) as (m & Hm & _).
      intros Hnil. rewrite Hnil in Hm. by apply elem_of_nil in Hm.
Qed.

(** C2 as the code has it. The id of a record that
    [get_cloudflare_records] emits is the identity function applied to the
    tag [cfr], the id of the zone object of the listing for which the
    record's zone was built, and the [key=value] rendering of the merged
    record: its name, the sorted list of the contents of all the raw rows
    of that name fetched under the zone object's id, and the type of the
    first of them. *)
Theorem cloudflare_record_id_of_merged_record fuel s zones s' zone record :
  get_cloudflare_records fuel s = (Ok zones, s') ->
  zone ∈ zones ->
  record ∈ z_records zone ->
  exists zobjs s1 zobj (n : nat),
    cloudflare_list_zones fuel s = (Ok zobjs, s1) /\
    zobj ∈ zobjs /\
    listed_in fuel zobj n /\
    z_name zone = cf_zone_name zobj /\
    z_zone_id zone = get_resource_id "cfz" [cf_zone_name zobj] /\
    r_zone_id record = z_zone_id zone /\
    let rows := fetched_rows (cf_zone_id zobj) (S n) in
    (exists row, row ∈ rows /\ cf_name row = r_name record) /\
    r_value record = Py.sorted (contents_of (r_name record) rows) /\
    cf_type <$> head (filter (fun row => cf_name row = r_name record) rows)
      = Some (r_type record) /\
    r_id record
    = get_resource_id "cfr"
        [ cf_zone_id zobj;
          Py.format_kv "name" (r_name record);
          Py.format_kv "value" (Py.str_of_list (Py.sorted (contents_of (r_name record) rows)));
          Py.format_kv "type" (r_type record) ].
Proof.
  intros Hrun Hin Hrec.
  destruct (snapshot_zone_listed _ _ _ _ _ Hrun Hin)
    as (zobjs & s1 & zobj & n & Hlist & Hzobj & Hlisted & ->).
  exists zobjs, s1, zobj, n. split_and!; [done..| |]; cbv zeta.
  - simpl in Hrec. by apply list_elem_of_fmap in Hrec as (m & -> & Hm).
  - assert (merged_from (fetched_rows (cf_zone_id zobj) (S n))
              (merge_rows [] (fetched_rows (cf_zone_id zobj) (S n)))) as Hmerged
      by apply (merge_rows_merged _ [] []), merged_from_nil.
    destruct (merged_from_values _ _ Hmerged) as (_ & _ & Hval).
    set (rows := fetched_rows (cf_zone_id zobj) (S n)) in *.
    simpl in Hrec. apply list_elem_of_fmap in Hrec as (m & -> & Hm).
    destruct (Hval _ Hm) as [Hv Ht]. simpl. split_and!; [|done..|].
    + by apply (merged_names_of_rows rows (merge_rows [] rows)).
    + unfold merged_items. by rewrite Hv.
Qed.

End Merge.

(** ** Concrete instances for the listings over a connection that can fail *)

(** The sample account's zone listing returns after three pages; a zone
    listing whose second page is refused comes to an end without
    returning; a listing that always reports [total_pages = 0] does not
    come to an end. *)
Lemma pagination_terminates_iff_witness :
  (exists fuel zones s',
     @Wire.cloudflare_list_zones (sample_upstream "1.1.1.1") reliable fuel net0
     = (Ok zones, s')) /\
  (exists fuel, (@Wire.cloudflare_list_zones refusing_upstream reliable fuel net0).1 ≠ Diverge) /\
  (forall fuel, (@Wire.cloudflare_list_zones stalling_upstream reliable fuel net0).1 = Diverge) /\
  (forall fuel,
     (@Wire.cloudflare_list_zone_records stalling_upstream reliable fuel "023e105f" net0).1
     = Diverge).
Proof.
  split_and!.
  - apply (proj2 (proj1 (proj2
             (@pagination_terminates_iff (sample_upstream "1.1.1.1") reliable "023e105f" net0)))).
    exists 3. split; [lia|]. split; [|split; [by split_and!|by right]].
    intros p Hp. assert (p = 1 \/ p = 2) as [->| ->] by lia;
      (split; [by split_and!|intros [Hnone|Hsome]; discriminate]).
  - apply (proj2 (proj1
             (@pagination_terminates_iff refusing_upstream reliable "023e105f" net0))).
    exists 2. split; [lia|]. split.
    + intros p Hp. assert (p = 1) as -> by lia.
      split; [by split_and!|intros [Hnone|Hsome]; discriminate].
    + right. eexists. right. left. split_and!; [done| |reflexivity]. discriminate.
  - apply (proj1 (proj2 (proj2 (proj2 (proj2
             (@pagination_terminates_iff stalling_upstream reliable "023e105f" net0)))))).
    intros p Hp. split; [by split_and!|]. exists 0. split; [done|lia].
  - apply (proj2 (proj2 (proj2 (proj2 (proj2
             (@pagination_terminates_iff stalling_upstream reliable "023e105f" net0)))))).
    intros p Hp. split; [by split_and!|]. exists 0. split; [done|lia].
Defined.

(** C10 as the claim words it does not hold. The second page of this
    account's listings is answered 503. Both loops have come to an end
    after the second request, with a [CloudFlareError], although neither
    of the two pages requested lacks [total_pages] or reports its own
    number: both report [total_pages = 3]. *)
Lemma refused_page_ends_the_loop :
  @Wire.cloudflare_list_zones refusing_upstream reliable 5 net0
  = (Raise (CloudFlareError "Request failed: Service Unavailable"),
     {| cloudflare_initialized := true;
        requests := [GetZones (page_args 1); GetZones (page_args 2)];
        transfers := [] |}) /\
  @cloudflare_list_zones refusing_upstream 5 net0
  = (Raise (CloudFlareError "Request failed: Service Unavailable"),
     {| cloudflare_initialized := true;
        requests := [GetZones (page_args 1); GetZones (page_args 2)];
        transfers := [] |}) /\
  total_pages (json (@cloudflare_zones refusing_upstream (page_args 1))) = Some 3 /\
  total_pages (json (@cloudflare_zones refusing_upstream (page_args 2))) = Some 3 /\
  @Wire.cloudflare_list_zone_records refusing_upstream reliable 5 "023e105f" net0
  = (Raise (CloudFlareError "Request failed: Service Unavailable"),
     {| cloudflare_initialized := true;
        requests := [ GetZoneRecords "023e105f" (page_args 1);
                      GetZoneRecords "023e105f" (page_args 2) ];
        transfers := [] |}) /\
  total_pages (json (@cloudflare_dns_records refusing_upstream "023e105f" (page_args 1)))
    = Some 3 /\
  total_pages (json (@cloudflare_dns_records refusing_upstream "023e105f" (page_args 2)))
    = Some 3.
Proof. split_and!; vm_compute; reflexivity. Qed.

(** The zone listing whose second page is refused raises the
    [CloudFlareError] of that page, after two requests. *)
Lemma listing_raises_iff_witness :
  @Wire.cloudflare_list_zones refusing_upstream reliable 5 net0
  = (Raise (CloudFlareError "Request failed: Service Unavailable"),
     {| cloudflare_initialized := true;
        requests := [GetZones (page_args 1); GetZones (page_args 2)];
        transfers := [] |}).
Proof.
  apply (proj2 (proj1 (@listing_raises_iff refusing_upstream reliable "023e105f" 5%nat net0
                         _ _))).
  exists 1%nat. split; [lia|]. split.
  - intros p Hp. assert (p = 1) as -> by lia.
    split; [by split_and!|intros [Hnone|Hsome]; discriminate].
  - split; [|reflexivity]. right. left. split_and!; [done| |reflexivity]. discriminate.
Defined.


(** The sample account's snapshot: its one zone was built for the first
    zone object of the listing, and the second zone object, whose pages
    hold no row, has no zone. *)
Lemma cloudflare_multi_value_merge_witness :
  exists zobjs s1,
    @cloudflare_list_zones (sample_upstream "1.1.1.1") 3 net0 = (Ok zobjs, s1) /\
    (forall zone, zone ∈ sample_cloudflare_snapshot ->
       exists zobj (n : nat),
         zobj ∈ zobjs /\
         @listed_in (sample_upstream "1.1.1.1") 3 zobj n /\
         @merged_zone (sample_upstream "1.1.1.1") zobj
           (@fetched_rows (sample_upstream "1.1.1.1") (cf_zone_id zobj) (S n)) zone) /\
    (forall zobj (n : nat),
       zobj ∈ zobjs ->
       @listed_in (sample_upstream "1.1.1.1") 3 zobj n ->
       @fetched_rows (sample_upstream "1.1.1.1") (cf_zone_id zobj) (S n) ≠ [] ->
       exists zone,
         zone ∈ sample_cloudflare_snapshot /\
         @merged_zone (sample_upstream "1.1.1.1") zobj
           (@fetched_rows (sample_upstream "1.1.1.1") (cf_zone_id zobj) (S n)) zone).
Proof.
  apply (@cloudflare_multi_value_merge (sample_upstream "1.1.1.1") 3 net0
           sample_cloudflare_snapshot _ sample_cloudflare_run).
Defined.

Lemma cloudflare_record_id_of_merged_record_witness :
  exists zobjs s1 zobj (n : nat),
    @cloudflare_list_zones (sample_upstream "1.1.1.1") 3 net0 = (Ok zobjs, s1) /\
    zobj ∈ zobjs /\
    @listed_in (sample_upstream "1.1.1.1") 3 zobj n /\
    z_name sample_cloudflare_zone = cf_zone_name zobj /\
    z_zone_id sample_cloudflare_zone = plain_resource_id "cfz" [cf_zone_name zobj] /\
    r_zone_id sample_www_record = z_zone_id sample_cloudflare_zone /\
    let rows := @fetched_rows (sample_upstream "1.1.1.1") (cf_zone_id zobj) (S n) in
    (exists row, row ∈ rows /\ cf_name row = r_name sample_www_record) /\
    r_value sample_www_record = Py.sorted (contents_of (r_name sample_www_record) rows) /\
    cf_type <$> head (filter (fun row => cf_name row = r_name sample_www_record) rows)
      = Some (r_type sample_www_record) /\
    r_id sample_www_record
    = plain_resource_id "cfr"
        [ cf_zone_id zobj;
          Py.format_kv "name" (r_name sample_www_record);
          Py.format_kv "value"
            (Py.str_of_list (Py.sorted (contents_of (r_name sample_www_record) rows)));
          Py.format_kv "type" (r_type sample_www_record) ].
Proof.
  apply (@cloudflare_record_id_of_merged_record (sample_upstream "1.1.1.1") 3 net0
           sample_cloudflare_snapshot _ sample_cloudflare_zone sample_www_record
           sample_cloudflare_run); left.
Defined.
